(** * Artemis Eco Forum: the shared application context and the feed view

    A shallow embedding of [src/contexts/AppContext.tsx], the feed page
    (its [applyFilters] effect) and the post form's submit handler,
    together with the properties of the state-synchronisation and
    derived-view logic.

    Conventions of the embedding.
    - A JavaScript [number] holding a count or a timestamp is a [Z]
      (exact for magnitudes below 2^53); a result of [Math.random()] is
      the rational value of the double, and what is computed from it is
      rounded to double precision; a [string] is a [String.string] that
      holds its UTF-8 encoding; an optional field ([x?: T]) and a
      nullable value are [option].
    - React state ([useState]) is a field of [World]; a handler reads the
      state of the render in which it was created.  An operation is a
      function of the state that runs to its end; for [upvotePost], which
      the post card starts without awaiting it, the stretches between
      its [await]s are given as well, and schedules in which calls
      overlap are played stretch by stretch.
    - The hosted backend (tables, change feed) is not part of the
      repository.  It is modelled as a relational store that carries out
      the requests the source makes on it, each of which may instead
      error, and that emits a change event for every row it inserts,
      updates or deletes. *)

From Stdlib Require Import List String Ascii ZArith QArith Qround Qpower Qabs.
From Stdlib Require Import Bool Lia Lqa.
From Stdlib Require Import Permutation Sorted DecimalString.
Import ListNotations.

Local Open Scope string_scope.
Local Open Scope list_scope.
Local Open Scope Z_scope.

(** ** Data model ([src/types/index.ts]) *)

Inductive PostFlag : Type :=
  Question | Opinion | Tip | News | Project | Discussion.

Definition PostFlag_eqb (a b : PostFlag) : bool :=
  match a, b with
  | Question, Question | Opinion, Opinion | Tip, Tip
  | News, News | Project, Project | Discussion, Discussion => true
  | _, _ => false
  end.

Inductive ColorScheme : Type := light | dark | system.

Module Post.
Record t : Type := mk {
  id : string;
  title : string;
  content : string;
  image_url : option string;
  created_at : Z;
  upvotes : Z;
  user_id : string;
  user_name : option string;
  flag : option PostFlag;
  repost_of : option string
}.
End Post.

Module Comment.
Record t : Type := mk {
  id : string;
  post_id : string;
  content : string;
  created_at : Z;
  user_id : string;
  user_name : option string
}.
End Comment.

Record UserPreferences : Type := mkPrefs {
  showImagesInFeed : bool;
  showContentInFeed : bool;
  colorScheme : ColorScheme
}.

Module User.
Record t : Type := mk {
  id : string;
  full_name : option string;
  preferences : UserPreferences;
  email : option string
}.
End User.

(** [Partial<UserPreferences>]: the fields that are present. *)
Record PartialPreferences : Type := mkPartial {
  p_showImagesInFeed : option bool;
  p_showContentInFeed : option bool;
  p_colorScheme : option ColorScheme
}.

(** ** JavaScript helpers *)

(** [a === b] on strings. *)
Definition str_eq (a b : string) : bool := String.eqb a b.

(** Truthiness of an optional string: [undefined] and [""] are falsy. *)
Definition truthy (s : option string) : bool :=
  match s with
  | Some s' => negb (str_eq s' "")
  | None => false
  end.

(** [a || b] on optional strings. *)
Definition or_else (a b : option string) : option string :=
  if truthy a then a else b.

(** [s.split("@")[0]]: the text before the first occurrence of [sep]. *)
Fixpoint before (sep : ascii) (s : string) : string :=
  match s with
  | EmptyString => EmptyString
  | String c rest => if Ascii.eqb c sep then EmptyString
                     else String c (before sep rest)
  end.

(** [!s] on a string: true exactly on the empty string. *)
Definition is_empty (s : string) : bool :=
  match s with EmptyString => true | _ => false end.

(** The code points that [String.prototype.trim] removes (WhiteSpace and
    LineTerminator of the language), each in UTF-8:
    U+0009 to U+000D and U+0020; U+00A0; U+1680; U+2000 to U+200A;
    U+2028 and U+2029; U+202F; U+205F; U+3000; U+FEFF. *)
Definition white_space : list string :=
  [String "009" ""; String "010" ""; String "011" ""; String "012" "";
   String "013" ""; String "032" "";
   String "194" (String "160" "");
   String "225" (String "154" (String "128" ""));
   String "226" (String "128" (String "128" ""));
   String "226" (String "128" (String "129" ""));
   String "226" (String "128" (String "130" ""));
   String "226" (String "128" (String "131" ""));
   String "226" (String "128" (String "132" ""));
   String "226" (String "128" (String "133" ""));
   String "226" (String "128" (String "134" ""));
   String "226" (String "128" (String "135" ""));
   String "226" (String "128" (String "136" ""));
   String "226" (String "128" (String "137" ""));
   String "226" (String "128" (String "138" ""));
   String "226" (String "128" (String "168" ""));
   String "226" (String "128" (String "169" ""));
   String "226" (String "128" (String "175" ""));
   String "226" (String "129" (String "159" ""));
   String "227" (String "128" (String "128" ""));
   String "239" (String "187" (String "191" ""))].

(** [bytes] is the encoding of one white-space code point. *)
Definition is_space (bytes : string) : bool :=
  existsb (String.eqb bytes) white_space.

(** [s.trimStart()]: the code points of [white_space] at the start of
    [s] are removed, one, two or three bytes at a time. *)
Fixpoint trimStart (s : string) : string :=
  match s with
  | EmptyString => EmptyString
  | String a rest =>
      if is_space (String a "") then trimStart rest
      else
        match rest with
        | EmptyString => s
        | String b rest2 =>
            if is_space (String a (String b "")) then trimStart rest2
            else
              match rest2 with
              | EmptyString => s
              | String c rest3 =>
                  if is_space (String a (String b (String c "")))
                  then trimStart rest3
                  else s
              end
        end
  end.

(** [s.trimEnd()]: [s] is cut where what follows is white space only.
    (No encoding of white space starts with a continuation byte, so the
    cut falls between code points.) *)
Fixpoint trimEnd (s : string) : string :=
  match s with
  | EmptyString => EmptyString
  | String c rest =>
      if is_empty (trimStart s) then EmptyString else String c (trimEnd rest)
  end.

Definition trim (s : string) : string := trimEnd (trimStart s).

(** [n || 0] on a number. *)
Definition or_zero (n : Z) : Z := if n =? 0 then 0 else n.

(** [Array.prototype.sort(compare)].  The language guarantees a stable
    sort; the algorithm is left to the engine.  It is embedded as the
    stable insertion sort: an element moves behind the elements that
    [compare] puts strictly before it and stays ahead of the others. *)
Section ArraySort.
Context {A : Type} (compare : A -> A -> Z).

Fixpoint sort_insert (x : A) (sorted : list A) : list A :=
  match sorted with
  | [] => [x]
  | y :: rest => if 0 <? compare x y then y :: sort_insert x rest
                 else x :: sorted
  end.

Definition sort (l : list A) : list A := fold_right sort_insert [] l.
End ArraySort.

(** ** The change feed and the Collection Store's handlers *)

(** A [postgres_changes] payload: [eventType] with [payload.new], or for
    a deletion the [id] of [payload.old]. *)
Inductive Payload (Row : Type) : Type :=
| INSERT (new : Row)
| UPDATE (new : Row)
| DELETE (old_id : string).
Arguments INSERT {Row} new.
Arguments UPDATE {Row} new.
Arguments DELETE {Row} old_id.

(** The callback of the ["posts-changes"] channel, as the function it
    passes to [setPosts]. *)
Definition onPostsChange (payload : Payload Post.t) (prev : list Post.t)
  : list Post.t :=
  match payload with
  | INSERT new => new :: prev
  | UPDATE new =>
      map (fun post => if str_eq (Post.id post) (Post.id new) then new else post)
          prev
  | DELETE old_id =>
      filter (fun post => negb (str_eq (Post.id post) old_id)) prev
  end.

(** The callback of the ["comments-changes"] channel. *)
Definition onCommentsChange (payload : Payload Comment.t)
  (prev : list Comment.t) : list Comment.t :=
  match payload with
  | INSERT new => prev ++ [new]
  | UPDATE new =>
      map (fun comment =>
             if str_eq (Comment.id comment) (Comment.id new) then new
             else comment)
          prev
  | DELETE old_id =>
      filter (fun comment => negb (str_eq (Comment.id comment) old_id)) prev
  end.

Inductive Change : Type :=
| PostsChange (payload : Payload Post.t)
| CommentsChange (payload : Payload Comment.t).

(** ** The backend and the process-wide state *)

Inductive Variant : Type := default | destructive.

Record Toast : Type := mkToast {
  variant : Variant;
  toast_title : string;
  description : string
}.

(** The tables of the hosted store.  [serial] numbers the rows the store
    has created; the identifier it assigns to a new row is derived from
    it. *)
Module Remote.
Record t : Type := mk {
  posts : list Post.t;
  comments : list Comment.t;
  user_profiles : list User.t;
  serial : nat
}.
End Remote.

(** Everything an operation of the context can read or change.
    - [remote], [outages], [feed], [clock] and [entropy] belong to the
      environment: the tables, for each coming request whether it errors
      (and with which message; an exhausted schedule means no error), the
      change events emitted and not yet delivered, the wall clock, and the
      coming results of [Math.random()].
    - [posts], [comments], [user] and [isLoading] are the [useState] cells
      of [AppProvider]; [toasts] records the notifications shown. *)
Record World : Type := mkWorld {
  remote : Remote.t;
  outages : list (option string);
  feed : list Change;
  clock : Z;
  entropy : list Q;
  posts : list Post.t;
  comments : list Comment.t;
  user : option User.t;
  isLoading : bool;
  toasts : list Toast
}.

Definition set_remote (r : Remote.t) (w : World) : World :=
  mkWorld r (outages w) (feed w) (clock w) (entropy w)
          (posts w) (comments w) (user w) (isLoading w) (toasts w).
Definition set_outages (o : list (option string)) (w : World) : World :=
  mkWorld (remote w) o (feed w) (clock w) (entropy w)
          (posts w) (comments w) (user w) (isLoading w) (toasts w).
Definition set_feed (f : list Change) (w : World) : World :=
  mkWorld (remote w) (outages w) f (clock w) (entropy w)
          (posts w) (comments w) (user w) (isLoading w) (toasts w).
Definition set_entropy (e : list Q) (w : World) : World :=
  mkWorld (remote w) (outages w) (feed w) (clock w) e
          (posts w) (comments w) (user w) (isLoading w) (toasts w).
Definition set_posts (p : list Post.t) (w : World) : World :=
  mkWorld (remote w) (outages w) (feed w) (clock w) (entropy w)
          p (comments w) (user w) (isLoading w) (toasts w).
Definition set_comments (c : list Comment.t) (w : World) : World :=
  mkWorld (remote w) (outages w) (feed w) (clock w) (entropy w)
          (posts w) c (user w) (isLoading w) (toasts w).
Definition set_user (u : option User.t) (w : World) : World :=
  mkWorld (remote w) (outages w) (feed w) (clock w) (entropy w)
          (posts w) (comments w) u (isLoading w) (toasts w).
Definition set_isLoading (b : bool) (w : World) : World :=
  mkWorld (remote w) (outages w) (feed w) (clock w) (entropy w)
          (posts w) (comments w) (user w) b (toasts w).
Definition set_toasts (t : list Toast) (w : World) : World :=
  mkWorld (remote w) (outages w) (feed w) (clock w) (entropy w)
          (posts w) (comments w) (user w) (isLoading w) t.

(** ** Asynchronous operations

    An [async] function is a state transformer that either returns or
    throws; a thrown error keeps the state changes made before it. *)

Inductive Error : Type :=
| JsError (message : string)          (* [new Error(message)] *)
| PostgrestError (message : string).  (* the [error] of a failed request *)

Inductive Outcome (A : Type) : Type :=
| Returned (a : A)
| Thrown (e : Error).
Arguments Returned {A} a.
Arguments Thrown {A} e.

Definition M (A : Type) : Type := World -> Outcome A * World.

Definition ret {A} (a : A) : M A := fun w => (Returned a, w).

Definition bind {A B} (m : M A) (k : A -> M B) : M B :=
  fun w =>
    match m w with
    | (Returned a, w') => k a w'
    | (Thrown e, w') => (Thrown e, w')
    end.

Definition throw {A} (e : Error) : M A := fun w => (Thrown e, w).

Declare Scope async_scope.
Delimit Scope async_scope with async.
Notation "x <- m ;; k" := (bind m (fun x => k))
  (at level 61, m at next level, right associativity) : async_scope.
Notation "m ;; k" := (bind m (fun _ => k))
  (at level 61, right associativity) : async_scope.
Local Open Scope async_scope.

Definition gets {A} (f : World -> A) : M A := fun w => (Returned (f w), w).
Definition modify (f : World -> World) : M unit := fun w => (Returned tt, f w).

Definition setIsLoading (b : bool) : M unit := modify (set_isLoading b).
Definition setPosts (f : list Post.t -> list Post.t) : M unit :=
  modify (fun w => set_posts (f (posts w)) w).
Definition setComments (f : list Comment.t -> list Comment.t) : M unit :=
  modify (fun w => set_comments (f (comments w)) w).
Definition setUser (f : option User.t -> option User.t) : M unit :=
  modify (fun w => set_user (f (user w)) w).
Definition toast (v : Variant) (title description : string) : M unit :=
  modify (fun w => set_toasts (toasts w ++ [mkToast v title description]) w).

(** [if (!user) throw new Error("User not authenticated")]. *)
Definition requireUser : M User.t :=
  u <- gets user ;;
  match u with
  | Some u' => ret u'
  | None => throw (JsError "User not authenticated")
  end.

(** [Math.random()]: the next draw of the schedule. *)
Definition Math_random : M Q :=
  fun w =>
    match entropy w with
    | [] => (Returned 0%Q, w)
    | r :: rest => (Returned r, set_entropy rest w)
    end.

(** *** Requests to the store *)

(** One round trip: the [error] of the coming request, if it has one. *)
Definition request : M (option string) :=
  fun w =>
    match outages w with
    | [] => (Returned None, w)
    | o :: rest => (Returned o, set_outages rest w)
    end.

(** The store applies a change to its tables and emits the matching
    change events. *)
Definition commit (r : Remote.t) (events : list Change) : M unit :=
  modify (fun w => set_feed (feed w ++ events) (set_remote r w)).

(** [.single()]: the row when exactly one row was selected. *)
Definition single {A} (rows : list A) : option A :=
  match rows with
  | [row] => Some row
  | _ => None
  end.

Definition set_remote_posts (p : list Post.t) (r : Remote.t) : Remote.t :=
  Remote.mk p (Remote.comments r) (Remote.user_profiles r) (Remote.serial r).
Definition set_remote_comments (c : list Comment.t) (r : Remote.t) : Remote.t :=
  Remote.mk (Remote.posts r) c (Remote.user_profiles r) (Remote.serial r).
Definition set_remote_profiles (u : list User.t) (r : Remote.t) : Remote.t :=
  Remote.mk (Remote.posts r) (Remote.comments r) u (Remote.serial r).

(** The identifier the store gives to the row with serial number [n]. *)
Definition server_id (n : nat) : string :=
  ("id-" ++ NilEmpty.string_of_uint (Nat.to_uint n))%string.

(** [from("posts").select(column).eq("id", x).single()], result [data]. *)
Definition posts_select_single (x : string) : M (option Post.t) :=
  error <- request ;;
  rows <- gets (fun w => Remote.posts (remote w)) ;;
  match error with
  | Some _ => ret None
  | None => ret (single (filter (fun row => str_eq (Post.id row) x) rows))
  end.

(** [from("comments").select(column).eq("id", x).single()]. *)
Definition comments_select_single (x : string) : M (option Comment.t) :=
  error <- request ;;
  rows <- gets (fun w => Remote.comments (remote w)) ;;
  match error with
  | Some _ => ret None
  | None => ret (single (filter (fun row => str_eq (Comment.id row) x) rows))
  end.

(** [from("posts").update(values).eq("id", x)], result [error]. *)
Definition posts_update (x : string) (values : Post.t -> Post.t)
  : M (option string) :=
  error <- request ;;
  r <- gets remote ;;
  match error with
  | Some message => ret (Some message)
  | None =>
      let hit := fun row => str_eq (Post.id row) x in
      commit (set_remote_posts
                (map (fun row => if hit row then values row else row)
                     (Remote.posts r)) r)
             (map (fun row => PostsChange (UPDATE (values row)))
                  (filter hit (Remote.posts r))) ;;
      ret None
  end.

(** [from("posts").delete().eq("id", x)]. *)
Definition posts_delete (x : string) : M (option string) :=
  error <- request ;;
  r <- gets remote ;;
  match error with
  | Some message => ret (Some message)
  | None =>
      let hit := fun row => str_eq (Post.id row) x in
      commit (set_remote_posts
                (filter (fun row => negb (hit row)) (Remote.posts r)) r)
             (map (fun row => PostsChange (DELETE (Post.id row)))
                  (filter hit (Remote.posts r))) ;;
      ret None
  end.

(** [from("comments").delete().eq(column, x)], for the column read by
    [key]. *)
Definition comments_delete (key : Comment.t -> string) (x : string)
  : M (option string) :=
  error <- request ;;
  r <- gets remote ;;
  match error with
  | Some message => ret (Some message)
  | None =>
      let hit := fun row => str_eq (key row) x in
      commit (set_remote_comments
                (filter (fun row => negb (hit row)) (Remote.comments r)) r)
             (map (fun row => CommentsChange (DELETE (Comment.id row)))
                  (filter hit (Remote.comments r))) ;;
      ret None
  end.

(** [from(table).insert(row).select().single()]: the store numbers the
    row, stores it and answers with the stored row. *)
Definition posts_insert (row : string -> Post.t)
  : M (Post.t + string) :=
  error <- request ;;
  r <- gets remote ;;
  match error with
  | Some message => ret (inr message)
  | None =>
      let stored := row (server_id (Remote.serial r)) in
      commit (Remote.mk (Remote.posts r ++ [stored]) (Remote.comments r)
                        (Remote.user_profiles r) (S (Remote.serial r)))
             [PostsChange (INSERT stored)] ;;
      ret (inl stored)
  end.

Definition comments_insert (row : string -> Comment.t)
  : M (Comment.t + string) :=
  error <- request ;;
  r <- gets remote ;;
  match error with
  | Some message => ret (inr message)
  | None =>
      let stored := row (server_id (Remote.serial r)) in
      commit (Remote.mk (Remote.posts r) (Remote.comments r ++ [stored])
                        (Remote.user_profiles r) (S (Remote.serial r)))
             [CommentsChange (INSERT stored)] ;;
      ret (inl stored)
  end.

(** [from("user_profiles").update(values).eq("id", x)]; no channel
    listens to this table. *)
Definition user_profiles_update (x : string) (values : User.t -> User.t)
  : M (option string) :=
  error <- request ;;
  r <- gets remote ;;
  match error with
  | Some message => ret (Some message)
  | None =>
      commit (set_remote_profiles
                (map (fun row => if str_eq (User.id row) x then values row
                                 else row)
                     (Remote.user_profiles r)) r)
             [] ;;
      ret None
  end.

(** The Collection Store absorbs the pending change events, oldest
    first. *)
Definition absorb (c : Change) (w : World) : World :=
  match c with
  | PostsChange payload => set_posts (onPostsChange payload (posts w)) w
  | CommentsChange payload =>
      set_comments (onCommentsChange payload (comments w)) w
  end.

Definition deliver (w : World) : World :=
  fold_left (fun w' c => absorb c w') (feed w) (set_feed [] w).

(** ** The operations of [AppProvider] *)

Definition adjectives : list string :=
  ["Green"; "Forest"; "Earth"; "River"; "Ocean"; "Wild"; "Nature"; "Eco";
   "Solar"; "Wind"].

Definition nouns : list string :=
  ["Guardian"; "Defender"; "Warrior"; "Friend"; "Hero"; "Spirit";
   "Advocate"; "Pioneer"; "Keeper"; "Voice"].

(** The integer nearest to [q]; of two that are equally near, the even
    one. *)
Definition nearest_even (q : Q) : Z :=
  let below := Qfloor q in
  match (q - inject_Z below ?= 1 # 2)%Q with
  | Lt => below
  | Gt => below + 1
  | Eq => if Z.even below then below else below + 1
  end.

(** The exponent [k] with [2^k <= q < 2^(k+1)], for [0 < q]. *)
Definition binade (q : Q) : Z :=
  if Qle_bool 1 q then Z.log2 (Qfloor q)
  else - Z.log2_up (Qceiling (/ q)).

(** The number in double precision that is nearest to [q] (ties to
    even): 53 significant bits, the last of them worth at least
    [2^-1074].  Magnitudes from [2^1024] on, which become [Infinity],
    do not occur here. *)
Definition to_double (q : Q) : Q :=
  if Qeq_bool q 0 then 0%Q
  else
    let last_bit := (2 ^ Z.max (binade (Qabs q) - 52) (-1074))%Q in
    (inject_Z (nearest_even (q / last_bit)) * last_bit)%Q.

(** [words[Math.floor(r * words.length)]], as interpolated in a template
    literal: an index outside the array prints as [undefined].  A draw
    is the value of the double [Math.random()] returned, and the product
    of two doubles is the double nearest to the product of their
    values. *)
Definition pick (words : list string) (r : Q) : string :=
  match Qfloor (to_double (r * inject_Z (Z.of_nat (List.length words)))) with
  | Z.neg _ => "undefined"
  | i => nth (Z.to_nat i) words "undefined"
  end.

Definition generateRandomUsername : M string :=
  r1 <- Math_random ;;
  r2 <- Math_random ;;
  ret (pick adjectives r1 ++ pick nouns r2)%string.

(** The argument of [handleAccountCreation]. *)
Record AccountData : Type := mkAccount {
  account_id : string;
  account_email : option string;
  account_full_name : option string
}.

(** [{ full_name: ..., ...(userData.email ? { email } : {}) }] spread
    over a profile. *)
Definition merge_account (userData : AccountData) (prev : User.t) : User.t :=
  User.mk (User.id prev)
          (or_else (account_full_name userData)
             (or_else (option_map (before "@") (account_email userData))
                      (Some "EcoUser")))
          (User.preferences prev)
          (if truthy (account_email userData) then account_email userData
           else User.email prev).

Definition handleAccountCreation (userData : AccountData) : M unit :=
  current <- gets user ;;
  match current with
  | None => ret tt
  | Some u =>
      (* Check if this was previously an anonymous user *)
      wasAnonymous <-
        (if negb (truthy (User.email u)) then
           fresh <- generateRandomUsername ;;
           ret (match User.full_name u with
                | Some name => str_eq name fresh
                | None => false
                end)
         else ret false) ;;
      if wasAnonymous : bool then
        error <- user_profiles_update (account_id userData)
                   (merge_account userData) ;;
        match error with
        | None => setUser (option_map (merge_account userData))
        | Some _ => ret tt
        end
      else ret tt
  end.

Definition createPost (title content : string) (image_url : option string)
  (flag : option PostFlag) (repost_of : option string) : M Post.t :=
  setIsLoading true ;;
  u <- requireUser ;;
  now <- gets clock ;;
  result <- posts_insert
              (fun id => Post.mk id title content image_url now 0
                           (User.id u) (User.full_name u) flag repost_of) ;;
  setIsLoading false ;;
  match result with
  | inr message =>
      toast destructive "Error creating post" message ;;
      throw (PostgrestError message)
  | inl data =>
      toast default "Post created"
            "Your post has been published successfully." ;;
      ret data
  end.

(** The values of [update({ title, content, image_url, flag })]: a key
    whose value is [undefined] is not sent and its column is kept. *)
Definition edit_post (title content : string) (image_url : option string)
  (flag : option PostFlag) (row : Post.t) : Post.t :=
  Post.mk (Post.id row) title content
          (match image_url with
           | Some _ => image_url
           | None => Post.image_url row
           end)
          (Post.created_at row) (Post.upvotes row) (Post.user_id row)
          (Post.user_name row)
          (match flag with
           | Some _ => flag
           | None => Post.flag row
           end)
          (Post.repost_of row).

(** [!data || data.user_id !== user.id]. *)
Definition not_owner (owner : option string) (u : User.t) : bool :=
  match owner with
  | None => true
  | Some user_id => negb (str_eq user_id (User.id u))
  end.

Definition updatePost (post_id title content : string)
  (image_url : option string) (flag : option PostFlag) : M bool :=
  setIsLoading true ;;
  u <- requireUser ;;
  (* First verify post belongs to user *)
  postData <- posts_select_single post_id ;;
  if not_owner (option_map Post.user_id postData) u then
    setIsLoading false ;;
    toast destructive "Access denied" "You can only edit your own posts." ;;
    ret false
  else
    error <- posts_update post_id (edit_post title content image_url flag) ;;
    setIsLoading false ;;
    match error with
    | Some message =>
        toast destructive "Error updating post" message ;;
        ret false
    | None =>
        toast default "Post updated" "Your changes have been saved." ;;
        ret true
    end.

Definition deletePost (post_id : string) : M bool :=
  setIsLoading true ;;
  u <- requireUser ;;
  (* First verify post belongs to user *)
  postData <- posts_select_single post_id ;;
  if not_owner (option_map Post.user_id postData) u then
    setIsLoading false ;;
    toast destructive "Access denied" "You can only delete your own posts." ;;
    ret false
  else
    (* Delete associated comments first; the result is not inspected *)
    comments_delete Comment.post_id post_id ;;
    (* Then delete the post *)
    error <- posts_delete post_id ;;
    setIsLoading false ;;
    match error with
    | Some message =>
        toast destructive "Error deleting post" message ;;
        ret false
    | None =>
        toast default "Post deleted" "Your post has been removed." ;;
        ret true
    end.

(** [{ ...post, upvotes: n }]. *)
Definition with_upvotes (n : Z) (post : Post.t) : Post.t :=
  Post.mk (Post.id post) (Post.title post) (Post.content post)
          (Post.image_url post) (Post.created_at post) n (Post.user_id post)
          (Post.user_name post) (Post.flag post) (Post.repost_of post).

Definition upvotePost (post_id : string) : M unit :=
  requireUser ;;
  (* First get current upvotes *)
  data <- posts_select_single post_id ;;
  match option_map Post.upvotes data with
  | None =>
      toast destructive "Post not found"
            "The post you're trying to upvote doesn't exist."
  | Some upvotes =>
      (* Then update with incremented value *)
      posts_update post_id (with_upvotes (upvotes + 1)) ;;
      (* Update local state for immediate UI feedback *)
      setPosts
        (map (fun post =>
                if str_eq (Post.id post) post_id
                then with_upvotes (Post.upvotes post + 1) post
                else post))
  end.

(** An [async] function gives way at each [await], and the post card
    starts [upvotePost] without awaiting it: a call can begin, or go on,
    while another one waits for the store.  The two stretches of
    [upvotePost] between which others can run: the call until the store
    has answered the lookup, with [data.upvotes] as its result, and the
    call from that answer to its end. *)
Definition upvotePost_begin (post_id : string) : M (option Z) :=
  requireUser ;;
  (* First get current upvotes *)
  data <- posts_select_single post_id ;;
  ret (option_map Post.upvotes data).

Definition upvotePost_resume (post_id : string) (data : option Z) : M unit :=
  match data with
  | None =>
      toast destructive "Post not found"
            "The post you're trying to upvote doesn't exist."
  | Some upvotes =>
      (* Then update with incremented value *)
      posts_update post_id (with_upvotes (upvotes + 1)) ;;
      (* Update local state for immediate UI feedback *)
      setPosts
        (map (fun post =>
                if str_eq (Post.id post) post_id
                then with_upvotes (Post.upvotes post + 1) post
                else post))
  end.

Definition createComment (post_id content : string) : M Comment.t :=
  setIsLoading true ;;
  u <- requireUser ;;
  now <- gets clock ;;
  result <- comments_insert
              (fun id => Comment.mk id post_id content now (User.id u)
                                    (User.full_name u)) ;;
  setIsLoading false ;;
  match result with
  | inr message =>
      toast destructive "Error creating comment" message ;;
      throw (PostgrestError message)
  | inl data => ret data
  end.

Definition deleteComment (commentId : string) : M bool :=
  setIsLoading true ;;
  u <- requireUser ;;
  (* First verify comment belongs to user *)
  commentData <- comments_select_single commentId ;;
  if not_owner (option_map Comment.user_id commentData) u then
    setIsLoading false ;;
    toast destructive "Access denied"
          "You can only delete your own comments." ;;
    ret false
  else
    error <- comments_delete Comment.id commentId ;;
    setIsLoading false ;;
    match error with
    | Some message =>
        toast destructive "Error deleting comment" message ;;
        ret false
    | None =>
        toast default "Comment deleted" "Your comment has been removed." ;;
        ret true
    end.

(** [{ ...user.preferences, ...preferences }]. *)
Definition merge_preferences (old : UserPreferences)
  (preferences : PartialPreferences) : UserPreferences :=
  mkPrefs
    (match p_showImagesInFeed preferences with
     | Some b => b
     | None => showImagesInFeed old
     end)
    (match p_showContentInFeed preferences with
     | Some b => b
     | None => showContentInFeed old
     end)
    (match p_colorScheme preferences with
     | Some c => c
     | None => colorScheme old
     end).

(** [{ ...prev, preferences }]. *)
Definition with_preferences (p : UserPreferences) (prev : User.t) : User.t :=
  User.mk (User.id prev) (User.full_name prev) p (User.email prev).

Definition setUserPreferences (preferences : PartialPreferences) : M unit :=
  u <- requireUser ;;
  let updatedPreferences := merge_preferences (User.preferences u) preferences in
  error <- user_profiles_update (User.id u)
             (with_preferences updatedPreferences) ;;
  match error with
  | Some message => toast destructive "Error updating preferences" message
  | None => setUser (option_map (with_preferences updatedPreferences))
  end.

Definition toggleColorMode : M unit :=
  u <- requireUser ;;
  let currentMode := colorScheme (User.preferences u) in
  let newMode :=
    match currentMode with
    | light => dark
    | dark => system
    | system => light
    end in
  setUserPreferences (mkPartial None None (Some newMode)).

(** [try { body } catch (error) { handler }]. *)
Definition try_catch {A} (body : M A) (handler : Error -> M A) : M A :=
  fun w =>
    match body w with
    | (Returned a, w') => (Returned a, w')
    | (Thrown e, w') => handler e w'
    end.

(** *** Text search *)

Definition to_lower (c : ascii) : ascii :=
  let n := nat_of_ascii c in
  if (Nat.leb 65 n && Nat.leb n 90)%bool then ascii_of_nat (n + 32) else c.

Fixpoint lowercase (s : string) : string :=
  match s with
  | EmptyString => EmptyString
  | String c rest => String (to_lower c) (lowercase rest)
  end.

Fixpoint includes (needle hay : string) : bool :=
  if String.prefix needle hay then true
  else match hay with
       | EmptyString => false
       | String _ rest => includes needle rest
       end.

(** Modelled from the spec: the store's answer to the filter
    [column.ilike.%query%] is not part of the repository; the
    specification describes it as a case-insensitive substring match.
    Letters are compared after lower-casing the one-byte letters. *)
Definition ilike_contains (query text : string) : bool :=
  includes (lowercase query) (lowercase text).

(** The rows selected by
    [.or(`title.ilike.%${query}%,content.ilike.%${query}%`)]. *)
Definition search_hit (query : string) (row : Post.t) : bool :=
  ilike_contains query (Post.title row)
  || ilike_contains query (Post.content row).

Definition searchPosts (query : string) : M (list Post.t) :=
  if is_empty (trim query) then gets posts
  else
    error <- request ;;
    rows <- gets (fun w => Remote.posts (remote w)) ;;
    match error with
    | Some message =>
        toast destructive "Error searching posts" message ;;
        ret []
    | None => ret (filter (search_hit query) rows)
    end.

(** ** The feed page *)

Inductive SortBy : Type := by_time | by_upvotes.   (* "time" | "upvotes" *)

(** The comparator handed to [result.sort]. *)
Definition compare_posts (sortBy : SortBy) (a b : Post.t) : Z :=
  match sortBy with
  | by_time => Post.created_at b - Post.created_at a
  | by_upvotes => or_zero (Post.upvotes b) - or_zero (Post.upvotes a)
  end.

(** [post.flag === selectedFlag]. *)
Definition flag_is (selectedFlag : PostFlag) (post : Post.t) : bool :=
  match Post.flag post with
  | Some f => PostFlag_eqb f selectedFlag
  | None => false
  end.

Module HomePage.
Record state : Type := mk {
  searchQuery : string;
  sortBy : SortBy;
  filteredPosts : list Post.t;
  selectedFlag : option PostFlag;
  localLoading : bool
}.

Definition set_view (view : list Post.t) (loading : bool) (h : state) : state :=
  mk (searchQuery h) (sortBy h) view (selectedFlag h) loading.

(** [result] is the very array held in the [posts] cell when the search
    handed it back (blank query) and no flag filter copied it; sorting
    it in place then reorders the cell as well. *)
Definition shares_posts_cell (h : state) : bool :=
  (0 <? Z.of_nat (String.length (searchQuery h)))
  && is_empty (trim (searchQuery h))
  && match selectedFlag h with Some _ => false | None => true end.

Definition applyFilters (h : state) : M state :=
  try_catch
    (mirror <- gets posts ;;
     result <- (if 0 <? Z.of_nat (String.length (searchQuery h))
                then searchPosts (searchQuery h)
                else ret mirror) ;;
     let result :=
       match selectedFlag h with
       | Some f => filter (flag_is f) result
       | None => result
       end in
     let result := sort (compare_posts (sortBy h)) result in
     (if shares_posts_cell h then setPosts (fun _ => result) else ret tt) ;;
     ret (set_view result false h))
    (fun _ => ret (set_view (filteredPosts h) false h)).
End HomePage.

(** ** The post form *)

Inductive Navigation : Type :=
| to_path (path : string)   (* [navigate(path)] *)
| back.                     (* [navigate(-1)] *)

Module PostForm.
Record state : Type := mk {
  title : string;
  content : string;
  imageUrl : string;
  flag : option PostFlag;
  isSubmitting : bool;
  validationError : option string;
  navigated : list Navigation
}.

Definition finish (error : option string) (nav : list Navigation) (f : state)
  : state :=
  mk (title f) (content f) (imageUrl f) (flag f) false error
     (navigated f ++ nav).

Definition handleSubmit
  (onSubmit : string -> string -> option string -> option PostFlag ->
              option string -> M (Post.t + bool))
  (repostOf : option string) (f : state) : M state :=
  (* Basic validation *)
  if is_empty (trim (title f)) then
    ret (mk (title f) (content f) (imageUrl f) (flag f) (isSubmitting f)
            (Some "Title is required") (navigated f))
  else
    try_catch
      (result <- onSubmit (title f) (content f) (Some (imageUrl f)) (flag f)
                          repostOf ;;
       match result with
       | inl post =>
           ret (finish None [to_path ("/post/" ++ Post.id post)%string] f)
       | inr true => ret (finish None [back] f)
       | inr false => ret (finish None [] f)
       end)
      (fun _ =>
         ret (finish (Some "An error occurred while submitting your post")
                     [] f)).
End PostForm.

(** ** Reads and start-up of [AppProvider] *)

(** [.order(column, { ascending })]: the rows by the value of a column.
    The source does not fix the order of rows with equal values; the
    embedding leaves them in table order. *)
Definition order_by {A} (key : A -> Z) (ascending : bool) (rows : list A)
  : list A :=
  sort (fun a b => if ascending then key a - key b else key b - key a) rows.

Definition fetchPosts : M unit :=
  error <- request ;;
  rows <- gets (fun w => Remote.posts (remote w)) ;;
  match error with
  | Some message => toast destructive "Error fetching posts" message
  | None => setPosts (fun _ => order_by Post.created_at false rows)
  end.

Definition fetchComments : M unit :=
  error <- request ;;
  rows <- gets (fun w => Remote.comments (remote w)) ;;
  match error with
  | Some message => toast destructive "Error fetching comments" message
  | None => setComments (fun _ => order_by Comment.created_at true rows)
  end.

(** [if (error) return undefined; return data]: with [.single()] the
    request has an error exactly when it has no data. *)
Definition getPostById (postId : string) : M (option Post.t) :=
  data <- posts_select_single postId ;;
  ret data.

Definition getCommentsForPost (postId : string) : M (list Comment.t) :=
  error <- request ;;
  rows <- gets (fun w => Remote.comments (remote w)) ;;
  match error with
  | Some _ => ret []
  | None =>
      ret (order_by Comment.created_at true
             (filter (fun row => str_eq (Comment.post_id row) postId) rows))
  end.

Definition sortedPosts (by_ : SortBy) : M (list Post.t) :=
  error <- request ;;
  rows <- gets (fun w => Remote.posts (remote w)) ;;
  match error with
  | Some message =>
      toast destructive "Error sorting posts" message ;;
      ret []
  | None =>
      ret (match by_ with
           | by_time => order_by Post.created_at false rows
           | by_upvotes => order_by Post.upvotes false rows
           end)
  end.

Definition filterPostsByFlag (flag : option PostFlag) : M (list Post.t) :=
  match flag with
  | None => gets posts
  | Some f =>
      error <- request ;;
      rows <- gets (fun w => Remote.posts (remote w)) ;;
      match error with
      | Some message =>
          toast destructive "Error filtering posts" message ;;
          ret []
      | None => ret (filter (flag_is f) rows)
      end
  end.

(** [from("user_profiles").select("*").eq("id", x).single()]. *)
Definition user_profiles_select_single (x : string) : M (option User.t) :=
  error <- request ;;
  rows <- gets (fun w => Remote.user_profiles (remote w)) ;;
  match error with
  | Some _ => ret None
  | None => ret (single (filter (fun row => str_eq (User.id row) x) rows))
  end.

(** [from("user_profiles").insert(row)]: the row comes with its id. *)
Definition user_profiles_insert (row : User.t) : M (option string) :=
  error <- request ;;
  r <- gets remote ;;
  match error with
  | Some message => ret (Some message)
  | None =>
      commit (set_remote_profiles (Remote.user_profiles r ++ [row]) r) [] ;;
      ret None
  end.

(** [session.user] of the auth client: its id, its email and
    [user_metadata.full_name]. *)
Module Session.
Record user : Type := mk {
  id : string;
  email : option string;
  full_name : option string
}.
End Session.

(** [initializeApp], run once at start-up.  [session] is the answer of
    [supabase.auth.getSession()], [storage] the value local storage
    holds under ["artemis-eco-user-id"] and [uuid] what [uuidv4()] gives
    if it is called; the result is the value local storage holds under
    that key afterwards. *)
Definition initializeApp (session : option Session.user)
  (storage : option string) (uuid : string) : M (option string) :=
  setIsLoading true ;;
  storage' <-
    match session with
    | Some su =>
        (* User is authenticated *)
        userData <- user_profiles_select_single (Session.id su) ;;
        match userData with
        | None =>
            let newUser :=
              User.mk (Session.id su)
                      (or_else (Session.full_name su)
                         (or_else (option_map (before "@") (Session.email su))
                                  (Some "EcoUser")))
                      (mkPrefs true false system) None in
            user_profiles_insert newUser ;;
            setUser (fun _ => Some newUser)
        | Some found => setUser (fun _ => Some found)
        end ;;
        ret storage
    | None =>
        (* Anonymous user with local ID *)
        let localUserId :=
          match storage with
          | Some stored => if truthy storage then stored else uuid
          | None => uuid
          end in
        anonUser <- user_profiles_select_single localUserId ;;
        match anonUser with
        | None =>
            name <- generateRandomUsername ;;
            let newAnonUser :=
              User.mk localUserId (Some name) (mkPrefs true false system)
                      None in
            user_profiles_insert newAnonUser ;;
            setUser (fun _ => Some newAnonUser)
        | Some found => setUser (fun _ => Some found)
        end ;;
        ret (Some localUserId)
    end ;;
  (* Fetch initial posts and comments *)
  fetchPosts ;;
  fetchComments ;;
  setIsLoading false ;;
  ret storage'.

(** ** Handlers of the pages *)


(** The remaining handlers of the feed page. *)
Module Feed.
(** [comments.filter((c) => c.post_id === postId).length]. *)
Definition getCommentCountForPost (comments : list Comment.t)
  (postId : string) : nat :=
  List.length (filter (fun c => str_eq (Comment.post_id c) postId) comments).

Definition handleSearch (h : HomePage.state) : M HomePage.state :=
  try_catch
    (results <- searchPosts (HomePage.searchQuery h) ;;
     ret (HomePage.set_view results false h))
    (fun _ => ret (HomePage.set_view (HomePage.filteredPosts h) false h)).

Definition resetFilters (h : HomePage.state) : M HomePage.state :=
  (* Reset to default sorting when clearing filters *)
  try_catch
    (defaultSorted <- sortedPosts by_time ;;
     ret (HomePage.mk "" by_time defaultSorted None false))
    (fun _ => ret (HomePage.mk "" by_time (HomePage.filteredPosts h) None false)).

Definition handlePreferenceChange (preferences : PartialPreferences) : M unit :=
  try_catch (setUserPreferences preferences) (fun _ => ret tt).
End Feed.

(** [CommentSection]: the comment box under a post. *)
Module CommentSection.
Record state : Type := mk {
  content : string;
  isSubmitting : bool;
  isDeleting : option string
}.

Definition handleSubmit (postId : string) (s : state) : M state :=
  if is_empty (trim (content s)) then ret s
  else
    try_catch
      (createComment postId (content s) ;;
       ret (mk "" false (isDeleting s)))
      (fun _ => ret (mk (content s) false (isDeleting s))).

Definition handleDelete (commentId : string) (s : state) : M state :=
  try_catch
    (deleteComment commentId ;;
     ret (mk (content s) (isSubmitting s) None))
    (fun _ => ret (mk (content s) (isSubmitting s) None)).
End CommentSection.

(** [PostPage]: the page of one post. *)
(** What a page hands to [navigate]: [navigate(to)], or
    [navigate(path, { replace: true })]. *)
Inductive Navigate : Type :=
| navigate (to : Navigation)
| navigate_replace (path : string).

Module PostPage.
Record state : Type := mk {
  post : option Post.t;
  comments : list Comment.t;
  originalPost : option Post.t;
  localLoading : bool;
  isDeleting : bool;
  navigated : list Navigate
}.

Definition fetchData (postId : option string) (s : state) : M state :=
  match postId with
  | Some id =>
      if is_empty id then
        ret (mk (post s) (comments s) (originalPost s) (localLoading s)
                (isDeleting s) (navigated s ++ [navigate (to_path "/404")]))
      else
        try_catch
          ((* Fetch the post data *)
           postData <- getPostById id ;;
           match postData with
           | None =>
               ret (mk (post s) (comments s) (originalPost s) false
                       (isDeleting s) (navigated s ++ [navigate (to_path "/404")]))
           | Some found =>
               (* Fetch comments for the post *)
               commentsData <- getCommentsForPost id ;;
               (* If this is a repost, fetch the original post *)
               match Post.repost_of found with
               | Some original =>
                   if truthy (Post.repost_of found) then
                     originalPostData <- getPostById original ;;
                     ret (mk (Some found) commentsData originalPostData false
                             (isDeleting s) (navigated s))
                   else
                     ret (mk (Some found) commentsData (originalPost s) false
                             (isDeleting s) (navigated s))
               | None =>
                   ret (mk (Some found) commentsData (originalPost s) false
                           (isDeleting s) (navigated s))
               end
           end)
          (fun _ =>
             ret (mk (post s) (comments s) (originalPost s) false
                     (isDeleting s) (navigated s)))
  | None =>
      ret (mk (post s) (comments s) (originalPost s) (localLoading s)
              (isDeleting s) (navigated s ++ [navigate (to_path "/404")]))
  end.

(** The handlers below belong to the rendering of a loaded post; without
    one there is no button to call them. *)
Definition handleUpvote (s : state) : M state :=
  match post s with
  | None => ret s
  | Some shown =>
      try_catch
        (upvotePost (Post.id shown) ;;
         (* Update local state for immediate feedback *)
         ret (mk (Some (with_upvotes (Post.upvotes shown + 1) shown))
                 (comments s) (originalPost s) (localLoading s)
                 (isDeleting s) (navigated s)))
        (fun _ => ret s)
  end.

Definition handleDelete (s : state) : M state :=
  match post s with
  | None => ret s
  | Some shown =>
      try_catch
        (success <- deletePost (Post.id shown) ;;
         ret (mk (post s) (comments s) (originalPost s) (localLoading s) false
                 (if success : bool then navigated s ++ [navigate (to_path "/")]
                  else navigated s)))
        (fun _ =>
           ret (mk (post s) (comments s) (originalPost s) (localLoading s)
                   false (navigated s)))
  end.
End PostPage.

(** [CreatePostPage]: the page around the form that creates a post. *)
Module CreatePostPage.
Record state : Type := mk {
  repostId : option string;
  originalPost : option Post.t;
  localLoading : bool;
  navigated : list Navigate
}.

(** The effect that reads the [repost] query parameter. *)
Definition fetchRepostInfo (repost : option string) (s : state) : M state :=
  match repost with
  | Some id =>
      if truthy repost then
        try_catch
          ((* Fetch the original post *)
           found <- getPostById id ;;
           match found with
           | None =>
               (* If repost ID is invalid, redirect to regular create *)
               ret (mk (Some id) (originalPost s) false
                       (navigated s ++ [navigate_replace "/create"]))
           | Some original =>
               ret (mk (Some id) (Some original) false (navigated s))
           end)
          (fun _ =>
             toast destructive "Error"
               "Failed to load the original post. Creating a new post instead." ;;
             ret (mk (Some id) (originalPost s) false
                     (navigated s ++ [navigate_replace "/create"])))
      else ret s
  | None => ret s
  end.

Definition handleSubmit (title content : string) (imageUrl : option string)
  (flag : option PostFlag) (s : state) : M (bool * state) :=
  try_catch
    (newPost <- createPost title content imageUrl flag (repostId s) ;;
     ret (true,
          mk (repostId s) (originalPost s) false
             (navigated s ++ [navigate (to_path ("/post/" ++ Post.id newPost)%string)])))
    (fun _ =>
       toast destructive "Error"
             "Failed to create the post. Please try again." ;;
       ret (false, mk (repostId s) (originalPost s) false (navigated s))).
End CreatePostPage.

(** [EditPostPage]: the page around the form that edits a post. *)
Module EditPostPage.
Record state : Type := mk {
  post : option Post.t;
  localLoading : bool;
  navigated : list Navigate
}.

Definition fetchPost (postId : option string) (s : state) : M state :=
  match postId with
  | Some id =>
      if is_empty id then
        ret (mk (post s) (localLoading s) (navigated s ++ [navigate (to_path "/404")]))
      else
        try_catch
          (fetchedPost <- getPostById id ;;
           u <- gets user ;;
           match fetchedPost with
           | None => ret (mk (post s) false (navigated s ++ [navigate (to_path "/404")]))
           | Some fetched =>
               (* Check if current user is the post author *)
               if match u with
                  | Some u' => str_eq (Post.user_id fetched) (User.id u')
                  | None => false
                  end
               then ret (mk (Some fetched) false (navigated s))
               else
                 toast destructive "Access denied"
                       "You can only edit your own posts." ;;
                 ret (mk (post s) false
                         (navigated s
                          ++ [navigate_replace ("/post/" ++ id)%string]))
           end)
          (fun _ =>
             toast destructive "Error"
                   "Failed to load the post. Please try again." ;;
             ret (mk (post s) false (navigated s)))
  | None =>
      ret (mk (post s) (localLoading s) (navigated s ++ [navigate (to_path "/404")]))
  end.

Definition handleSubmit (postId : option string) (title content : string)
  (imageUrl : option string) (flag : option PostFlag) (s : state)
  : M (bool * state) :=
  match postId with
  | Some id =>
      if is_empty id then ret (false, s)
      else
        try_catch
          (success <- updatePost id title content imageUrl flag ;;
           ret (success,
                mk (post s) false
                   (if success : bool
                    then navigated s ++ [navigate (to_path ("/post/" ++ id)%string)]
                    else navigated s)))
          (fun _ =>
             toast destructive "Error"
                   "Failed to update the post. Please try again." ;;
             ret (false, mk (post s) false (navigated s)))
  | None => ret (false, s)
  end.
End EditPostPage.

(** * Notions used in the statements *)

(** ** Runs *)

(** The state an operation ends in, whether it returned or threw. *)
Definition after {A} (m : M A) (w : World) : World := snd (m w).

(** The state after one round trip that changed no table. *)
Definition consume (w : World) : World := set_outages (tl (outages w)) w.

(** The next [n] requests do not error. *)
Definition calm (n : nat) (w : World) : Prop :=
  forall k, (k < n)%nat -> nth k (outages w) None = None.

(** The state in which [updatePost], [deletePost] and [deleteComment]
    leave through their access-denied branch: one request was made, the
    loading flag is down and one destructive toast was added. *)
Definition deny (reason : string) (w : World) : World :=
  set_toasts (toasts w ++ [mkToast destructive "Access denied" reason])
             (set_isLoading false (consume (set_isLoading true w))).

(** What a refused operation must not touch: the stored tables, the
    pending change events, the mirrored collections and the identity. *)
Definition untouched (w w' : World) : Prop :=
  remote w' = remote w /\ feed w' = feed w /\ posts w' = posts w /\
  comments w' = comments w /\ user w' = user w.

Definition scheme_of (w : World) : option ColorScheme :=
  option_map (fun u => colorScheme (User.preferences u)) (user w).

(** The list the feed page shows after [applyFilters]. *)
Definition view_of (h : HomePage.state) (w : World) : list Post.t :=
  match fst (HomePage.applyFilters h w) with
  | Returned h' => HomePage.filteredPosts h'
  | Thrown _ => HomePage.filteredPosts h
  end.

(** The row the store keeps for a post created at state [w] by [u]. *)
Definition created_post (w : World) (u : User.t) (title content : string)
  (image_url : option string) (flag : option PostFlag)
  (repost_of : option string) : Post.t :=
  Post.mk (server_id (Remote.serial (remote w))) title content image_url
          (clock w) 0 (User.id u) (User.full_name u) flag repost_of.

(** ** Collections *)

(** The entries of a post collection for one id, and their number. *)
Definition entries (post_id : string) (l : list Post.t) : list Post.t :=
  filter (fun post => str_eq (Post.id post) post_id) l.

Definition occurrences (x : string) (l : list Post.t) : nat :=
  List.length (entries x l).

(** An entry with its count raised by [n]. *)
Definition raised (n : Z) (post : Post.t) : Post.t :=
  with_upvotes (Post.upvotes post + n) post.

(** The comments attached to a post. *)
Definition comments_on (post_id : string) (l : list Comment.t) : list Comment.t :=
  filter (fun c => str_eq (Comment.post_id c) post_id) l.

(** Orders on a list, by an integer key. *)
Section Keys.
Context {A : Type} (key : A -> Z).

(** No element is followed, anywhere later, by one with a larger key. *)
Definition descending (l : list A) : Prop :=
  StronglySorted (fun a b => key b <= key a) l.

(** The elements with a given key, in the order in which they occur. *)
Definition with_key (k : Z) (l : list A) : list A :=
  filter (fun a => key a =? k) l.
End Keys.

(** ** Ownership *)

(** Some stored post with this id belongs to somebody else. *)
Definition post_of_other (u : User.t) (post_id : string) (r : Remote.t) : Prop :=
  exists p, In p (Remote.posts r) /\ Post.id p = post_id
            /\ Post.user_id p <> User.id u.

Definition comment_of_other (u : User.t) (commentId : string) (r : Remote.t)
  : Prop :=
  exists c, In c (Remote.comments r) /\ Comment.id c = commentId
            /\ Comment.user_id c <> User.id u.

(** No stored row carries this id. *)
Definition no_post (post_id : string) (r : Remote.t) : Prop :=
  forall p, In p (Remote.posts r) -> Post.id p <> post_id.

Definition no_comment (commentId : string) (r : Remote.t) : Prop :=
  forall c, In c (Remote.comments r) -> Comment.id c <> commentId.

(** The store holds exactly one post with this id and [u] owns it. *)
Definition owns (u : User.t) (post_id : string) (r : Remote.t) : Prop :=
  exists row,
    single (filter (fun p => str_eq (Post.id p) post_id) (Remote.posts r))
    = Some row /\
    Post.user_id row = User.id u.

(** ** Schedules of upvotes and notifications *)

(** What happens to one post over time: calls of [upvotePost] on it, each
    in its two stretches, and change notifications that the Collection
    Store takes in.  Calls are told apart by a number. *)
Inductive Event : Type :=
| Begins (call : nat)    (* the call starts; the store answers its lookup *)
| Resumes (call : nat)   (* the call goes on from the answer to its end *)
| Arrives (c : Change).  (* a change notification is taken in *)

(** The calls that wait to go on, each with what its lookup returned. *)
Definition Waiting : Type := list (nat * option Z).

Definition is_call (call : nat) (entry : nat * option Z) : bool :=
  Nat.eqb (fst entry) call.

Definition play (post_id : string) (e : Event) (st : World * Waiting)
  : World * Waiting :=
  match e with
  | Begins call =>
      match upvotePost_begin post_id (fst st) with
      | (Returned data, w') => (w', snd st ++ [(call, data)])
      | (Thrown _, w') => (w', snd st)
      end
  | Resumes call =>
      match find (is_call call) (snd st) with
      | Some (_, data) =>
          (after (upvotePost_resume post_id data) (fst st),
           filter (fun entry => negb (is_call call entry)) (snd st))
      | None => st
      end
  | Arrives c => (absorb c (fst st), snd st)
  end.

Definition replay (post_id : string) (events : list Event)
  (st : World * Waiting) : World * Waiting :=
  fold_left (fun st' e => play post_id e st') events st.

(** The state a schedule leaves when it starts with no call waiting. *)
Definition state_after (post_id : string) (events : list Event) (w : World)
  : World :=
  fst (replay post_id events (w, [])).

(** The number of calls that ran to their end. *)
Definition finished (events : list Event) : Z :=
  Z.of_nat (List.length
              (filter (fun e => match e with Resumes _ => true | _ => false end)
                      events)).

(** A notification that concerns another entity than the post. *)
Definition elsewhere (post_id : string) (c : Change) : Prop :=
  match c with
  | PostsChange (INSERT new) | PostsChange (UPDATE new) =>
      Post.id new <> post_id
  | PostsChange (DELETE old_id) => old_id <> post_id
  | CommentsChange _ => True
  end.

(** An upvote call succeeds: somebody is signed in, the store finds the
    post and accepts both requests. *)
Definition upvote_succeeds (post_id : string) (w : World) : Prop :=
  (exists u, user w = Some u) /\ calm 2 w /\
  exists row,
    single (filter (fun r => str_eq (Post.id r) post_id)
                   (Remote.posts (remote w))) = Some row.

(** A count that a [number] holds exactly and that [+ 1] raises
    exactly. *)
Definition countable (n : Z) : Prop := - 2 ^ 53 <= n < 2 ^ 53.

(** The calls run in turn and each has its way: a call begins only when
    none waits, with somebody signed in, and the store, that accepts the
    lookup, finds the post; the call that goes on is the one that waits,
    and the store accepts its update; every notification concerns
    another entity; and the counts met are within the exact range. *)
Fixpoint in_turn (post_id : string) (events : list Event)
  (st : World * Waiting) : Prop :=
  match events with
  | [] => True
  | e :: rest =>
      match e with
      | Begins _ =>
          snd st = [] /\
          (exists u, user (fst st) = Some u) /\ calm 1 (fst st) /\
          exists row,
            single (entries post_id (Remote.posts (remote (fst st))))
            = Some row /\ countable (Post.upvotes row)
      | Resumes call =>
          (exists data, snd st = [(call, data)]) /\ calm 1 (fst st) /\
          Forall (fun p => countable (Post.upvotes p))
                 (entries post_id (posts (fst st)))
      | Arrives c => elsewhere post_id c
      end /\ in_turn post_id rest (play post_id e st)
  end.

(** ** Counts that are never lowered *)

(** [evolves old new]: the entries of [new] stem, one for one and in the
    same order, from entries of [old], each with the id it had and a
    count that is not lower; the other entries of [old] are gone. *)
Inductive evolves : list Post.t -> list Post.t -> Prop :=
| evolves_nil : evolves [] []
| evolves_kept (p p' : Post.t) (old new : list Post.t) :
    Post.id p' = Post.id p -> Post.upvotes p <= Post.upvotes p' ->
    evolves old new -> evolves (p :: old) (p' :: new)
| evolves_gone (p : Post.t) (old new : list Post.t) :
    evolves old new -> evolves (p :: old) new.

(** Both the stored posts and the mirrored posts evolve: nothing is added
    and no count is lowered. *)
Definition grows (w w' : World) : Prop :=
  evolves (Remote.posts (remote w)) (Remote.posts (remote w')) /\
  evolves (posts w) (posts w').

(** An operation that lowers no count, from whatever state it starts and
    whatever its outcome. *)
Definition keeps {A} (m : M A) : Prop := forall w, grows w (after m w).

(** The operations of the Mutation Gateway. *)
Inductive Operation : Type :=
| CreatePost (title content : string) (image_url : option string)
             (flag : option PostFlag) (repost_of : option string)
| UpdatePost (post_id title content : string) (image_url : option string)
             (flag : option PostFlag)
| DeletePost (post_id : string)
| UpvotePost (post_id : string)
| CreateComment (post_id content : string)
| DeleteComment (commentId : string).

(** The state an operation leaves, whether it returned or threw. *)
Definition perform (op : Operation) (w : World) : World :=
  match op with
  | CreatePost title content image_url flag repost_of =>
      after (createPost title content image_url flag repost_of) w
  | UpdatePost post_id title content image_url flag =>
      after (updatePost post_id title content image_url flag) w
  | DeletePost post_id => after (deletePost post_id) w
  | UpvotePost post_id => after (upvotePost post_id) w
  | CreateComment post_id content => after (createComment post_id content) w
  | DeleteComment commentId => after (deleteComment commentId) w
  end.

(** How an operation may change the stored posts: [createPost] leaves
    the rows as they are and adds rows that have no upvotes; under every
    other operation the rows evolve. *)
Definition stored_after (op : Operation) (old new : list Post.t) : Prop :=
  match op with
  | CreatePost _ _ _ _ _ =>
      exists created,
        new = old ++ created /\
        Forall (fun p => Post.upvotes p = 0) created
  | _ => evolves old new
  end.

(** ** Sample states *)

(** A small forum: two identities, one post of each, two comments on the
    first post; a session of the first identity whose mirror is up to
    date, and a session with nobody signed in. *)
Definition alice : User.t :=
  User.mk "alice" (Some "Alice") (mkPrefs true false system) (Some "a@b.com").

Definition post_of (id owner : string) (created upvotes : Z) : Post.t :=
  Post.mk id "Hello" "World" None created upvotes owner None (Some News) None.

Definition comment_of (id post_id owner : string) : Comment.t :=
  Comment.mk id post_id "Nice" 5 owner None.

Definition forum : Remote.t :=
  Remote.mk [post_of "p1" "alice" 1 0; post_of "p2" "bob" 2 7]
            [comment_of "c1" "p1" "alice"; comment_of "c2" "p1" "bob"]
            [alice] 4.

Definition session : World :=
  mkWorld forum [] [] 10 []
          [post_of "p2" "bob" 2 7; post_of "p1" "alice" 1 0]
          [comment_of "c1" "p1" "alice"; comment_of "c2" "p1" "bob"]
          (Some alice) false [].

Definition signed_out : World :=
  mkWorld forum [] [] 10 [] [] [] None false [].


Definition hello_query : HomePage.state :=
  HomePage.mk "hELLo" by_upvotes [] (Some News) false.

(** Three upvotes of the post ["p2"], one after the other, between and
    during notifications for other entities. *)
Definition busy_schedule : list Event :=
  [Begins 1;
   Arrives (PostsChange (INSERT (post_of "p3" "alice" 3 0)));
   Resumes 1;
   Arrives (PostsChange (UPDATE (post_of "p1" "alice" 1 1)));
   Begins 2;
   Resumes 2;
   Arrives (CommentsChange (DELETE "c1"));
   Arrives (PostsChange (DELETE "p1"));
   Begins 3;
   Resumes 3].

(** Two upvotes of ["p2"] that overlap: the second call begins while
    the first waits; and three upvotes of which the first goes on last. *)
Definition overlapping : list Event :=
  [Begins 1; Begins 2; Resumes 1; Resumes 2].

Definition overtaken : list Event :=
  [Begins 1; Begins 2; Resumes 2; Begins 3; Resumes 3].

(** The counts of a post's row in the store and of its entries in the
    mirror. *)
Definition stored_counts (post_id : string) (w : World) : list Z :=
  map Post.upvotes (entries post_id (Remote.posts (remote w))).

Definition mirrored_counts (post_id : string) (w : World) : list Z :=
  map Post.upvotes (entries post_id (posts w)).

(** An anonymous identity with a generated name, its session with the
    coming results of [Math.random()], and the account it signs in
    with. *)
Definition green_guardian : User.t :=
  User.mk "anon-1" (Some "GreenGuardian") (mkPrefs true false system) None.

Definition anonymous_session (draws : list Q) : World :=
  mkWorld (Remote.mk [] [] [green_guardian] 0) [] [] 10 draws [] []
          (Some green_guardian) false [].

Definition alex : AccountData :=
  mkAccount "auth-1" (Some "a@b.com") (Some "Alex").

(** The name made from the draws [i/10] and [j/10]. *)
Definition name_of_draws (i j : Z) : string :=
  (pick adjectives (i # 10) ++ pick nouns (j # 10))%string.

(** ** Notions for the further properties *)

(** The store holds exactly one comment with this id and [u] owns it. *)
Definition owns_comment (u : User.t) (commentId : string) (r : Remote.t)
  : Prop :=
  exists row,
    single (filter (fun c => str_eq (Comment.id c) commentId)
                   (Remote.comments r)) = Some row /\
    Comment.user_id row = User.id u.

(** The fields of a post that an edit must leave alone. *)
Definition same_origin (p p' : Post.t) : Prop :=
  Post.id p' = Post.id p /\ Post.created_at p' = Post.created_at p /\
  Post.upvotes p' = Post.upvotes p /\ Post.user_id p' = Post.user_id p /\
  Post.user_name p' = Post.user_name p /\ Post.repost_of p' = Post.repost_of p.

(** A session of the sample forum whose coming requests have the given
    outcomes. *)
Definition session_with (schedule : list (option string)) : World :=
  set_outages schedule session.

(** The outcome of the [k]-th coming request, counted from 0: its error,
    if it has one. *)
Definition outcome (k : nat) (w : World) : option string :=
  nth k (outages w) None.

(** The row the store keeps for a comment created at state [w] by [u]. *)
Definition created_comment (w : World) (u : User.t) (post_id content : string)
  : Comment.t :=
  Comment.mk (server_id (Remote.serial (remote w))) post_id content (clock w)
             (User.id u) (User.full_name u).

(** The column a sort mode orders by. *)
Definition sort_key (sortBy : SortBy) : Post.t -> Z :=
  match sortBy with
  | by_time => Post.created_at
  | by_upvotes => Post.upvotes
  end.

(** The state of the feed page after a handler. *)
Definition page_after (handler : HomePage.state -> M HomePage.state)
  (h : HomePage.state) (w : World) : HomePage.state :=
  match fst (handler h w) with
  | Returned h' => h'
  | Thrown _ => h
  end.

(** A feed page with nothing typed or selected, and one that asks for
    the flag Tip, most upvoted first. *)
Definition fresh_page : HomePage.state := HomePage.mk "" by_time [] None false.

Definition tips_page : HomePage.state :=
  HomePage.mk "" by_upvotes [] (Some Tip) false.

(** A blank query with no flag selected, most upvoted first, and a
    mirror that lists the less upvoted post first. *)
Definition spaces_page : HomePage.state :=
  HomePage.mk "  " by_upvotes [] None false.

Definition unsorted_session : World :=
  set_posts [post_of "p1" "alice" 1 0; post_of "p2" "bob" 2 7] session.

(** No element is followed, anywhere later, by one with a smaller key. *)
Definition ascending {A} (key : A -> Z) (l : list A) : Prop :=
  StronglySorted (fun a b => key a <= key b) l.

(** A text made of white space only (the empty text included): a
    sequence of code points of [white_space]. *)
Inductive blank : string -> Prop :=
| blank_empty : blank ""
| blank_space (space rest : string) :
    In space white_space -> blank rest -> blank (space ++ rest).

(** A form with a title, and a comment box with a text. *)
Definition form_titled (title : string) : PostForm.state :=
  PostForm.mk title "World" "" (Some News) false None [].

Definition box_with (content : string) : CommentSection.state :=
  CommentSection.mk content false None.

(** The state of the post page after a handler. *)
Definition post_page_after (handler : PostPage.state -> M PostPage.state)
  (s : PostPage.state) (w : World) : PostPage.state :=
  match fst (handler s w) with
  | Returned s' => s'
  | Thrown _ => s
  end.

(** A post page that has loaded nothing yet, and one that shows a
    post. *)
Definition empty_post_page : PostPage.state :=
  PostPage.mk None [] None true false [].

Definition page_showing (post : Post.t) : PostPage.state :=
  PostPage.mk (Some post) [] None false false [].

(** A forum in which the second post reposts the first and a third
    post reposts the second. *)
Definition repost_of_post (id original : string) (created : Z) : Post.t :=
  Post.mk id "Again" "" None created 0 "bob" None None (Some original).

Definition repost_forum : Remote.t :=
  Remote.mk [post_of "p1" "alice" 1 0; repost_of_post "p2" "p1" 2;
             repost_of_post "p3" "p2" 3]
            [comment_of "c2" "p1" "bob"; comment_of "c1" "p1" "alice"]
            [alice] 5.

Definition repost_session : World :=
  mkWorld repost_forum [] [] 10 [] [] [] (Some alice) false [].

(** The state of the edit page and of the create page after a handler. *)
Definition edit_page_after (handler : EditPostPage.state -> M EditPostPage.state)
  (s : EditPostPage.state) (w : World) : EditPostPage.state :=
  match fst (handler s w) with
  | Returned s' => s'
  | Thrown _ => s
  end.

Definition create_page_after
  (handler : CreatePostPage.state -> M CreatePostPage.state)
  (s : CreatePostPage.state) (w : World) : CreatePostPage.state :=
  match fst (handler s w) with
  | Returned s' => s'
  | Thrown _ => s
  end.

Definition empty_edit_page : EditPostPage.state :=
  EditPostPage.mk None true [].

Definition empty_create_page : CreatePostPage.state :=
  CreatePostPage.mk None None false [].

(** No stored profile carries this id. *)
Definition no_profile (id : string) (r : Remote.t) : Prop :=
  forall row, In row (Remote.user_profiles r) -> User.id row <> id.

(** The id the anonymous start-up resolves: the stored one unless it is
    missing or empty. *)
Definition kept_or_new (storage : option string) (uuid : string) : string :=
  match storage with
  | Some stored => if str_eq stored "" then uuid else stored
  | None => uuid
  end.

(** The name [generateRandomUsername] would draw in a state. *)
Definition drawn_name (w : World) : string :=
  match fst (generateRandomUsername w) with
  | Returned name => name
  | Thrown _ => ""
  end.

(** A store without profiles, before the first start-up. *)
Definition first_visit : World :=
  mkWorld (Remote.mk [post_of "p1" "alice" 1 0] [] [] 1) [] [] 10
          [3 # 10; 9 # 10] [] [] None false [].

(** The largest double below 1, [1 - 2^-53]; the double nearest to 0.7,
    whose product with 10 is half-way between two doubles and is rounded
    up to 7; and a state whose next draws are these two. *)
Definition max_random : Q := 9007199254740991 # 9007199254740992.

Definition double_0_7 : Q := 6305039478318694 # 9007199254740992.

Definition edge_draws : World :=
  mkWorld (Remote.mk [] [] [] 1) [] [] 10 [double_0_7; max_random] [] []
          None false [].


(** * Properties *)

(** ** Strings and small helpers *)

Lemma str_eq_refl (a : string) : str_eq a a = true.
Proof. apply String.eqb_refl. Qed.

Lemma str_eq_true (a b : string) : str_eq a b = true <-> a = b.
Proof. apply String.eqb_eq. Qed.

Lemma str_eq_false (a b : string) : str_eq a b = false <-> a <> b.
Proof. apply String.eqb_neq. Qed.

Lemma or_zero_id (n : Z) : or_zero n = n.
Proof. unfold or_zero. destruct (Z.eqb_spec n 0); congruence. Qed.

Lemma occurrences_In (x : string) (l : list Post.t) :
  In x (map Post.id l) <-> (0 < occurrences x l)%nat.
Proof.
  unfold occurrences, entries. induction l as [|p l IH]; simpl.
  - split; [tauto | lia].
  - destruct (str_eq (Post.id p) x) eqn:E; simpl.
    + apply str_eq_true in E. split; [lia | auto].
    + apply str_eq_false in E. rewrite <- IH. split; [intros [H|H] | ]; tauto.
Qed.

(** ** C1: the change handlers and duplicate ids *)

Lemma map_id_update (new : Post.t) (prev : list Post.t) :
  map Post.id (onPostsChange (UPDATE new) prev) = map Post.id prev.
Proof.
  simpl. induction prev as [|p l IH]; simpl; [reflexivity|].
  rewrite IH. destruct (str_eq (Post.id p) (Post.id new)) eqn:E; [|reflexivity].
  apply str_eq_true in E. now rewrite E.
Qed.

Lemma NoDup_map_filter {A B} (f : A -> B) (keep : A -> bool) (l : list A) :
  NoDup (map f l) -> NoDup (map f (filter keep l)).
Proof.
  induction l as [|a l IH]; simpl; intros ND; [constructor|].
  inversion ND as [|? ? Hnot ND']; subst.
  destruct (keep a); simpl; [constructor|]; auto.
  intros Hin. apply Hnot. apply in_map_iff in Hin as [b [Hb Hin]].
  apply filter_In in Hin as [Hin _]. apply in_map_iff. eauto.
Qed.

(** The update and delete handlers keep a collection free of duplicate
    ids, and so does the insertion of an id that is not yet present. *)
Lemma handlers_keep_ids_unique (prev : list Post.t) :
  NoDup (map Post.id prev) ->
  (forall new, NoDup (map Post.id (onPostsChange (UPDATE new) prev))) /\
  (forall old_id, NoDup (map Post.id (onPostsChange (DELETE old_id) prev))) /\
  (forall new, ~ In (Post.id new) (map Post.id prev) ->
               NoDup (map Post.id (onPostsChange (INSERT new) prev))).
Proof.
  intros ND. repeat split.
  - intros new. now rewrite map_id_update.
  - intros old_id. simpl. now apply NoDup_map_filter.
  - intros new Hfresh. simpl. now constructor.
Qed.

(** Applying the same update or the same deletion twice is the same as
    applying it once. *)
Lemma update_delete_idempotent (prev : list Post.t) :
  (forall new, onPostsChange (UPDATE new) (onPostsChange (UPDATE new) prev)
               = onPostsChange (UPDATE new) prev) /\
  (forall old_id,
      onPostsChange (DELETE old_id) (onPostsChange (DELETE old_id) prev)
      = onPostsChange (DELETE old_id) prev).
Proof.
  split.
  - intros new. simpl. rewrite map_map. apply map_ext. intros p.
    destruct (str_eq (Post.id p) (Post.id new)) eqn:E.
    + now rewrite str_eq_refl.
    + now rewrite E.
  - intros old_id. simpl. induction prev as [|p l IH]; simpl; [reflexivity|].
    destruct (str_eq (Post.id p) old_id) eqn:E; simpl; [exact IH|].
    rewrite E. simpl. now rewrite IH.
Qed.

(** C1, as stated, fails: a collection holding one post with id ["p1"]
    has unique ids, the payload's id occurs in it, and after the insert
    handler the collection holds two posts with that id; the result also
    differs from what the update handler would give. *)
Lemma C1_insert_duplicates_counterexample :
  let prev := [post_of "p1" "alice" 1 0] in
  let new := post_of "p1" "alice" 1 3 in
  In (Post.id new) (map Post.id prev) /\
  NoDup (map Post.id prev) /\
  ~ NoDup (map Post.id (onPostsChange (INSERT new) prev)) /\
  onPostsChange (INSERT new) prev <> onPostsChange (UPDATE new) prev.
Proof.
  simpl. repeat split.
  - now left.
  - constructor; [intros [] | constructor].
  - intros ND. inversion ND as [|? ? Hnot _]. apply Hnot. now left.
  - discriminate.
Qed.

(** C1 (amended): the insert handler prepends the payload whatever the
    collection holds; when the payload's id already occurs in the
    collection, the result holds that id once more than before, so it
    contains two posts with the same id. *)
Theorem C1_insert_prepends (prev : list Post.t) (new : Post.t) :
  In (Post.id new) (map Post.id prev) ->
  onPostsChange (INSERT new) prev = new :: prev /\
  occurrences (Post.id new) (onPostsChange (INSERT new) prev)
  = S (occurrences (Post.id new) prev) /\
  (2 <= occurrences (Post.id new) (onPostsChange (INSERT new) prev))%nat /\
  ~ NoDup (map Post.id (onPostsChange (INSERT new) prev)).
Proof.
  intros Hin.
  assert (occurrences (Post.id new) (onPostsChange (INSERT new) prev)
          = S (occurrences (Post.id new) prev)) as Hcount.
  { unfold occurrences, entries. simpl. now rewrite str_eq_refl. }
  split; [reflexivity|]. split; [exact Hcount|]. split.
  - rewrite Hcount. apply occurrences_In in Hin. lia.
  - simpl. intros ND. inversion ND as [|? ? Hnot _]. now apply Hnot.
Qed.

Lemma C1_insert_prepends_witness :
  let prev := [post_of "p1" "alice" 1 0] in
  let new := post_of "p1" "alice" 1 3 in
  In (Post.id new) (map Post.id prev) /\
  onPostsChange (INSERT new) prev = new :: prev /\
  occurrences (Post.id new) (onPostsChange (INSERT new) prev)
  = S (occurrences (Post.id new) prev) /\
  (2 <= occurrences (Post.id new) (onPostsChange (INSERT new) prev))%nat /\
  ~ NoDup (map Post.id (onPostsChange (INSERT new) prev)).
Proof.
  split; [simpl; now left|].
  apply (C1_insert_prepends [post_of "p1" "alice" 1 0] (post_of "p1" "alice" 1 3)).
  simpl. now left.
Defined.

(** ** Running requests *)

Lemma request_run (w : World) :
  request w = (Returned (hd None (outages w)), consume w).
Proof. destruct w as [r o f c e p cs u l t]. destruct o; reflexivity. Qed.

Lemma posts_select_single_run (x : string) (w : World) :
  posts_select_single x w
  = (Returned
       (match hd None (outages w) with
        | Some _ => None
        | None => single (filter (fun row => str_eq (Post.id row) x)
                                 (Remote.posts (remote w)))
        end),
     consume w).
Proof.
  unfold posts_select_single, bind, gets. rewrite request_run.
  destruct (hd None (outages w)); reflexivity.
Qed.

Lemma comments_select_single_run (x : string) (w : World) :
  comments_select_single x w
  = (Returned
       (match hd None (outages w) with
        | Some _ => None
        | None => single (filter (fun row => str_eq (Comment.id row) x)
                                 (Remote.comments (remote w)))
        end),
     consume w).
Proof.
  unfold comments_select_single, bind, gets. rewrite request_run.
  destruct (hd None (outages w)); reflexivity.
Qed.

Lemma single_Some {A} (rows : list A) (row : A) :
  single rows = Some row -> rows = [row].
Proof. destruct rows as [|a [|b rest]]; simpl; congruence. Qed.

(** A row that is selected alone is the row every match must be. *)
Lemma single_filter_unique {A} (hit : A -> bool) (rows : list A) (row a : A) :
  single (filter hit rows) = Some row -> In a rows -> hit a = true -> a = row.
Proof.
  intros Hs Hin Hhit. apply single_Some in Hs.
  assert (In a (filter hit rows)) as H by (apply filter_In; auto).
  rewrite Hs in H. destruct H as [H|[]]. now symmetry.
Qed.

Lemma filter_none {A} (hit : A -> bool) (rows : list A) :
  (forall a, In a rows -> hit a = false) -> filter hit rows = [].
Proof.
  induction rows as [|a l IH]; simpl; intros H; [reflexivity|].
  rewrite (H a) by auto. apply IH. auto.
Qed.

(** Unfolds the plumbing of an operation down to pairs of an outcome and
    a state. *)
Ltac async_unfold :=
  unfold requireUser, setIsLoading, setPosts, setComments, setUser, toast,
    commit;
  unfold bind, modify, gets, ret, throw.

(** Reads fields through the setters. *)
Ltac world_simpl :=
  cbn [remote outages feed clock entropy posts comments user isLoading toasts
       set_remote set_outages set_feed set_entropy set_posts set_comments
       set_user set_isLoading set_toasts consume fst snd].

(** ** C4 and C10: the access-denied branch *)

Lemma deny_keeps (reason : string) (w : World) :
  remote (deny reason w) = remote w /\
  feed (deny reason w) = feed w /\
  posts (deny reason w) = posts w /\
  comments (deny reason w) = comments w /\
  user (deny reason w) = user w.
Proof. repeat split. Qed.

Lemma post_of_other_not_owner (u : User.t) (post_id : string) (w : World) :
  post_of_other u post_id (remote w) ->
  not_owner
    (option_map Post.user_id
       (match hd None (outages w) with
        | Some _ => None
        | None => single (filter (fun row => str_eq (Post.id row) post_id)
                                 (Remote.posts (remote w)))
        end)) u = true.
Proof.
  intros (p & Hin & Hid & Hown).
  destruct (hd None (outages w)); [reflexivity|].
  destruct (single _) as [row|] eqn:Hs; [|reflexivity].
  simpl. apply negb_true_iff, str_eq_false.
  assert (p = row) as <-; [|exact Hown].
  eapply single_filter_unique; eauto. now apply str_eq_true.
Qed.

Lemma comment_of_other_not_owner (u : User.t) (commentId : string) (w : World) :
  comment_of_other u commentId (remote w) ->
  not_owner
    (option_map Comment.user_id
       (match hd None (outages w) with
        | Some _ => None
        | None => single (filter (fun row => str_eq (Comment.id row) commentId)
                                 (Remote.comments (remote w)))
        end)) u = true.
Proof.
  intros (c & Hin & Hid & Hown).
  destruct (hd None (outages w)); [reflexivity|].
  destruct (single _) as [row|] eqn:Hs; [|reflexivity].
  simpl. apply negb_true_iff, str_eq_false.
  assert (c = row) as <-; [|exact Hown].
  eapply single_filter_unique; eauto. now apply str_eq_true.
Qed.

(** The three guarded operations leave through the access-denied branch
    as soon as the ownership test fails. *)
Lemma updatePost_denied (w : World) (u : User.t)
  (post_id title content : string) image_url flag :
  user w = Some u ->
  not_owner
    (option_map Post.user_id
       (match hd None (outages w) with
        | Some _ => None
        | None => single (filter (fun row => str_eq (Post.id row) post_id)
                                 (Remote.posts (remote w)))
        end)) u = true ->
  updatePost post_id title content image_url flag w
  = (Returned false, deny "You can only edit your own posts." w).
Proof.
  intros Hu Hdeny. unfold updatePost. async_unfold.
  simpl. rewrite Hu, posts_select_single_run. simpl.
  rewrite Hdeny. reflexivity.
Qed.

Lemma deletePost_denied (w : World) (u : User.t) (post_id : string) :
  user w = Some u ->
  not_owner
    (option_map Post.user_id
       (match hd None (outages w) with
        | Some _ => None
        | None => single (filter (fun row => str_eq (Post.id row) post_id)
                                 (Remote.posts (remote w)))
        end)) u = true ->
  deletePost post_id w
  = (Returned false, deny "You can only delete your own posts." w).
Proof.
  intros Hu Hdeny. unfold deletePost. async_unfold.
  simpl. rewrite Hu, posts_select_single_run. simpl.
  rewrite Hdeny. reflexivity.
Qed.

Lemma deleteComment_denied (w : World) (u : User.t) (commentId : string) :
  user w = Some u ->
  not_owner
    (option_map Comment.user_id
       (match hd None (outages w) with
        | Some _ => None
        | None => single (filter (fun row => str_eq (Comment.id row) commentId)
                                 (Remote.comments (remote w)))
        end)) u = true ->
  deleteComment commentId w
  = (Returned false, deny "You can only delete your own comments." w).
Proof.
  intros Hu Hdeny. unfold deleteComment. async_unfold.
  simpl. rewrite Hu, comments_select_single_run. simpl.
  rewrite Hdeny. reflexivity.
Qed.

(** C4: with an active identity [u], [updatePost] and [deletePost] on a
    stored post of another owner and [deleteComment] on a stored comment
    of another owner return [false] through the access-denied branch,
    which leaves the tables (hence the entity), the pending events, the
    mirrored post and comment collections and the identity as they
    were. *)
Theorem C4_ownership_enforced (w : World) (u : User.t) :
  user w = Some u ->
  (forall post_id title content image_url flag,
      post_of_other u post_id (remote w) ->
      updatePost post_id title content image_url flag w
      = (Returned false, deny "You can only edit your own posts." w)) /\
  (forall post_id,
      post_of_other u post_id (remote w) ->
      deletePost post_id w
      = (Returned false, deny "You can only delete your own posts." w)) /\
  (forall commentId,
      comment_of_other u commentId (remote w) ->
      deleteComment commentId w
      = (Returned false, deny "You can only delete your own comments." w)) /\
  (forall reason, untouched w (deny reason w)).
Proof.
  intros Hu. repeat split.
  - intros. apply updatePost_denied with (u := u); auto.
    now apply post_of_other_not_owner.
  - intros. apply deletePost_denied with (u := u); auto.
    now apply post_of_other_not_owner.
  - intros. apply deleteComment_denied with (u := u); auto.
    now apply comment_of_other_not_owner.
Qed.

Lemma C4_ownership_enforced_witness :
  user session = Some alice /\
  post_of_other alice "p2" (remote session) /\
  comment_of_other alice "c2" (remote session) /\
  updatePost "p2" "Mine" "now" None None session
  = (Returned false, deny "You can only edit your own posts." session) /\
  deletePost "p2" session
  = (Returned false, deny "You can only delete your own posts." session) /\
  deleteComment "c2" session
  = (Returned false, deny "You can only delete your own comments." session) /\
  untouched session (deny "You can only edit your own posts." session).
Proof.
  assert (post_of_other alice "p2" (remote session)) as Hp.
  { exists (post_of "p2" "bob" 2 7). simpl. repeat split; auto. discriminate. }
  assert (comment_of_other alice "c2" (remote session)) as Hc.
  { exists (comment_of "c2" "p1" "bob"). simpl. repeat split; auto.
    discriminate. }
  destruct (C4_ownership_enforced session alice eq_refl) as (Hup & Hdel & Hcom & Hkeep).
  split; [reflexivity|]. split; [exact Hp|]. split; [exact Hc|].
  split; [now apply Hup|]. split; [now apply Hdel|].
  split; [now apply Hcom|]. apply Hkeep.
Defined.

(** ** C10: ids that refer to no stored entity *)

Lemma no_post_not_owner (u : User.t) (post_id : string) (w : World) :
  no_post post_id (remote w) ->
  not_owner
    (option_map Post.user_id
       (match hd None (outages w) with
        | Some _ => None
        | None => single (filter (fun row => str_eq (Post.id row) post_id)
                                 (Remote.posts (remote w)))
        end)) u = true.
Proof.
  intros Hno. destruct (hd None (outages w)); [reflexivity|].
  rewrite filter_none; [reflexivity|].
  intros p Hin. apply str_eq_false. now apply Hno.
Qed.

Lemma no_comment_not_owner (u : User.t) (commentId : string) (w : World) :
  no_comment commentId (remote w) ->
  not_owner
    (option_map Comment.user_id
       (match hd None (outages w) with
        | Some _ => None
        | None => single (filter (fun row => str_eq (Comment.id row) commentId)
                                 (Remote.comments (remote w)))
        end)) u = true.
Proof.
  intros Hno. destruct (hd None (outages w)); [reflexivity|].
  rewrite filter_none; [reflexivity|].
  intros c Hin. apply str_eq_false. now apply Hno.
Qed.

(** C10: with an active identity, [updatePost], [deletePost] and
    [deleteComment] on an id that no stored row carries return [false]
    and end in the very state of the access-denied branch (same toast as
    for an ownership mismatch, no outcome of their own), with tables and
    mirrored collections as they were. *)
Theorem C10_missing_entity_denied (w : World) (u : User.t) :
  user w = Some u ->
  (forall post_id title content image_url flag,
      no_post post_id (remote w) ->
      updatePost post_id title content image_url flag w
      = (Returned false, deny "You can only edit your own posts." w)) /\
  (forall post_id,
      no_post post_id (remote w) ->
      deletePost post_id w
      = (Returned false, deny "You can only delete your own posts." w)) /\
  (forall commentId,
      no_comment commentId (remote w) ->
      deleteComment commentId w
      = (Returned false, deny "You can only delete your own comments." w)) /\
  (forall reason, untouched w (deny reason w)).
Proof.
  intros Hu. repeat split.
  - intros. apply updatePost_denied with (u := u); auto.
    now apply no_post_not_owner.
  - intros. apply deletePost_denied with (u := u); auto.
    now apply no_post_not_owner.
  - intros. apply deleteComment_denied with (u := u); auto.
    now apply no_comment_not_owner.
Qed.

Lemma C10_missing_entity_denied_witness :
  user session = Some alice /\
  no_post "p9" (remote session) /\
  no_comment "c9" (remote session) /\
  updatePost "p9" "Mine" "now" None None session
  = (Returned false, deny "You can only edit your own posts." session) /\
  deletePost "p9" session
  = (Returned false, deny "You can only delete your own posts." session) /\
  deleteComment "c9" session
  = (Returned false, deny "You can only delete your own comments." session) /\
  untouched session (deny "You can only edit your own posts." session).
Proof.
  assert (no_post "p9" (remote session)) as Hp.
  { intros p [<-|[<-|[]]]; discriminate. }
  assert (no_comment "c9" (remote session)) as Hc.
  { intros c [<-|[<-|[]]]; discriminate. }
  destruct (C10_missing_entity_denied session alice eq_refl)
    as (Hup & Hdel & Hcom & Hkeep).
  split; [reflexivity|]. split; [exact Hp|]. split; [exact Hc|].
  split; [now apply Hup|]. split; [now apply Hdel|].
  split; [now apply Hcom|]. apply Hkeep.
Defined.

(** ** C9: the colour scheme cycle *)

Lemma calm_head (n : nat) (w : World) :
  calm (S n) w -> hd None (outages w) = None.
Proof.
  intros H. specialize (H 0%nat (Nat.lt_0_succ n)).
  destruct (outages w); [reflexivity | exact H].
Qed.

Lemma calm_tail (n : nat) (w w' : World) :
  calm (S n) w -> outages w' = tl (outages w) -> calm n w'.
Proof.
  intros H Ho k Hk. rewrite Ho. specialize (H (S k) (proj1 (Nat.succ_lt_mono k n) Hk)).
  destruct (outages w); [destruct k; reflexivity | exact H].
Qed.

Lemma user_profiles_update_run (x : string) (values : User.t -> User.t)
  (w : World) :
  hd None (outages w) = None ->
  user_profiles_update x values w
  = (Returned None,
     set_feed (feed w ++ [])
       (set_remote
          (set_remote_profiles
             (map (fun row => if str_eq (User.id row) x then values row else row)
                  (Remote.user_profiles (remote w)))
             (remote w))
          (consume w))).
Proof.
  intros Hcalm. unfold user_profiles_update. async_unfold.
  rewrite request_run, Hcalm. reflexivity.
Qed.

Lemma toggleColorMode_run (w : World) (u : User.t) :
  user w = Some u -> calm 1 w ->
  exists w',
    toggleColorMode w = (Returned tt, w') /\
    outages w' = tl (outages w) /\
    posts w' = posts w /\ comments w' = comments w /\
    user w' = Some (User.mk (User.id u) (User.full_name u)
                      (mkPrefs (showImagesInFeed (User.preferences u))
                               (showContentInFeed (User.preferences u))
                               (match colorScheme (User.preferences u) with
                                | light => dark
                                | dark => system
                                | system => light
                                end))
                      (User.email u)).
Proof.
  intros Hu Hcalm. apply calm_head in Hcalm.
  eexists. split.
  - unfold toggleColorMode, setUserPreferences. async_unfold.
    cbv beta. rewrite Hu. cbv beta iota. rewrite Hu. cbv beta iota.
    rewrite user_profiles_update_run by exact Hcalm. reflexivity.
  - simpl. rewrite Hu. repeat split.
Qed.

(** C9: while the preference update is accepted by the store,
    [toggleColorMode] takes the active identity's colour scheme from
    light to dark, from dark to system and from system to light, and
    three toggles in a row give back the identity it started from. *)
Theorem C9_toggle_cycles (w : World) (u : User.t) :
  user w = Some u -> calm 3 w ->
  (colorScheme (User.preferences u) = light ->
   scheme_of (after toggleColorMode w) = Some dark) /\
  (colorScheme (User.preferences u) = dark ->
   scheme_of (after toggleColorMode w) = Some system) /\
  (colorScheme (User.preferences u) = system ->
   scheme_of (after toggleColorMode w) = Some light) /\
  user (after toggleColorMode
          (after toggleColorMode (after toggleColorMode w))) = Some u.
Proof.
  intros Hu Hcalm.
  assert (calm 1 w) as H1 by (intros k Hk; apply Hcalm; lia).
  destruct (toggleColorMode_run w u Hu H1) as (w1 & R1 & O1 & _ & _ & U1).
  assert (calm 2 w1) as C1 by (eapply calm_tail; eauto).
  assert (calm 1 w1) as H2 by (intros k Hk; apply C1; lia).
  destruct (toggleColorMode_run w1 _ U1 H2) as (w2 & R2 & O2 & _ & _ & U2).
  assert (calm 1 w2) as H3 by (eapply calm_tail; eauto).
  destruct (toggleColorMode_run w2 _ U2 H3) as (w3 & R3 & _ & _ & _ & U3).
  unfold after, scheme_of. rewrite R1. simpl. rewrite R2. simpl. rewrite R3.
  simpl. rewrite U1, U3. simpl.
  destruct u as [i n [img txt c] e]. simpl.
  repeat split; try (intros ->; reflexivity).
  destruct c; reflexivity.
Qed.

Lemma C9_toggle_cycles_witness :
  user session = Some alice /\ calm 3 session /\
  scheme_of (after toggleColorMode session) = Some light /\
  user (after toggleColorMode
          (after toggleColorMode (after toggleColorMode session)))
  = Some alice.
Proof.
  assert (calm 3 session) as Hcalm by (intros [|[|[|k]]] _; reflexivity).
  destruct (C9_toggle_cycles session alice eq_refl Hcalm) as (_ & _ & Hs & H3).
  split; [reflexivity|]. split; [exact Hcalm|]. split; [now apply Hs | exact H3].
Defined.

(** ** C6: sorting the feed

    Both comparators of the feed are of the form [key b - key a]; the
    facts about [sort] are proved once for such comparators. *)

Section SortByKey.
Context {A : Type} (key : A -> Z) (compare : A -> A -> Z).
Hypothesis compare_key : forall a b, compare a b = key b - key a.

Lemma sort_insert_perm (x : A) (l : list A) :
  Permutation (sort_insert compare x l) (x :: l).
Proof.
  induction l as [|y l IH]; simpl; [reflexivity|].
  destruct (0 <? compare x y); [|reflexivity].
  rewrite IH. apply perm_swap.
Qed.

Lemma sort_perm (l : list A) : Permutation (sort compare l) l.
Proof.
  induction l as [|x l IH]; simpl; [reflexivity|].
  unfold sort in IH. rewrite sort_insert_perm. now constructor.
Qed.

Lemma sort_insert_descending (x : A) (l : list A) :
  descending key l -> descending key (sort_insert compare x l).
Proof.
  unfold descending. induction l as [|y l IH]; simpl; intros Hs.
  - repeat constructor.
  - inversion Hs as [|? ? Hl Hy]; subst.
    destruct (Z.ltb_spec 0 (compare x y)) as [Hlt|Hge];
      rewrite compare_key in *.
    + constructor; [now apply IH|].
      eapply Permutation_Forall; [symmetry; apply sort_insert_perm|].
      constructor; [lia | exact Hy].
    + constructor; [exact Hs|].
      constructor; [lia|].
      eapply Forall_impl; [|exact Hy]. simpl. intros; lia.
Qed.

Lemma sort_descending (l : list A) : descending key (sort compare l).
Proof.
  induction l as [|x l IH]; simpl; [constructor|].
  now apply sort_insert_descending.
Qed.

Lemma sort_insert_stable (k : Z) (x : A) (l : list A) :
  with_key key k (sort_insert compare x l) = with_key key k (x :: l).
Proof.
  unfold with_key. induction l as [|y l IH]; [reflexivity|].
  simpl sort_insert.
  destruct (Z.ltb_spec 0 (compare x y)) as [Hlt|Hge]; [|reflexivity].
  rewrite compare_key in Hlt. simpl in *. rewrite IH.
  destruct (Z.eqb_spec (key x) k), (Z.eqb_spec (key y) k);
    try reflexivity; lia.
Qed.

Lemma sort_stable (k : Z) (l : list A) :
  with_key key k (sort compare l) = with_key key k l.
Proof.
  induction l as [|x l IH]; [reflexivity|].
  simpl sort. rewrite sort_insert_stable.
  unfold with_key in *. simpl. now rewrite IH.
Qed.
End SortByKey.

Lemma compare_by_upvotes (a b : Post.t) :
  compare_posts by_upvotes a b = Post.upvotes b - Post.upvotes a.
Proof. simpl. now rewrite !or_zero_id. Qed.

Lemma compare_by_time (a b : Post.t) :
  compare_posts by_time a b = Post.created_at b - Post.created_at a.
Proof. reflexivity. Qed.

(** C6, as stated, fails: two posts with five upvotes each are not in
    strictly decreasing order after the sort (nor in any order). *)
Lemma C6_strictly_decreasing_counterexample :
  ~ StronglySorted (fun a b => Post.upvotes b < Post.upvotes a)
      (sort (compare_posts by_upvotes)
            [post_of "p1" "alice" 1 5; post_of "p2" "bob" 2 5]).
Proof.
  simpl. intros Hs. inversion Hs as [|? ? _ Hall]; subst.
  inversion Hall as [|? ? Hlt _]; subst. simpl in Hlt. lia.
Qed.

(** C6 (amended): the upvote sort returns the posts it was given, in an
    order in which the upvote count never increases from an entry to any
    later one, and posts with equal upvote counts keep the relative order
    they had in the input. *)
Theorem C6_upvote_sort_stable (l : list Post.t) :
  Permutation (sort (compare_posts by_upvotes) l) l /\
  descending Post.upvotes (sort (compare_posts by_upvotes) l) /\
  forall n, with_key Post.upvotes n (sort (compare_posts by_upvotes) l)
            = with_key Post.upvotes n l.
Proof.
  split; [apply sort_perm|]. split.
  - apply sort_descending. apply compare_by_upvotes.
  - intros n. apply sort_stable. apply compare_by_upvotes.
Qed.

(** The same holds for the sort by recency, on creation times. *)
Lemma time_sort_stable (l : list Post.t) :
  Permutation (sort (compare_posts by_time) l) l /\
  descending Post.created_at (sort (compare_posts by_time) l) /\
  forall n, with_key Post.created_at n (sort (compare_posts by_time) l)
            = with_key Post.created_at n l.
Proof.
  split; [apply sort_perm|]. split.
  - apply sort_descending. apply compare_by_time.
  - intros n. apply sort_stable. apply compare_by_time.
Qed.

(** ** C7: search and flag filter *)

Lemma PostFlag_eqb_eq (a b : PostFlag) : PostFlag_eqb a b = true <-> a = b.
Proof. destruct a, b; simpl; split; congruence. Qed.

Lemma flag_is_true (f : PostFlag) (post : Post.t) :
  flag_is f post = true <-> Post.flag post = Some f.
Proof.
  unfold flag_is. destruct (Post.flag post) as [g|].
  - rewrite PostFlag_eqb_eq. split; congruence.
  - split; discriminate.
Qed.

Lemma not_blank_length (q : string) :
  is_empty (trim q) = false -> (0 <? Z.of_nat (String.length q)) = true.
Proof.
  destruct q; simpl; [discriminate|]. intros _. apply Z.ltb_lt. lia.
Qed.

Lemma searchPosts_blank (q : string) (w : World) :
  is_empty (trim q) = true -> searchPosts q w = (Returned (posts w), w).
Proof. intros H. unfold searchPosts. now rewrite H. Qed.



(** A blank query without a flag makes the page sort the array of the
    [posts] cell itself: the mirror ends up in the order of the view. *)
Lemma applyFilters_sorts_shared_cell (h : HomePage.state) (w : World) :
  HomePage.shares_posts_cell h = true ->
  posts (after (HomePage.applyFilters h) w)
  = sort (compare_posts (HomePage.sortBy h)) (posts w) /\
  view_of h w = sort (compare_posts (HomePage.sortBy h)) (posts w).
Proof.
  intros Hshare. unfold view_of, after, HomePage.applyFilters, try_catch.
  rewrite Hshare. unfold HomePage.shares_posts_cell in Hshare.
  apply andb_true_iff in Hshare as [Hshare Hflag].
  apply andb_true_iff in Hshare as [Hlen Hblank].
  destruct (HomePage.selectedFlag h); [discriminate|].
  rewrite Hlen. async_unfold. cbv beta.
  rewrite (searchPosts_blank _ _ Hblank). split; reflexivity.
Qed.

Lemma In_sort_posts (sortBy : SortBy) (l : list Post.t) (p : Post.t) :
  In p (sort (compare_posts sortBy) l) <-> In p l.
Proof.
  split; apply Permutation_in;
    [apply sort_perm | symmetry; apply sort_perm].
Qed.




(** ** C8: creating a post *)

Lemma createPost_run (w : World) (u : User.t) (title content : string)
  image_url flag repost_of :
  user w = Some u -> hd None (outages w) = None ->
  let post := created_post w u title content image_url flag repost_of in
  exists w',
    createPost title content image_url flag repost_of w = (Returned post, w') /\
    Remote.posts (remote w') = Remote.posts (remote w) ++ [post] /\
    Remote.comments (remote w') = Remote.comments (remote w) /\
    feed w' = feed w ++ [PostsChange (INSERT post)] /\
    posts w' = posts w /\ comments w' = comments w /\ user w' = user w.
Proof.
  intros Hu Hcalm post. eexists. split.
  - unfold createPost, posts_insert. async_unfold. cbv beta.
    world_simpl. rewrite Hu. cbv beta iota.
    rewrite request_run. world_simpl. rewrite Hcalm. reflexivity.
  - simpl. repeat split; auto.
Qed.

Lemma createPost_unauthenticated (w : World) (title content : string)
  image_url flag repost_of :
  user w = None ->
  createPost title content image_url flag repost_of w
  = (Thrown (JsError "User not authenticated"), set_isLoading true w).
Proof.
  intros Hu. unfold createPost. async_unfold. cbv beta.
  world_simpl. rewrite Hu. reflexivity.
Qed.

(** C8: with an active identity and an accepted insert request,
    [createPost] stores one new post owned by that identity, with no
    upvotes and with the repost reference it was given (no stored post
    need carry that id), and returns the stored row, id included; the
    title is passed on as it is.  Without an active identity it throws
    ["User not authenticated"] and stores nothing. *)
Theorem C8_createPost (w : World) (title content : string)
  (image_url : option string) (flag : option PostFlag)
  (repost_of : option string) :
  (forall u, user w = Some u -> title <> "" -> calm 1 w ->
     exists post w',
       createPost title content image_url flag repost_of w
       = (Returned post, w') /\
       Remote.posts (remote w') = Remote.posts (remote w) ++ [post] /\
       Post.id post = server_id (Remote.serial (remote w)) /\
       Post.user_id post = User.id u /\
       Post.upvotes post = 0 /\
       Post.repost_of post = repost_of /\
       Post.title post = title /\ Post.content post = content) /\
  (user w = None ->
   exists w',
     createPost title content image_url flag repost_of w
     = (Thrown (JsError "User not authenticated"), w') /\
     remote w' = remote w /\ feed w' = feed w).
Proof.
  split.
  - intros u Hu _ Hcalm. apply calm_head in Hcalm.
    destruct (createPost_run w u title content image_url flag repost_of
                Hu Hcalm) as (w' & Hrun & Hposts & _).
    exists (created_post w u title content image_url flag repost_of), w'.
    repeat split; auto.
  - intros Hu. eexists. split; [now apply createPost_unauthenticated|].
    split; reflexivity.
Qed.

Lemma C8_createPost_witness :
  user session = Some alice /\ "Hello" <> "" /\ calm 1 session /\
  user signed_out = None /\
  fst (createPost "Hello" "World" None (Some News) (Some "p404") session)
  = Returned (Post.mk "id-4" "Hello" "World" None 10 0 "alice" (Some "Alice")
                      (Some News) (Some "p404")) /\
  fst (createPost "Hello" "World" None (Some News) (Some "p404") signed_out)
  = Thrown (JsError "User not authenticated").
Proof.
  assert (calm 1 session) as Hcalm by (intros [|k] _; reflexivity).
  assert ("Hello" <> "") as Hne by discriminate.
  destruct (C8_createPost session "Hello" "World" None (Some News)
              (Some "p404")) as [Hok _].
  destruct (C8_createPost signed_out "Hello" "World" None (Some News)
              (Some "p404")) as [_ Hno].
  destruct (Hok alice eq_refl Hne Hcalm) as (post & w' & Hrun & _).
  destruct (Hno eq_refl) as (w'' & Hthrow & _).
  repeat split; auto.
Defined.

(** ** C3: upvotes *)

Lemma raised_0 (post : Post.t) : raised 0 post = post.
Proof. destruct post. unfold raised, with_upvotes. simpl. now rewrite Z.add_0_r. Qed.

Lemma raised_raised (n m : Z) (post : Post.t) :
  raised m (raised n post) = raised (n + m) post.
Proof. unfold raised, with_upvotes. simpl. now rewrite Z.add_assoc. Qed.

Lemma entries_map_hit (post_id : string) (g : Post.t -> Post.t)
  (l : list Post.t) :
  (forall post, Post.id (g post) = Post.id post) ->
  entries post_id
    (map (fun post => if str_eq (Post.id post) post_id then g post else post) l)
  = map g (entries post_id l).
Proof.
  intros Hid. unfold entries. induction l as [|p l IH]; [reflexivity|].
  simpl. destruct (str_eq (Post.id p) post_id) eqn:E.
  - rewrite Hid, E. simpl. now rewrite IH.
  - rewrite E. exact IH.
Qed.

Lemma entries_elsewhere (post_id : string) (payload : Payload Post.t)
  (prev : list Post.t) :
  elsewhere post_id (PostsChange payload) ->
  entries post_id (onPostsChange payload prev) = entries post_id prev.
Proof.
  unfold entries. destruct payload as [new|new|old_id]; simpl; intros Hne.
  - apply str_eq_false in Hne. now rewrite Hne.
  - induction prev as [|p l IH]; [reflexivity|]. simpl.
    destruct (str_eq (Post.id p) (Post.id new)) eqn:E.
    + apply str_eq_true in E. rewrite <- E in Hne.
      apply str_eq_false in Hne. rewrite E in Hne at 1. now rewrite E, Hne.
    + destruct (str_eq (Post.id p) post_id); simpl; now rewrite IH.
  - induction prev as [|p l IH]; [reflexivity|]. simpl.
    destruct (str_eq (Post.id p) old_id) eqn:E; simpl.
    + apply str_eq_true in E. rewrite <- E in Hne.
      apply str_eq_false in Hne. now rewrite Hne.
    + destruct (str_eq (Post.id p) post_id); simpl; now rewrite IH.
Qed.

Lemma posts_update_run (x : string) (values : Post.t -> Post.t) (w : World) :
  hd None (outages w) = None ->
  posts_update x values w
  = (Returned None,
     set_feed
       (feed w ++ map (fun row => PostsChange (UPDATE (values row)))
                      (filter (fun row => str_eq (Post.id row) x)
                              (Remote.posts (remote w))))
       (set_remote
          (set_remote_posts
             (map (fun row => if str_eq (Post.id row) x then values row else row)
                  (Remote.posts (remote w)))
             (remote w))
          (consume w))).
Proof.
  intros Hcalm. unfold posts_update. async_unfold.
  rewrite request_run, Hcalm. reflexivity.
Qed.

(** One successful upvote raises by one the count of the post's entries
    in the mirror and of its row in the store, and touches nothing else
    of them. *)
Lemma upvotePost_succeeds (post_id : string) (w : World) :
  upvote_succeeds post_id w ->
  let w' := after (upvotePost post_id) w in
  entries post_id (posts w') = map (raised 1) (entries post_id (posts w)) /\
  entries post_id (Remote.posts (remote w'))
  = map (raised 1) (entries post_id (Remote.posts (remote w))) /\
  user w' = user w /\ outages w' = tl (tl (outages w)).
Proof.
  intros ((u & Hu) & Hcalm & row & Hrow).
  assert (hd None (outages w) = None) as H1 by (eapply calm_head; eauto).
  assert (calm 1 (consume w)) as Hc by (eapply calm_tail; eauto).
  apply calm_head in Hc.
  assert (after (upvotePost post_id) w
          = set_posts
              (map (fun post => if str_eq (Post.id post) post_id
                                then with_upvotes (Post.upvotes post + 1) post
                                else post) (posts w))
              (snd (posts_update post_id (with_upvotes (Post.upvotes row + 1))
                      (consume w)))) as Hafter.
  { unfold after, upvotePost. async_unfold. cbv beta. rewrite Hu.
    cbv beta iota. rewrite posts_select_single_run, H1, Hrow.
    cbn [option_map]. cbv beta iota.
    rewrite posts_update_run by exact Hc. reflexivity. }
  intros w'. subst w'. rewrite Hafter. clear Hafter.
  rewrite posts_update_run by exact Hc. world_simpl.
  split; [|split; [|split]].
  - now apply (entries_map_hit post_id (raised 1)).
  - simpl. rewrite (entries_map_hit post_id); [|reflexivity].
    unfold entries. rewrite (single_Some _ _ Hrow). reflexivity.
  - reflexivity.
  - reflexivity.
Qed.

Lemma absorb_elsewhere (post_id : string) (c : Change) (w : World) :
  elsewhere post_id c ->
  entries post_id (posts (absorb c w)) = entries post_id (posts w) /\
  remote (absorb c w) = remote w.
Proof.
  destruct c as [payload|payload]; simpl; intros H; split; try reflexivity.
  now apply entries_elsewhere.
Qed.

(** *** Calls in their two stretches *)

(** [upvotePost] run in one go is its two stretches, one right after the
    other. *)
Lemma upvotePost_stretches (post_id : string) (w : World) :
  upvotePost post_id w
  = (data <- upvotePost_begin post_id ;; upvotePost_resume post_id data) w.
Proof.
  unfold upvotePost, upvotePost_begin, upvotePost_resume. async_unfold.
  cbv beta. destruct (user w); cbv beta iota; [|reflexivity].
  destruct (posts_select_single post_id w) as [[data|e] w1];
    cbv beta iota; reflexivity.
Qed.

Lemma upvotePost_begin_run (post_id : string) (w : World) (u : User.t)
  (row : Post.t) :
  user w = Some u -> calm 1 w ->
  single (entries post_id (Remote.posts (remote w))) = Some row ->
  upvotePost_begin post_id w = (Returned (Some (Post.upvotes row)), consume w).
Proof.
  intros Hu Hcalm Hrow. apply calm_head in Hcalm.
  unfold upvotePost_begin. async_unfold. cbv beta. rewrite Hu.
  cbv beta iota. rewrite posts_select_single_run, Hcalm.
  unfold entries in Hrow. rewrite Hrow. reflexivity.
Qed.

Lemma upvotePost_resume_run (post_id : string) (w : World) (row : Post.t) :
  calm 1 w ->
  single (entries post_id (Remote.posts (remote w))) = Some row ->
  let w' := after (upvotePost_resume post_id (Some (Post.upvotes row))) w in
  entries post_id (posts w') = map (raised 1) (entries post_id (posts w)) /\
  entries post_id (Remote.posts (remote w'))
  = map (raised 1) (entries post_id (Remote.posts (remote w))).
Proof.
  intros Hcalm Hrow w'. subst w'. apply calm_head in Hcalm.
  unfold after, upvotePost_resume. async_unfold. cbv beta.
  rewrite posts_update_run by exact Hcalm. world_simpl. split.
  - now apply (entries_map_hit post_id (raised 1)).
  - simpl. rewrite (entries_map_hit post_id); [|reflexivity].
    rewrite (single_Some _ _ Hrow). reflexivity.
Qed.

(** A call that runs in one go is the schedule of its two stretches with
    nothing in between. *)
Lemma upvotePost_in_one_go (post_id : string) (call : nat) (w : World) :
  after (upvotePost post_id) w
  = state_after post_id [Begins call; Resumes call] w.
Proof.
  unfold after, state_after, replay. rewrite upvotePost_stretches.
  cbn [fold_left play fst snd]. async_unfold.
  destruct (upvotePost_begin post_id w) as [[data|e] w1]; [|reflexivity].
  cbn [app find fst snd]. unfold is_call at 1. cbn [fst].
  rewrite Nat.eqb_refl. reflexivity.
Qed.

Lemma finished_cons (e : Event) (rest : list Event) :
  finished (e :: rest)
  = (match e with Resumes _ => 1 | _ => 0 end) + finished rest.
Proof. unfold finished. destruct e; simpl List.length; lia. Qed.

(** Calls that run in turn: whenever a call waits, it holds the count
    that the store has for the post; so each finished call raises by one
    the post's row in the store and its entries in the mirror. *)
Lemma replay_exact (post_id : string) (events : list Event) :
  forall st,
    (snd st = [] \/
     exists call row,
       snd st = [(call, Some (Post.upvotes row))] /\
       single (entries post_id (Remote.posts (remote (fst st)))) = Some row) ->
    in_turn post_id events st ->
    entries post_id (posts (fst (replay post_id events st)))
    = map (raised (finished events)) (entries post_id (posts (fst st))) /\
    entries post_id (Remote.posts (remote (fst (replay post_id events st))))
    = map (raised (finished events))
          (entries post_id (Remote.posts (remote (fst st)))).
Proof.
  induction events as [|e rest IH]; intros [w waiting] Hwait Hturn.
  - simpl. split; (rewrite <- (map_id (entries _ _)) at 1; apply map_ext;
                   intros p; now rewrite raised_0).
  - rewrite finished_cons. unfold replay in *. simpl fold_left.
    destruct Hturn as [He Hrest]. simpl fst in *. simpl snd in *.
    destruct e as [call|call|c].
    + destruct He as (Hnone & (u & Hu) & Hcalm & row & Hrow & _).
      subst waiting.
      assert (play post_id (Begins call) (w, [])
              = (consume w, [(call, Some (Post.upvotes row))])) as Hplay.
      { unfold play. simpl fst. simpl snd.
        now rewrite (upvotePost_begin_run post_id w u row Hu Hcalm Hrow). }
      rewrite Hplay in *.
      destruct (IH (consume w, [(call, Some (Post.upvotes row))]))
        as [Hl Hr];
        [right; exists call, row; split; [reflexivity | exact Hrow]
        | exact Hrest |].
      rewrite Hl, Hr. split; reflexivity.
    + destruct He as ((data & Hone) & Hcalm & _).
      destruct Hwait as [Hnone|(call' & row & Hone' & Hrow)];
        [rewrite Hnone in Hone; discriminate|].
      rewrite Hone in Hone'. inversion Hone'. subst call' data waiting.
      assert (play post_id (Resumes call)
                (w, [(call, Some (Post.upvotes row))])
              = (after (upvotePost_resume post_id (Some (Post.upvotes row))) w,
                 [])) as Hplay.
      { unfold play, is_call. simpl. now rewrite Nat.eqb_refl. }
      rewrite Hplay in *.
      destruct (IH (after (upvotePost_resume post_id
                             (Some (Post.upvotes row))) w, []))
        as [Hl Hr]; [left; reflexivity | exact Hrest |].
      rewrite Hl, Hr. cbn [fst].
      destruct (upvotePost_resume_run post_id w row Hcalm Hrow) as [Hl1 Hr1].
      rewrite Hl1, Hr1, !map_map.
      split; apply map_ext; intros p; apply raised_raised.
    + destruct (absorb_elsewhere post_id c w He) as [Hl1 Hr1].
      assert (snd (play post_id (Arrives c) (w, waiting)) = [] \/
              exists call row,
                snd (play post_id (Arrives c) (w, waiting))
                = [(call, Some (Post.upvotes row))] /\
                single (entries post_id
                          (Remote.posts
                             (remote (fst (play post_id (Arrives c)
                                             (w, waiting)))))) = Some row)
        as Hwait'.
      { simpl. rewrite Hr1. exact Hwait. }
      destruct (IH _ Hwait' Hrest) as [Hl Hr].
      rewrite Hl, Hr. simpl. now rewrite Hl1, Hr1.
Qed.

(** *** No operation lowers a count *)

Lemma evolves_map (g : Post.t -> Post.t) (l : list Post.t) :
  (forall p, In p l ->
             Post.id (g p) = Post.id p /\ Post.upvotes p <= Post.upvotes (g p)) ->
  evolves l (map g l).
Proof.
  induction l as [|p l IH]; simpl; intros H; [constructor|].
  destruct (H p (or_introl eq_refl)). constructor; auto.
Qed.

Lemma evolves_refl (l : list Post.t) : evolves l l.
Proof.
  rewrite <- (map_id l) at 2. apply evolves_map. intros; split; [reflexivity|lia].
Qed.

Lemma evolves_filter (keep : Post.t -> bool) (l : list Post.t) :
  evolves l (filter keep l).
Proof.
  induction l as [|p l IH]; simpl; [constructor|].
  destruct (keep p); [constructor; [reflexivity | lia | exact IH]|].
  now constructor.
Qed.

Lemma evolves_trans (l1 l2 l3 : list Post.t) :
  evolves l1 l2 -> evolves l2 l3 -> evolves l1 l3.
Proof.
  intros H12. revert l3.
  induction H12 as [|p p' old new Hid Hle H12 IH|p old new H12 IH];
    intros l3 H23.
  - exact H23.
  - inversion H23 as [|? p'' ? new3 Hid' Hle' H23'|? ? ? H23']; subst.
    + constructor; [congruence | lia | now apply IH].
    + apply evolves_gone. now apply IH.
  - apply evolves_gone. now apply IH.
Qed.

Lemma grows_refl (w : World) : grows w w.
Proof. split; apply evolves_refl. Qed.

Lemma grows_same (w w' : World) :
  Remote.posts (remote w') = Remote.posts (remote w) -> posts w' = posts w ->
  grows w w'.
Proof. intros Hr Hp. unfold grows. rewrite Hr, Hp. split; apply evolves_refl. Qed.

Lemma grows_trans (w1 w2 w3 : World) : grows w1 w2 -> grows w2 w3 -> grows w1 w3.
Proof. intros [? ?] [? ?]. split; eapply evolves_trans; eauto. Qed.

Lemma keeps_bind {A B} (m : M A) (k : A -> M B) :
  keeps m -> (forall a, keeps (k a)) -> keeps (bind m k).
Proof.
  intros Hm Hk w. specialize (Hm w). unfold after, bind in *.
  destruct (m w) as [[a|e] w1]; simpl in *; [|exact Hm].
  eapply grows_trans; [exact Hm | apply Hk].
Qed.

Lemma keeps_same {A} (m : M A) :
  (forall w, Remote.posts (remote (snd (m w))) = Remote.posts (remote w) /\
             posts (snd (m w)) = posts w) ->
  keeps m.
Proof.
  intros H w. destruct (H w) as [Hr Hp]. now apply grows_same.
Qed.

Lemma keeps_ret {A} (a : A) : keeps (ret a).
Proof. apply keeps_same. now split. Qed.

Lemma keeps_throw {A} (e : Error) : keeps (@throw A e).
Proof. apply keeps_same. now split. Qed.

Lemma keeps_gets {A} (f : World -> A) : keeps (gets f).
Proof. apply keeps_same. now split. Qed.

Lemma keeps_setIsLoading (b : bool) : keeps (setIsLoading b).
Proof. apply keeps_same. now split. Qed.

Lemma keeps_toast (v : Variant) (title description : string) :
  keeps (toast v title description).
Proof. apply keeps_same. now split. Qed.

Lemma keeps_requireUser : keeps requireUser.
Proof.
  apply keeps_same. intros w. unfold requireUser. async_unfold.
  destruct (user w); now split.
Qed.

Lemma keeps_request : keeps request.
Proof. apply keeps_same. intros w. rewrite request_run. now split. Qed.

Lemma keeps_posts_select_single (x : string) : keeps (posts_select_single x).
Proof. apply keeps_same. intros w. rewrite posts_select_single_run. now split. Qed.

Lemma keeps_comments_select_single (x : string) :
  keeps (comments_select_single x).
Proof.
  apply keeps_same. intros w. rewrite comments_select_single_run. now split.
Qed.

Lemma keeps_comments_delete (key : Comment.t -> string) (x : string) :
  keeps (comments_delete key x).
Proof.
  apply keeps_same. intros w. unfold comments_delete. async_unfold.
  rewrite request_run. destruct (hd None (outages w)); now split.
Qed.

Lemma keeps_comments_insert (row : string -> Comment.t) :
  keeps (comments_insert row).
Proof.
  apply keeps_same. intros w. unfold comments_insert. async_unfold.
  rewrite request_run. destruct (hd None (outages w)); now split.
Qed.

Lemma keeps_posts_delete (x : string) : keeps (posts_delete x).
Proof.
  intros w. unfold after, posts_delete. async_unfold. rewrite request_run.
  destruct (hd None (outages w)); simpl; [now apply grows_same|].
  split; [apply evolves_filter | apply evolves_refl].
Qed.

(** An update whose values keep id and count, as [updatePost] sends. *)
Lemma keeps_posts_update (x : string) (values : Post.t -> Post.t) :
  (forall row, Post.id (values row) = Post.id row /\
               Post.upvotes (values row) = Post.upvotes row) ->
  keeps (posts_update x values).
Proof.
  intros Hv w. unfold after, posts_update. async_unfold. rewrite request_run.
  destruct (hd None (outages w)); simpl; [now apply grows_same|].
  split; [|apply evolves_refl]. apply evolves_map. intros p _.
  destruct (str_eq (Post.id p) x); [|split; [reflexivity|lia]].
  destruct (Hv p) as [-> ->]. split; [reflexivity|lia].
Qed.

Create HintDb keeps.
#[local] Hint Resolve keeps_ret keeps_throw keeps_gets keeps_setIsLoading
  keeps_toast keeps_requireUser keeps_request keeps_posts_select_single
  keeps_comments_select_single keeps_comments_delete keeps_comments_insert
  keeps_posts_delete : keeps.

Ltac keeps_steps :=
  repeat first
    [ solve [auto with keeps]
    | solve [apply keeps_posts_update; intros; split; reflexivity]
    | match goal with
      | |- keeps (if ?b then _ else _) => destruct b
      | |- keeps (match ?x with _ => _ end) => destruct x
      end
    | apply keeps_bind; [|intros ?] ].

(** [createPost] adds at most the row it returns and changes no other. *)
Lemma createPost_appends (w : World) title content image_url flag repost_of :
  let w' := after (createPost title content image_url flag repost_of) w in
  (exists created,
      Remote.posts (remote w') = Remote.posts (remote w) ++ created /\
      Forall (fun p => Post.upvotes p = 0) created) /\
  posts w' = posts w.
Proof.
  unfold after, createPost, posts_insert. async_unfold. cbv beta. world_simpl.
  destruct (user w) as [u|]; cbv beta iota.
  - rewrite request_run. world_simpl.
    destruct (hd None (outages w)) as [message|]; simpl.
    + split; [|reflexivity]. exists []. now rewrite app_nil_r.
    + split; [|reflexivity]. eexists. split; [reflexivity|].
      repeat constructor.
  - simpl. split; [|reflexivity]. exists []. now rewrite app_nil_r.
Qed.

Lemma keeps_updatePost post_id title content image_url flag :
  keeps (updatePost post_id title content image_url flag).
Proof.
  unfold updatePost. keeps_steps.
Qed.

Lemma keeps_deletePost post_id : keeps (deletePost post_id).
Proof. unfold deletePost. keeps_steps. Qed.

Lemma keeps_createComment post_id content :
  keeps (createComment post_id content).
Proof. unfold createComment. keeps_steps. Qed.

Lemma keeps_deleteComment commentId : keeps (deleteComment commentId).
Proof. unfold deleteComment. keeps_steps. Qed.

Lemma raise_evolves (post_id : string) (l : list Post.t) :
  evolves l
    (map (fun post => if str_eq (Post.id post) post_id
                      then with_upvotes (Post.upvotes post + 1) post
                      else post) l).
Proof.
  apply evolves_map. intros p _.
  destruct (str_eq (Post.id p) post_id); simpl; split; auto; lia.
Qed.

Lemma keeps_upvotePost post_id : keeps (upvotePost post_id).
Proof.
  intros w. unfold after, upvotePost. async_unfold. cbv beta.
  destruct (user w) as [u|]; [|now apply grows_same].
  cbv beta iota. rewrite posts_select_single_run.
  destruct (hd None (outages w)) as [message|]; [now apply grows_same|].
  destruct (single _) as [row|] eqn:Hrow; [|now apply grows_same].
  cbn [option_map]. cbv beta iota. unfold posts_update. async_unfold.
  rewrite request_run.
  destruct (hd None (outages (consume w))) as [message|]; simpl.
  - split; [apply evolves_refl | apply raise_evolves].
  - split; [|apply raise_evolves]. apply evolves_map. intros p Hin.
    destruct (str_eq (Post.id p) post_id) eqn:E; [|split; [reflexivity|lia]].
    rewrite (single_filter_unique _ _ row p Hrow Hin E).
    simpl. split; [reflexivity|lia].
Qed.

Lemma perform_never_lowers (op : Operation) (w : World) :
  stored_after op (Remote.posts (remote w)) (Remote.posts (remote (perform op w)))
  /\ evolves (posts w) (posts (perform op w)).
Proof.
  destruct op; simpl.
  - destruct (createPost_appends w title content image_url flag repost_of)
      as [Hstored Hmirror].
    split; [exact Hstored|]. rewrite Hmirror. apply evolves_refl.
  - apply keeps_updatePost.
  - apply keeps_deletePost.
  - apply keeps_upvotePost.
  - apply keeps_createComment.
  - apply keeps_deleteComment.
Qed.

(** C3, as stated, fails.  The post ["p2"] is stored with 7 upvotes and
    the store accepts every request.  Two calls of which the second
    begins while the first waits for the store both read 7 and both
    store 8: after two upvotes that went through without a toast the
    stored count is 8, not 9, and the mirror shows 9 until the change
    events are taken in and 8 then.  A call that two others overtake
    stores the count it read before them: the stored count falls from 9
    to 8.  And a call whose update the store refuses returns like any
    other, with the stored count left at 7. *)
Lemma C3_overlapping_upvotes_counterexample :
  outages session = [] /\
  stored_counts "p2" session = [7] /\
  stored_counts "p2" (state_after "p2" overlapping session) = [8] /\
  toasts (state_after "p2" overlapping session) = [] /\
  mirrored_counts "p2" (state_after "p2" overlapping session) = [9] /\
  mirrored_counts "p2" (deliver (state_after "p2" overlapping session)) = [8] /\
  stored_counts "p2" (state_after "p2" overtaken session) = [9] /\
  stored_counts "p2" (state_after "p2" (overtaken ++ [Resumes 1%nat]) session)
  = [8] /\
  upvotePost "p2" session
  = (Returned tt, state_after "p2" [Begins 1%nat; Resumes 1%nat] session) /\
  fst (upvotePost "p2" (session_with [None; Some "denied"])) = Returned tt /\
  toasts (after (upvotePost "p2") (session_with [None; Some "denied"])) = [] /\
  stored_counts "p2" (after (upvotePost "p2") (session_with [None; Some "denied"]))
  = [7].
Proof. vm_compute. repeat split. Qed.

(** C3 (amended): for every schedule in which the calls of [upvotePost]
    on a post run in turn (none begins while another waits), each with
    an identity, a stored post and both requests accepted, and in which
    the change notifications taken in, between or during the calls,
    concern other entities, with counts that [number] holds exactly: the
    post's row in the store and each of its entries in the mirror end
    with the count they had plus the number of finished calls, and are
    otherwise as they were.  A call that runs in one go is such a
    schedule of one call.  And no operation of the Mutation Gateway
    that runs to its end in one go lowers a count, from whatever state
    and with whatever outcome: the stored and the mirrored posts it
    leaves stem one for one from posts that were there, with the same id
    and a count that is not lower, except that [createPost] adds its new
    post, which has no upvotes, behind the unchanged stored ones. *)
Theorem C3_upvotes_in_turn_exact :
  (forall post_id events w,
      in_turn post_id events (w, []) ->
      entries post_id (Remote.posts (remote (state_after post_id events w)))
      = map (raised (finished events))
            (entries post_id (Remote.posts (remote w))) /\
      entries post_id (posts (state_after post_id events w))
      = map (raised (finished events)) (entries post_id (posts w))) /\
  (forall post_id call w,
      after (upvotePost post_id) w
      = state_after post_id [Begins call; Resumes call] w) /\
  (forall op w,
      stored_after op (Remote.posts (remote w))
                   (Remote.posts (remote (perform op w))) /\
      evolves (posts w) (posts (perform op w))).
Proof.
  split; [|split].
  - intros post_id events w Hturn. unfold state_after.
    destruct (replay_exact post_id events (w, []) (or_introl eq_refl) Hturn)
      as [Hl Hr].
    split; [exact Hr | exact Hl].
  - intros post_id call w. apply upvotePost_in_one_go.
  - intros op w. apply perform_never_lowers.
Qed.

(** One event of a schedule, with the state it leaves. *)
Lemma in_turn_step (post_id : string) (e : Event) (rest : list Event)
  (st st' : World * Waiting) :
  play post_id e st = st' ->
  match e with
  | Begins _ =>
      snd st = [] /\
      (exists u, user (fst st) = Some u) /\ calm 1 (fst st) /\
      exists row,
        single (entries post_id (Remote.posts (remote (fst st))))
        = Some row /\ countable (Post.upvotes row)
  | Resumes call =>
      (exists data, snd st = [(call, data)]) /\ calm 1 (fst st) /\
      Forall (fun p => countable (Post.upvotes p))
             (entries post_id (posts (fst st)))
  | Arrives c => elsewhere post_id c
  end ->
  in_turn post_id rest st' -> in_turn post_id (e :: rest) st.
Proof. intros <- He Hrest. split; assumption. Qed.

Lemma C3_upvotes_in_turn_exact_witness :
  in_turn "p2" busy_schedule (session, []) /\
  finished busy_schedule = 3 /\
  stored_counts "p2" session = [7] /\
  stored_counts "p2" (state_after "p2" busy_schedule session) = [10] /\
  mirrored_counts "p2" (state_after "p2" busy_schedule session) = [10].
Proof.
  assert (forall w, outages w = [] -> calm 1 w) as Hcalm.
  { intros w Ho k _. rewrite Ho. destruct k; reflexivity. }
  assert (forall n, - 100 <= n <= 100 -> countable n) as Hcount.
  { intros n Hn. unfold countable.
    change (2 ^ 53) with 9007199254740992. lia. }
  assert (in_turn "p2" busy_schedule (session, [])) as Hturn.
  { unfold busy_schedule.
    repeat
      (eapply in_turn_step;
       [vm_compute; reflexivity
       |cbn [fst snd]; repeat split;
        try discriminate; try (apply Hcalm; reflexivity);
        try (eexists; reflexivity);
        try (eexists; split; [reflexivity | apply Hcount; simpl; lia]);
        try (apply Forall_cons; [apply Hcount; simpl; lia | apply Forall_nil])
       |]).
    exact I. }
  destruct (proj1 C3_upvotes_in_turn_exact "p2" busy_schedule session Hturn)
    as [Hr Hl].
  split; [exact Hturn|]. split; [reflexivity|]. split; [reflexivity|].
  unfold stored_counts, mirrored_counts. rewrite Hl, Hr. split; reflexivity.
Defined.

(** ** C5: deleting a post and its comments *)

Lemma comments_delete_run (key : Comment.t -> string) (x : string) (w : World) :
  hd None (outages w) = None ->
  comments_delete key x w
  = (Returned None,
     set_feed
       (feed w ++ map (fun row => CommentsChange (DELETE (Comment.id row)))
                      (filter (fun row => str_eq (key row) x)
                              (Remote.comments (remote w))))
       (set_remote
          (set_remote_comments
             (filter (fun row => negb (str_eq (key row) x))
                     (Remote.comments (remote w)))
             (remote w))
          (consume w))).
Proof.
  intros Hcalm. unfold comments_delete. async_unfold.
  rewrite request_run, Hcalm. reflexivity.
Qed.

Lemma posts_delete_run (x : string) (w : World) :
  hd None (outages w) = None ->
  posts_delete x w
  = (Returned None,
     set_feed
       (feed w ++ map (fun row => PostsChange (DELETE (Post.id row)))
                      (filter (fun row => str_eq (Post.id row) x)
                              (Remote.posts (remote w))))
       (set_remote
          (set_remote_posts
             (filter (fun row => negb (str_eq (Post.id row) x))
                     (Remote.posts (remote w)))
             (remote w))
          (consume w))).
Proof.
  intros Hcalm. unfold posts_delete. async_unfold.
  rewrite request_run, Hcalm. reflexivity.
Qed.

Lemma filter_negb_none {A} (hit : A -> bool) (l : list A) :
  filter hit (filter (fun a => negb (hit a)) l) = [].
Proof.
  apply filter_none. intros a Hin. apply filter_In in Hin as [_ H].
  now apply negb_true_iff.
Qed.

(** The owner's [deletePost], all three requests accepted. *)
Lemma deletePost_run (w : World) (u : User.t) (post_id : string) :
  user w = Some u -> owns u post_id (remote w) -> calm 3 w ->
  exists w',
    deletePost post_id w = (Returned true, w') /\
    Remote.posts (remote w')
    = filter (fun p => negb (str_eq (Post.id p) post_id))
             (Remote.posts (remote w)) /\
    Remote.comments (remote w')
    = filter (fun c => negb (str_eq (Comment.post_id c) post_id))
             (Remote.comments (remote w)) /\
    feed w'
    = feed w
      ++ map (fun c => CommentsChange (DELETE (Comment.id c)))
             (comments_on post_id (Remote.comments (remote w)))
      ++ [PostsChange (DELETE post_id)] /\
    posts w' = posts w /\ comments w' = comments w.
Proof.
  intros Hu (row & Hrow & Hown) Hcalm.
  assert (hd None (outages w) = None) as H1 by (eapply calm_head; eauto).
  assert (calm 2 (consume w)) as C2 by (eapply calm_tail; eauto).
  assert (hd None (outages (consume w)) = None) as H2
      by (eapply calm_head; eauto).
  assert (calm 1 (consume (consume w))) as C3 by (eapply calm_tail; eauto).
  apply calm_head in C3.
  assert (Post.id row = post_id) as Hid.
  { apply single_Some in Hrow.
    assert (In row (filter (fun p => str_eq (Post.id p) post_id)
                           (Remote.posts (remote w)))) as Hin
        by (rewrite Hrow; now left).
    apply filter_In in Hin as [_ Hin]. now apply str_eq_true. }
  eexists. split.
  - unfold deletePost. async_unfold. cbv beta. world_simpl. rewrite Hu.
    cbv beta iota. rewrite posts_select_single_run. world_simpl.
    rewrite H1, Hrow. cbn [option_map not_owner]. rewrite Hown, str_eq_refl.
    cbn [negb]. cbv beta iota.
    rewrite comments_delete_run by exact H2. cbv beta iota.
    rewrite posts_delete_run by exact C3. reflexivity.
  - simpl. rewrite (single_Some _ _ Hrow). simpl. rewrite Hid.
    rewrite <- app_assoc. repeat split.
Qed.

(** What the Collection Store holds once it has absorbed a batch of
    comment deletions. *)
Lemma absorb_comment_deletions (cs : list Comment.t) :
  forall w c,
    In c (comments
            (fold_left (fun w' ev => absorb ev w')
               (map (fun c' => CommentsChange (DELETE (Comment.id c'))) cs) w)) ->
    In c (comments w) /\ forall c', In c' cs -> Comment.id c <> Comment.id c'.
Proof.
  induction cs as [|d cs IH]; simpl; intros w c Hin.
  - split; [exact Hin | tauto].
  - apply IH in Hin as [Hin Hrest]. simpl in Hin.
    apply filter_In in Hin as [Hin Hne]. split; [exact Hin|].
    intros c' [<-|Hc']; [|now apply Hrest].
    now apply str_eq_false, negb_true_iff.
Qed.

(** When the active identity owns the stored post and the store accepts
    the three requests, [deletePost] returns [true]; the store then
    holds no comment attached to the post and no post with its id;
    once the Collection Store has absorbed the change events, the
    mirrored post collection holds no post with that id and, if the
    mirror was up to date (no event pending, only stored comments
    mirrored), the mirrored comments hold none attached to the post. *)
Theorem deletePost_cascades_when_accepted (w : World) (u : User.t) (post_id : string) :
  user w = Some u -> owns u post_id (remote w) -> calm 3 w ->
  let w' := after (deletePost post_id) w in
  fst (deletePost post_id w) = Returned true /\
  comments_on post_id (Remote.comments (remote w')) = [] /\
  entries post_id (Remote.posts (remote w')) = [] /\
  entries post_id (posts (deliver w')) = [] /\
  (feed w = [] -> incl (comments w) (Remote.comments (remote w)) ->
   comments_on post_id (comments (deliver w')) = []).
Proof.
  intros Hu Hown Hcalm w'.
  destruct (deletePost_run w u post_id Hu Hown Hcalm)
    as (w1 & Hrun & Hposts & Hcomments & Hfeed & Hp & Hc).
  subst w'. unfold after. rewrite Hrun. simpl fst. simpl snd.
  split; [reflexivity|]. split; [|split; [|split]].
  - rewrite Hcomments. apply filter_negb_none.
  - rewrite Hposts. apply (filter_negb_none (fun p => str_eq (Post.id p) post_id)).
  - unfold deliver. rewrite Hfeed, !app_assoc, fold_left_app. simpl.
    apply (filter_negb_none (fun p => str_eq (Post.id p) post_id)).
  - intros Hempty Hincl. unfold deliver.
    rewrite Hfeed, Hempty, app_nil_l, fold_left_app. simpl.
    apply filter_none. intros c Hin.
    apply absorb_comment_deletions in Hin as [Hin Hfresh].
    simpl in Hin. rewrite Hc in Hin.
    destruct (str_eq (Comment.post_id c) post_id) eqn:E; [|reflexivity].
    exfalso. apply (Hfresh c); [|reflexivity].
    apply filter_In. split; [now apply Hincl | exact E].
Qed.

Lemma deletePost_cascades_when_accepted_witness :
  user session = Some alice /\ owns alice "p1" (remote session) /\
  calm 3 session /\
  fst (deletePost "p1" session) = Returned true /\
  Remote.comments (remote (after (deletePost "p1") session)) = [] /\
  comments (deliver (after (deletePost "p1") session)) = [] /\
  posts (deliver (after (deletePost "p1") session)) = [post_of "p2" "bob" 2 7].
Proof.
  assert (calm 3 session) as Hcalm by (intros [|[|[|k]]] _; reflexivity).
  assert (owns alice "p1" (remote session)) as Hown
      by (eexists; split; reflexivity).
  destruct (deletePost_cascades_when_accepted session alice "p1" eq_refl Hown Hcalm)
    as (Htrue & _).
  repeat split; auto.
Defined.

(** C5 fails on the code.  [deletePost] awaits the deletion of the
    comments without looking at its result, while it does check the
    result of the deletion of the post that follows.  When the owner
    deletes the post ["p1"] and the store errors on the deletion of the
    comments alone, [deletePost] returns [true] after the toast "Post
    deleted": the post is gone from the store and its two comments are
    still there, and they stay in the mirror when the change events
    have been taken in. *)
Theorem C5_delete_leaves_comments :
  let w := session_with [None; Some "timeout"; None] in
  let w' := after (deletePost "p1") w in
  user w = Some alice /\ owns alice "p1" (remote w) /\
  comments_on "p1" (Remote.comments (remote w))
  = [comment_of "c1" "p1" "alice"; comment_of "c2" "p1" "bob"] /\
  fst (deletePost "p1" w) = Returned true /\
  toasts w' = [mkToast default "Post deleted" "Your post has been removed."] /\
  entries "p1" (Remote.posts (remote w')) = [] /\
  entries "p1" (posts (deliver w')) = [] /\
  comments_on "p1" (Remote.comments (remote w'))
  = [comment_of "c1" "p1" "alice"; comment_of "c2" "p1" "bob"] /\
  comments_on "p1" (comments (deliver w'))
  = [comment_of "c1" "p1" "alice"; comment_of "c2" "p1" "bob"].
Proof.
  cbv zeta. split; [reflexivity|].
  split; [eexists; split; reflexivity|].
  vm_compute. repeat split.
Qed.

(** ** C2: promoting an anonymous identity *)

Lemma GreenGuardian_is_generated : name_of_draws 0 0 = "GreenGuardian".
Proof. reflexivity. Qed.

(** Of the hundred names the generator can make, one equals the name the
    identity already has. *)
Lemma one_name_in_a_hundred :
  let tenths := map Z.of_nat (seq 0 10) in
  List.length
    (filter (fun ij => str_eq (name_of_draws (fst ij) (snd ij)) "GreenGuardian")
            (list_prod tenths tenths)) = 1%nat.
Proof. vm_compute. reflexivity. Qed.

(** The sign-in handler compares the current name with a freshly drawn
    one: the merge happens exactly when the two coincide. *)
Lemma handleAccountCreation_merges_on_match (userData : AccountData)
  (w : World) (u : User.t) (name : string) (r1 r2 : Q) (rest : list Q) :
  user w = Some u -> truthy (User.email u) = false ->
  User.full_name u = Some name -> entropy w = r1 :: r2 :: rest ->
  hd None (outages w) = None ->
  user (after (handleAccountCreation userData) w)
  = if str_eq name (pick adjectives r1 ++ pick nouns r2)%string
    then Some (merge_account userData u)
    else Some u.
Proof.
  intros Hu Hmail Hname Hent Hcalm.
  unfold after, handleAccountCreation, generateRandomUsername, Math_random.
  async_unfold. cbv beta. rewrite Hu. cbv beta iota. rewrite Hmail.
  cbn [negb]. cbv beta iota. rewrite Hent. cbv beta iota. world_simpl.
  cbv beta iota. rewrite Hname.
  destruct (str_eq name _); cbv beta iota.
  - rewrite user_profiles_update_run by exact Hcalm. simpl. now rewrite Hu.
  - simpl. exact Hu.
Qed.

(** C2, on the code: the anonymous identity "GreenGuardian" signs in as
    Alex with email a@b.com while [Math.random()] returns 0.5 twice; the
    handler draws the name "WildSpirit", does not recognise the identity
    as anonymous and leaves the identity and the stored profile as they
    were. *)
Theorem C2_sign_in_not_merged :
  let w := anonymous_session [1 # 2; 1 # 2] in
  let w' := after (handleAccountCreation alex) w in
  fst (generateRandomUsername w) = Returned "WildSpirit" /\
  user w' = Some green_guardian /\
  Remote.user_profiles (remote w') = [green_guardian].
Proof. repeat split. Qed.

(** When the draw happens to give the current name, the identity held by
    the session is merged in place (id and preferences kept), while the
    stored profile, looked up under the id of the new account, is not
    reached. *)
Lemma sign_in_merged_on_lucky_draw :
  let w := anonymous_session [0%Q; 0%Q] in
  let w' := after (handleAccountCreation alex) w in
  user w'
  = Some (User.mk "anon-1" (Some "Alex") (mkPrefs true false system)
                  (Some "a@b.com")) /\
  Remote.user_profiles (remote w') = [green_guardian].
Proof. repeat split. Qed.

(** ** The post form's title check *)

(** A blank title never reaches [onSubmit]: the form records the
    validation error and nothing else happens. *)
Lemma handleSubmit_blank_title onSubmit (repostOf : option string)
  (f : PostForm.state) (w : World) :
  is_empty (trim (PostForm.title f)) = true ->
  exists f',
    PostForm.handleSubmit onSubmit repostOf f w = (Returned f', w) /\
    PostForm.validationError f' = Some "Title is required" /\
    PostForm.navigated f' = PostForm.navigated f.
Proof.
  intros Hblank. unfold PostForm.handleSubmit. rewrite Hblank.
  eexists. repeat split.
Qed.

(** * Further properties *)

(** ** Operations without an identity *)

(** The operations that raise the loading flag before they look for the
    identity throw with the flag still raised; no request is made and
    nothing else changes. *)
Theorem unauthenticated_operations_throw (w : World) :
  user w = None ->
  (forall title content image_url flag repost_of,
      createPost title content image_url flag repost_of w
      = (Thrown (JsError "User not authenticated"), set_isLoading true w)) /\
  (forall post_id title content image_url flag,
      updatePost post_id title content image_url flag w
      = (Thrown (JsError "User not authenticated"), set_isLoading true w)) /\
  (forall post_id,
      deletePost post_id w
      = (Thrown (JsError "User not authenticated"), set_isLoading true w)) /\
  (forall post_id content,
      createComment post_id content w
      = (Thrown (JsError "User not authenticated"), set_isLoading true w)) /\
  (forall commentId,
      deleteComment commentId w
      = (Thrown (JsError "User not authenticated"), set_isLoading true w)) /\
  (forall post_id,
      upvotePost post_id w = (Thrown (JsError "User not authenticated"), w)) /\
  (forall preferences,
      setUserPreferences preferences w
      = (Thrown (JsError "User not authenticated"), w)) /\
  toggleColorMode w = (Thrown (JsError "User not authenticated"), w).
Proof.
  intros Hu.
  repeat split; intros;
    unfold createPost, updatePost, deletePost, createComment, deleteComment,
      upvotePost, setUserPreferences, toggleColorMode;
    async_unfold; cbv beta; world_simpl; rewrite Hu; reflexivity.
Qed.

Lemma unauthenticated_operations_throw_witness :
  user signed_out = None /\
  deletePost "p1" signed_out
  = (Thrown (JsError "User not authenticated"), set_isLoading true signed_out) /\
  isLoading (after (deletePost "p1") signed_out) = true /\
  upvotePost "p1" signed_out
  = (Thrown (JsError "User not authenticated"), signed_out).
Proof.
  destruct (unauthenticated_operations_throw signed_out eq_refl)
    as (_ & _ & Hdel & _ & _ & Hup & _).
  split; [reflexivity|]. split; [apply Hdel|].
  split; [reflexivity | apply Hup].
Defined.

(** ** Requests that error *)

(** Unfolds the requests to the store. *)
Ltac store_unfold :=
  unfold posts_select_single, comments_select_single, posts_update,
    posts_delete, comments_delete, posts_insert, comments_insert,
    user_profiles_update, user_profiles_select_single, user_profiles_insert.

(** Runs the coming request against the schedule [Ho]. *)
Ltac next_request Ho :=
  rewrite request_run; world_simpl; rewrite ?Ho; cbn [hd tl];
  cbv beta iota.

(** When the store refuses the insert, [createPost] and [createComment]
    show one destructive toast and throw the store's error; tables,
    pending events, mirror and identity stay as they were and the
    loading flag is lowered. *)
Theorem refused_insert_throws (w : World) (u : User.t) (message : string)
  (rest : list (option string)) :
  user w = Some u -> outages w = Some message :: rest ->
  (forall title content image_url flag repost_of,
      exists w',
        createPost title content image_url flag repost_of w
        = (Thrown (PostgrestError message), w') /\
        untouched w w' /\ isLoading w' = false /\
        toasts w'
        = toasts w ++ [mkToast destructive "Error creating post" message]) /\
  (forall post_id content,
      exists w',
        createComment post_id content w
        = (Thrown (PostgrestError message), w') /\
        untouched w w' /\ isLoading w' = false /\
        toasts w'
        = toasts w ++ [mkToast destructive "Error creating comment" message]).
Proof.
  intros Hu Ho. split; intros; eexists; split.
  - unfold createPost. store_unfold. async_unfold. cbv beta. world_simpl.
    rewrite Hu. cbv beta iota. next_request Ho. reflexivity.
  - repeat split; simpl; auto.
  - unfold createComment. store_unfold. async_unfold. cbv beta. world_simpl.
    rewrite Hu. cbv beta iota. next_request Ho. reflexivity.
  - repeat split; simpl; auto.
Qed.

Lemma refused_insert_throws_witness :
  let w := set_outages [Some "offline"] session in
  user w = Some alice /\ outages w = [Some "offline"] /\
  fst (createPost "Hello" "World" None None None w)
  = Thrown (PostgrestError "offline") /\
  remote (after (createPost "Hello" "World" None None None) w) = forum /\
  fst (createComment "p1" "Nice" w) = Thrown (PostgrestError "offline").
Proof.
  destruct (refused_insert_throws (set_outages [Some "offline"] session)
              alice "offline" [] eq_refl eq_refl) as [Hpost Hcomment].
  destruct (Hpost "Hello" "World" None None None) as (w1 & R1 & (K1 & _) & _).
  destruct (Hcomment "p1" "Nice") as (w2 & R2 & _).
  cbv zeta. unfold after. rewrite R1, R2. cbn [fst snd]. rewrite K1.
  repeat split.
Defined.

(** ** Editing a post *)

Lemma owns_row (u : User.t) (post_id : string) (r : Remote.t) (row : Post.t) :
  single (filter (fun p => str_eq (Post.id p) post_id) (Remote.posts r))
  = Some row ->
  In row (Remote.posts r) /\ Post.id row = post_id.
Proof.
  intros Hrow. apply single_Some in Hrow.
  assert (In row (filter (fun p => str_eq (Post.id p) post_id)
                         (Remote.posts r))) as Hin
      by (rewrite Hrow; now left).
  apply filter_In in Hin as [Hin Hid]. split; [exact Hin|].
  now apply str_eq_true.
Qed.

(** The owner's [updatePost], both requests accepted: it returns [true];
    the stored row gets the new title and content and keeps its id,
    creation time, upvotes, owner and repost reference; every other
    stored row is as it was; the mirror is not touched by the call
    itself and takes the new row in when the change event is absorbed. *)
Theorem updatePost_edits_only_the_post (w : World) (u : User.t)
  (post_id title content : string) (image_url : option string)
  (flag : option PostFlag) (row : Post.t) :
  user w = Some u -> calm 2 w ->
  single (entries post_id (Remote.posts (remote w))) = Some row ->
  Post.user_id row = User.id u ->
  let w' := after (updatePost post_id title content image_url flag) w in
  let row' := edit_post title content image_url flag row in
  fst (updatePost post_id title content image_url flag w) = Returned true /\
  entries post_id (Remote.posts (remote w')) = [row'] /\
  Post.title row' = title /\ Post.content row' = content /\
  same_origin row row' /\
  (forall p, Post.id p <> post_id ->
             (In p (Remote.posts (remote w')) <-> In p (Remote.posts (remote w)))) /\
  Remote.comments (remote w') = Remote.comments (remote w) /\
  posts w' = posts w /\
  (feed w = [] ->
   posts (deliver w')
   = map (fun post => if str_eq (Post.id post) post_id then row' else post)
         (posts w)).
Proof.
  intros Hu Hcalm Hrow Hown w' row'.
  assert (hd None (outages w) = None) as H1 by (eapply calm_head; eauto).
  assert (calm 1 (consume w)) as Hc by (eapply calm_tail; eauto).
  apply calm_head in Hc.
  destruct (owns_row u post_id (remote w) row Hrow) as [Hin Hid].
  assert (updatePost post_id title content image_url flag w
          = (Returned true,
             set_toasts
               (toasts w ++ [mkToast default "Post updated"
                                     "Your changes have been saved."])
               (set_isLoading false
                  (snd (posts_update post_id
                          (edit_post title content image_url flag)
                          (consume (set_isLoading true w))))))) as Hrun.
  { unfold updatePost. async_unfold. cbv beta. world_simpl. rewrite Hu.
    cbv beta iota. rewrite posts_select_single_run. world_simpl.
    unfold entries in Hrow. rewrite H1, Hrow. cbn [option_map not_owner].
    rewrite Hown, str_eq_refl. cbn [negb]. cbv beta iota.
    rewrite posts_update_run by exact Hc. reflexivity. }
  subst w'. unfold after. rewrite Hrun. cbn [fst snd].
  rewrite posts_update_run by exact Hc. world_simpl.
  split; [reflexivity|].
  split.
  { simpl. rewrite (entries_map_hit post_id); [|reflexivity].
    rewrite (single_Some _ _ Hrow). reflexivity. }
  split; [reflexivity|]. split; [reflexivity|].
  split; [repeat split|].
  split.
  { intros p Hne. simpl. rewrite in_map_iff. split.
    - intros (q & Hq & Hinq).
      destruct (str_eq (Post.id q) post_id) eqn:E; [|now subst].
      exfalso. apply Hne. rewrite <- Hq. simpl. now apply str_eq_true.
    - intros Hp. exists p. apply str_eq_false in Hne. now rewrite Hne. }
  split; [reflexivity|]. split; [reflexivity|].
  intros Hempty. unfold deliver. world_simpl. rewrite Hempty.
  simpl app. fold (entries post_id (Remote.posts (remote w))).
  rewrite (single_Some _ _ Hrow). simpl.
  apply map_ext. intros p. now rewrite Hid.
Qed.

Lemma updatePost_edits_only_the_post_witness :
  user session = Some alice /\ calm 2 session /\
  single (entries "p1" (Remote.posts (remote session)))
  = Some (post_of "p1" "alice" 1 0) /\
  fst (updatePost "p1" "Hi" "there" None None session) = Returned true /\
  entries "p1" (Remote.posts
                  (remote (after (updatePost "p1" "Hi" "there" None None)
                                 session)))
  = [Post.mk "p1" "Hi" "there" None 1 0 "alice" None (Some News) None].
Proof.
  assert (calm 2 session) as Hcalm by (intros [|[|k]] _; reflexivity).
  destruct (updatePost_edits_only_the_post session alice "p1" "Hi" "there"
              None None (post_of "p1" "alice" 1 0)
              eq_refl Hcalm eq_refl eq_refl) as (Htrue & Hrow & _).
  repeat split; auto.
Defined.

(** ** Deleting *)

Lemma hd_nth0 {A} (d : A) (l : list A) : hd d l = nth 0 l d.
Proof. destruct l; reflexivity. Qed.

Lemma hd_tl_nth1 {A} (d : A) (l : list A) : hd d (tl l) = nth 1 l d.
Proof. destruct l as [|a [|b l]]; reflexivity. Qed.

Lemma hd_tl_tl_nth2 {A} (d : A) (l : list A) : hd d (tl (tl l)) = nth 2 l d.
Proof. destruct l as [|a [|b [|c l]]]; reflexivity. Qed.

(** Runs the coming request against the outcomes [H0], [H1] and [H2] of
    the first three requests. *)
Ltac next_outcome H0 H1 H2 :=
  rewrite request_run; world_simpl;
  rewrite ?hd_tl_tl_nth2, ?hd_tl_nth1, ?hd_nth0;
  unfold outcome in H0, H1, H2;
  rewrite ?H0, ?H1, ?H2; cbv beta iota.

(** [deletePost] by the owner is not atomic.  If the deletion of the
    post errors after the comments were deleted, it returns [false] and
    the post stays in the store without its comments.  If the deletion
    of the comments errors and the deletion of the post does not, it
    returns [true] and the comments stay in the store without their
    post. *)
Theorem deletePost_not_atomic (w : World) (u : User.t) (post_id : string)
  (row : Post.t) (message : string) :
  user w = Some u ->
  single (entries post_id (Remote.posts (remote w))) = Some row ->
  Post.user_id row = User.id u ->
  outcome 0 w = None ->
  let w' := after (deletePost post_id) w in
  (outcome 1 w = None -> outcome 2 w = Some message ->
   fst (deletePost post_id w) = Returned false /\
   Remote.posts (remote w') = Remote.posts (remote w) /\
   comments_on post_id (Remote.comments (remote w')) = [] /\
   toasts w'
   = toasts w ++ [mkToast destructive "Error deleting post" message]) /\
  (outcome 1 w = Some message -> outcome 2 w = None ->
   fst (deletePost post_id w) = Returned true /\
   entries post_id (Remote.posts (remote w')) = [] /\
   Remote.comments (remote w') = Remote.comments (remote w) /\
   toasts w'
   = toasts w ++ [mkToast default "Post deleted" "Your post has been removed."]).
Proof.
  intros Hu Hrow Hown H0 w'. subst w'. unfold entries in Hrow.
  split; intros H1 H2; unfold after;
    unfold deletePost; store_unfold; async_unfold; cbv beta; world_simpl;
    rewrite Hu; cbv beta iota;
    next_outcome H0 H1 H2; rewrite Hrow; cbn [option_map not_owner];
    rewrite Hown, str_eq_refl; cbn [negb]; cbv beta iota;
    next_outcome H0 H1 H2; next_outcome H0 H1 H2; cbn [fst snd]; world_simpl.
  - repeat split. apply filter_negb_none.
  - repeat split.
    apply (filter_negb_none (fun p => str_eq (Post.id p) post_id)).
Qed.

Lemma deletePost_not_atomic_witness :
  let w := session_with [None; None; Some "timeout"] in
  user w = Some alice /\
  single (entries "p1" (Remote.posts (remote w)))
  = Some (post_of "p1" "alice" 1 0) /\
  outcome 0 w = None /\ outcome 1 w = None /\ outcome 2 w = Some "timeout" /\
  fst (deletePost "p1" w) = Returned false /\
  entries "p1" (Remote.posts (remote (after (deletePost "p1") w)))
  = [post_of "p1" "alice" 1 0] /\
  Remote.comments (remote (after (deletePost "p1") w)) = [].
Proof.
  destruct (deletePost_not_atomic
              (session_with [None; None; Some "timeout"]) alice "p1"
              (post_of "p1" "alice" 1 0) "timeout"
              eq_refl eq_refl eq_refl eq_refl) as [Hpost _].
  destruct (Hpost eq_refl eq_refl) as (Hfalse & Hkept & Hgone & _).
  cbv zeta. repeat split; auto.
Defined.

(** The owner's [deleteComment], both requests accepted: it returns
    [true], the store loses the comment and nothing else, and the mirror
    loses it when the change event is absorbed. *)
Theorem deleteComment_removes_only_the_comment (w : World) (u : User.t)
  (commentId : string) (row : Comment.t) :
  user w = Some u -> calm 2 w ->
  single (filter (fun c => str_eq (Comment.id c) commentId)
                 (Remote.comments (remote w))) = Some row ->
  Comment.user_id row = User.id u ->
  let w' := after (deleteComment commentId) w in
  fst (deleteComment commentId w) = Returned true /\
  (forall c, In c (Remote.comments (remote w')) <->
             In c (Remote.comments (remote w)) /\ Comment.id c <> commentId) /\
  Remote.posts (remote w') = Remote.posts (remote w) /\
  comments w' = comments w /\
  (feed w = [] ->
   forall c, In c (comments (deliver w')) <->
             In c (comments w) /\ Comment.id c <> commentId).
Proof.
  intros Hu Hcalm Hrow Hown w'.
  assert (outcome 0 w = None) as H0 by (apply Hcalm; lia).
  assert (outcome 1 w = None) as H1 by (apply Hcalm; lia).
  assert (Comment.id row = commentId) as Hid.
  { apply single_Some in Hrow.
    assert (In row (filter (fun c => str_eq (Comment.id c) commentId)
                           (Remote.comments (remote w)))) as Hin
        by (rewrite Hrow; now left).
    apply filter_In in Hin as [_ Hin]. now apply str_eq_true. }
  assert (forall l c,
             In c (filter (fun c => negb (str_eq (Comment.id c) commentId)) l)
             <-> In c l /\ Comment.id c <> commentId) as Hfilter.
  { intros l c. rewrite filter_In, negb_true_iff, str_eq_false. tauto. }
  subst w'. unfold after, deleteComment. store_unfold. async_unfold.
  cbv beta. world_simpl. rewrite Hu. cbv beta iota.
  next_outcome H0 H1 H1. rewrite Hrow. cbn [option_map not_owner].
  rewrite Hown, str_eq_refl. cbn [negb]. cbv beta iota.
  next_outcome H0 H1 H1. cbn [fst snd]. world_simpl.
  split; [reflexivity|]. split; [intros c; apply Hfilter|].
  split; [reflexivity|]. split; [reflexivity|].
  intros Hempty c. unfold deliver. world_simpl. rewrite Hempty.
  simpl app. rewrite (single_Some _ _ Hrow). simpl. rewrite Hid.
  apply Hfilter.
Qed.

Lemma deleteComment_removes_only_the_comment_witness :
  user session = Some alice /\ calm 2 session /\
  single (filter (fun c => str_eq (Comment.id c) "c1")
                 (Remote.comments (remote session)))
  = Some (comment_of "c1" "p1" "alice") /\
  fst (deleteComment "c1" session) = Returned true /\
  Remote.comments (remote (after (deleteComment "c1") session))
  = [comment_of "c2" "p1" "bob"] /\
  comments (deliver (after (deleteComment "c1") session))
  = [comment_of "c2" "p1" "bob"].
Proof.
  assert (calm 2 session) as Hcalm by (intros [|[|k]] _; reflexivity).
  destruct (deleteComment_removes_only_the_comment session alice "c1"
              (comment_of "c1" "p1" "alice") eq_refl Hcalm eq_refl eq_refl)
    as (Htrue & _).
  repeat split; auto.
Defined.

(** ** Creating *)

Lemma createComment_run (w : World) (u : User.t) (post_id content : string) :
  user w = Some u -> hd None (outages w) = None ->
  let comment := created_comment w u post_id content in
  exists w',
    createComment post_id content w = (Returned comment, w') /\
    Remote.comments (remote w') = Remote.comments (remote w) ++ [comment] /\
    Remote.posts (remote w') = Remote.posts (remote w) /\
    feed w' = feed w ++ [CommentsChange (INSERT comment)] /\
    posts w' = posts w /\ comments w' = comments w /\ user w' = user w.
Proof.
  intros Hu Hcalm comment. eexists. split.
  - unfold createComment, comments_insert. async_unfold. cbv beta.
    world_simpl. rewrite Hu. cbv beta iota.
    rewrite request_run. world_simpl. rewrite Hcalm. reflexivity.
  - simpl. repeat split; auto.
Qed.

(** What is created reaches the mirror through the change feed: with an
    identity, an accepted insert and no event pending, the post made by
    [createPost] is the first of the mirrored posts once its event is
    absorbed, and the comment made by [createComment] is the last of the
    mirrored comments; the calls themselves leave the mirror alone.  The
    comment is stored with its text as given and for whatever post id it
    was given. *)
Theorem created_rows_reach_the_mirror (w : World) (u : User.t) :
  user w = Some u -> calm 1 w -> feed w = [] ->
  (forall title content image_url flag repost_of,
      let w' := after (createPost title content image_url flag repost_of) w in
      posts w' = posts w /\
      posts (deliver w')
      = created_post w u title content image_url flag repost_of :: posts w /\
      comments (deliver w') = comments w) /\
  (forall post_id content,
      let w' := after (createComment post_id content) w in
      fst (createComment post_id content w)
      = Returned (created_comment w u post_id content) /\
      Remote.comments (remote w')
      = Remote.comments (remote w) ++ [created_comment w u post_id content] /\
      comments w' = comments w /\
      comments (deliver w')
      = comments w ++ [created_comment w u post_id content] /\
      posts (deliver w') = posts w).
Proof.
  intros Hu Hcalm Hempty. apply calm_head in Hcalm. split.
  - intros title content image_url flag repost_of w'. subst w'.
    destruct (createPost_run w u title content image_url flag repost_of
                Hu Hcalm) as (w1 & Hrun & _ & _ & Hfeed & Hp & Hc & _).
    unfold after. rewrite Hrun. cbn [snd]. split; [exact Hp|].
    unfold deliver. rewrite Hfeed, Hempty. simpl. now rewrite Hp, Hc.
  - intros post_id content w'. subst w'.
    destruct (createComment_run w u post_id content Hu Hcalm)
      as (w1 & Hrun & Hstored & _ & Hfeed & Hp & Hc & _).
    unfold after. rewrite Hrun. cbn [fst snd].
    split; [reflexivity|]. split; [exact Hstored|]. split; [exact Hc|].
    unfold deliver. rewrite Hfeed, Hempty. simpl. now rewrite Hp, Hc.
Qed.

Lemma created_rows_reach_the_mirror_witness :
  user session = Some alice /\ calm 1 session /\ feed session = [] /\
  posts (deliver (after (createPost "Hi" "all" None (Some Tip) None) session))
  = Post.mk "id-4" "Hi" "all" None 10 0 "alice" (Some "Alice") (Some Tip) None
    :: posts session /\
  comments (deliver (after (createComment "p404" " ok " ) session))
  = comments session
    ++ [Comment.mk "id-4" "p404" " ok " 10 "alice" (Some "Alice")].
Proof.
  assert (calm 1 session) as Hcalm by (intros [|k] _; reflexivity).
  destruct (created_rows_reach_the_mirror session alice eq_refl Hcalm eq_refl)
    as [Hpost Hcomment].
  destruct (Hpost "Hi" "all" None (Some Tip) None) as (_ & Hhead & _).
  destruct (Hcomment "p404" " ok ") as (_ & _ & _ & Hlast & _).
  repeat split; auto.
Defined.

(** ** Upvotes at the edges *)

(** When the lookup gives no row (the request errors, or the store
    holds no row or several rows with the id), [upvotePost] returns
    after a "Post not found" toast: the update is not sent and neither
    the store nor the mirror changes, whatever the mirror holds for that
    id. *)
Theorem upvotePost_unknown_post (w : World) (u : User.t) (post_id : string) :
  user w = Some u ->
  outcome 0 w <> None \/
  single (entries post_id (Remote.posts (remote w))) = None ->
  upvotePost post_id w
  = (Returned tt,
     set_toasts
       (toasts w ++ [mkToast destructive "Post not found"
                       "The post you're trying to upvote doesn't exist."])
       (consume w)) /\
  untouched w (after (upvotePost post_id) w) /\
  outages (after (upvotePost post_id) w) = tl (outages w).
Proof.
  intros Hu Hlookup.
  assert (upvotePost post_id w
          = (Returned tt,
             set_toasts
               (toasts w ++ [mkToast destructive "Post not found"
                               "The post you're trying to upvote doesn't exist."])
               (consume w))) as Hrun.
  { unfold upvotePost. async_unfold. cbv beta. rewrite Hu. cbv beta iota.
    rewrite posts_select_single_run. rewrite hd_nth0. fold (outcome 0 w).
    destruct (outcome 0 w) as [message|] eqn:H0; [reflexivity|].
    destruct Hlookup as [Hne|Hnone]; [congruence|].
    unfold entries in Hnone. rewrite Hnone. reflexivity. }
  split; [exact Hrun|]. unfold after. rewrite Hrun. repeat split.
Qed.

Lemma upvotePost_unknown_post_witness :
  user session = Some alice /\
  single (entries "p9" (Remote.posts (remote session))) = None /\
  fst (upvotePost "p9" session) = Returned tt /\
  untouched session (after (upvotePost "p9") session).
Proof.
  destruct (upvotePost_unknown_post session alice "p9" eq_refl
              (or_intror eq_refl)) as (Hrun & Hkeep & _).
  split; [reflexivity|]. split; [reflexivity|].
  split; [now rewrite Hrun | exact Hkeep].
Defined.

(** The optimistic update is not rolled back: when the lookup finds the
    post and the store then refuses the update, [upvotePost] returns
    without a toast, the store is as it was and emits nothing, and the
    mirrored entries of the post are raised by one all the same. *)
Theorem upvotePost_not_rolled_back (w : World) (u : User.t)
  (post_id : string) (row : Post.t) (message : string) :
  user w = Some u ->
  single (entries post_id (Remote.posts (remote w))) = Some row ->
  outcome 0 w = None -> outcome 1 w = Some message ->
  let w' := after (upvotePost post_id) w in
  fst (upvotePost post_id w) = Returned tt /\
  remote w' = remote w /\ feed w' = feed w /\ toasts w' = toasts w /\
  entries post_id (posts w') = map (raised 1) (entries post_id (posts w)).
Proof.
  intros Hu Hrow H0 H1 w'. subst w'. unfold entries in Hrow.
  unfold after, upvotePost. store_unfold. async_unfold. cbv beta.
  rewrite Hu. cbv beta iota. next_outcome H0 H1 H1. rewrite Hrow.
  cbn [option_map]. cbv beta iota. next_outcome H0 H1 H1.
  cbn [fst snd]. world_simpl. repeat split.
  now apply (entries_map_hit post_id (raised 1)).
Qed.

Lemma upvotePost_not_rolled_back_witness :
  let w := session_with [None; Some "denied"] in
  user w = Some alice /\
  single (entries "p2" (Remote.posts (remote w)))
  = Some (post_of "p2" "bob" 2 7) /\
  outcome 0 w = None /\ outcome 1 w = Some "denied" /\
  map Post.upvotes (entries "p2" (Remote.posts
                                    (remote (after (upvotePost "p2") w))))
  = [7] /\
  map Post.upvotes (entries "p2" (posts (after (upvotePost "p2") w))) = [8].
Proof.
  destruct (upvotePost_not_rolled_back (session_with [None; Some "denied"])
              alice "p2" (post_of "p2" "bob" 2 7) "denied"
              eq_refl eq_refl eq_refl eq_refl) as (_ & Hstore & _ & _ & Hmirror).
  cbv zeta. rewrite Hstore, Hmirror. repeat split.
Defined.

(** After a successful upvote, absorbing its change event puts the
    stored row, with the count the store now has, in the place of every
    mirrored entry of the post: the mirror shows the store's count plus
    one, also when it showed another count before, and the upvote is not
    counted twice. *)
Theorem upvotePost_echo_resyncs (w : World) (post_id : string) (row : Post.t) :
  upvote_succeeds post_id w ->
  single (entries post_id (Remote.posts (remote w))) = Some row ->
  feed w = [] ->
  let w' := deliver (after (upvotePost post_id) w) in
  entries post_id (Remote.posts (remote w')) = [raised 1 row] /\
  posts w'
  = map (fun post => if str_eq (Post.id post) post_id then raised 1 row
                     else post)
        (posts w).
Proof.
  intros ((u & Hu) & Hcalm & _) Hrow Hempty w'. subst w'.
  assert (outcome 0 w = None) as H0 by (apply Hcalm; lia).
  assert (outcome 1 w = None) as H1 by (apply Hcalm; lia).
  destruct (owns_row u post_id (remote w) row Hrow) as [_ Hid].
  unfold entries in Hrow.
  unfold after, upvotePost. store_unfold. async_unfold. cbv beta.
  rewrite Hu. cbv beta iota. next_outcome H0 H1 H1. rewrite Hrow.
  cbn [option_map]. cbv beta iota. next_outcome H0 H1 H1.
  cbn [fst snd]. unfold deliver. world_simpl. rewrite Hempty. simpl app.
  rewrite (single_Some _ _ Hrow). simpl. split.
  - fold (entries post_id
            (map (fun row0 => if str_eq (Post.id row0) post_id
                              then with_upvotes (Post.upvotes row + 1) row0
                              else row0) (Remote.posts (remote w)))).
    rewrite (entries_map_hit post_id); [|reflexivity].
    unfold entries. rewrite (single_Some _ _ Hrow). reflexivity.
  - rewrite map_map. apply map_ext. intros p. rewrite Hid.
    destruct (str_eq (Post.id p) post_id) eqn:E; simpl.
    + now rewrite E.
    + now rewrite E.
Qed.

Lemma upvotePost_echo_resyncs_witness :
  let stale := set_posts [post_of "p2" "bob" 2 5] session in
  upvote_succeeds "p2" stale /\
  single (entries "p2" (Remote.posts (remote stale)))
  = Some (post_of "p2" "bob" 2 7) /\
  feed stale = [] /\
  posts (deliver (after (upvotePost "p2") stale)) = [post_of "p2" "bob" 2 8].
Proof.
  assert (upvote_succeeds "p2" (set_posts [post_of "p2" "bob" 2 5] session))
    as Hok.
  { split; [now exists alice|]. split; [intros [|[|k]] _; reflexivity|].
    eexists; reflexivity. }
  destruct (upvotePost_echo_resyncs (set_posts [post_of "p2" "bob" 2 5] session)
              "p2" (post_of "p2" "bob" 2 7) Hok eq_refl eq_refl) as [_ Hmirror].
  cbv zeta. split; [exact Hok|]. split; [reflexivity|].
  split; [reflexivity|]. rewrite Hmirror. reflexivity.
Defined.

(** When the ownership check passes and the store then refuses the
    write, [updatePost] and [deleteComment] do not throw: they return
    [false] after one destructive toast that carries the store's message,
    with the loading flag lowered and with tables, pending events, mirror
    and identity as they were. *)
Theorem refused_writes_return_false (w : World) (u : User.t) (message : string) :
  user w = Some u -> outcome 0 w = None -> outcome 1 w = Some message ->
  (forall post_id title content image_url flag,
      owns u post_id (remote w) ->
      let w' := after (updatePost post_id title content image_url flag) w in
      fst (updatePost post_id title content image_url flag w) = Returned false /\
      untouched w w' /\ isLoading w' = false /\
      toasts w'
      = toasts w ++ [mkToast destructive "Error updating post" message]) /\
  (forall commentId,
      owns_comment u commentId (remote w) ->
      let w' := after (deleteComment commentId) w in
      fst (deleteComment commentId w) = Returned false /\
      untouched w w' /\ isLoading w' = false /\
      toasts w'
      = toasts w ++ [mkToast destructive "Error deleting comment" message]).
Proof.
  intros Hu H0 H1. split.
  - intros post_id title content image_url flag (row & Hrow & Hown) w'.
    subst w'. unfold after, updatePost. store_unfold. async_unfold.
    cbv beta. world_simpl. rewrite Hu. cbv beta iota.
    next_outcome H0 H1 H1. rewrite Hrow. cbn [option_map not_owner].
    rewrite Hown, str_eq_refl. cbn [negb]. cbv beta iota.
    next_outcome H0 H1 H1. cbn [fst snd]. repeat split.
  - intros commentId (row & Hrow & Hown) w'.
    subst w'. unfold after, deleteComment. store_unfold. async_unfold.
    cbv beta. world_simpl. rewrite Hu. cbv beta iota.
    next_outcome H0 H1 H1. rewrite Hrow. cbn [option_map not_owner].
    rewrite Hown, str_eq_refl. cbn [negb]. cbv beta iota.
    next_outcome H0 H1 H1. cbn [fst snd]. repeat split.
Qed.

Lemma refused_writes_return_false_witness :
  let w := session_with [None; Some "read only"] in
  user w = Some alice /\ outcome 0 w = None /\
  outcome 1 w = Some "read only" /\
  owns alice "p1" (remote w) /\ owns_comment alice "c1" (remote w) /\
  fst (updatePost "p1" "Hi" "there" None None w) = Returned false /\
  fst (deleteComment "c1" w) = Returned false /\
  remote (after (deleteComment "c1") w) = forum.
Proof.
  assert (owns alice "p1" (remote (session_with [None; Some "read only"])))
    as Hp by (eexists; split; reflexivity).
  assert (owns_comment alice "c1"
            (remote (session_with [None; Some "read only"])))
    as Hc by (eexists; split; reflexivity).
  destruct (refused_writes_return_false
              (session_with [None; Some "read only"]) alice "read only"
              eq_refl eq_refl eq_refl) as [Hup Hdel].
  destruct (Hup "p1" "Hi" "there" None None Hp) as (Hfalse & _).
  destruct (Hdel "c1" Hc) as (Hfalse' & (Hkeep & _) & _).
  cbv zeta. repeat split; auto.
Defined.

(** ** Preferences *)

Lemma merge_preferences_twice (old : UserPreferences)
  (preferences : PartialPreferences) :
  merge_preferences (merge_preferences old preferences) preferences
  = merge_preferences old preferences.
Proof.
  destruct preferences as [[a|] [b|] [c|]]; reflexivity.
Qed.

(** [setUserPreferences], its request accepted: the identity of the
    session gets the given fields and keeps the fields that were not
    given, together with its id, name and email; every stored profile
    with the identity's id gets the same preferences and the other
    profiles stay as they were; posts, comments and mirror are not
    touched.  Setting the same fields a second time changes nothing
    more. *)
Theorem setUserPreferences_merges (w : World) (u : User.t)
  (preferences : PartialPreferences) :
  user w = Some u -> calm 2 w ->
  let w' := after (setUserPreferences preferences) w in
  let merged := merge_preferences (User.preferences u) preferences in
  user w' = Some (User.mk (User.id u) (User.full_name u) merged (User.email u)) /\
  (p_showImagesInFeed preferences = None ->
   showImagesInFeed merged = showImagesInFeed (User.preferences u)) /\
  (p_showContentInFeed preferences = None ->
   showContentInFeed merged = showContentInFeed (User.preferences u)) /\
  (p_colorScheme preferences = None ->
   colorScheme merged = colorScheme (User.preferences u)) /\
  (forall b, p_showImagesInFeed preferences = Some b ->
             showImagesInFeed merged = b) /\
  (forall b, p_showContentInFeed preferences = Some b ->
             showContentInFeed merged = b) /\
  (forall c, p_colorScheme preferences = Some c -> colorScheme merged = c) /\
  Remote.user_profiles (remote w')
  = map (fun row => if str_eq (User.id row) (User.id u)
                    then User.mk (User.id row) (User.full_name row) merged
                                 (User.email row)
                    else row)
        (Remote.user_profiles (remote w)) /\
  Remote.posts (remote w') = Remote.posts (remote w) /\
  Remote.comments (remote w') = Remote.comments (remote w) /\
  posts w' = posts w /\ comments w' = comments w /\
  user (after (setUserPreferences preferences) w') = user w'.
Proof.
  intros Hu Hcalm w' merged.
  assert (outcome 0 w = None) as H0 by (apply Hcalm; lia).
  assert (outcome 1 w = None) as H1 by (apply Hcalm; lia).
  assert (forall v u0, user v = Some u0 -> hd None (outages v) = None ->
            after (setUserPreferences preferences) v
            = set_user
                (Some (with_preferences
                         (merge_preferences (User.preferences u0) preferences)
                         u0))
                (snd (user_profiles_update (User.id u0)
                        (with_preferences
                           (merge_preferences (User.preferences u0)
                              preferences)) v))) as Hrun.
  { intros v u0 Hv Hc. unfold after, setUserPreferences. async_unfold.
    cbv beta. rewrite Hv. cbv beta iota.
    rewrite user_profiles_update_run by exact Hc. cbn [fst snd].
    world_simpl. now rewrite Hv. }
  assert (hd None (outages w) = None) as Hc0
      by (rewrite hd_nth0; exact H0).
  subst w'. rewrite (Hrun w u Hu Hc0).
  rewrite user_profiles_update_run by exact Hc0. cbn [snd]. world_simpl.
  split; [reflexivity|].
  split; [intros E; subst merged; unfold merge_preferences; now rewrite E|].
  split; [intros E; subst merged; unfold merge_preferences; now rewrite E|].
  split; [intros E; subst merged; unfold merge_preferences; now rewrite E|].
  split; [intros b E; subst merged; unfold merge_preferences; now rewrite E|].
  split; [intros b E; subst merged; unfold merge_preferences; now rewrite E|].
  split; [intros c E; subst merged; unfold merge_preferences; now rewrite E|].
  split; [reflexivity|]. split; [reflexivity|]. split; [reflexivity|].
  split; [reflexivity|]. split; [reflexivity|].
  erewrite Hrun; [| reflexivity |].
  - rewrite user_profiles_update_run.
    + cbn [snd]. world_simpl. unfold with_preferences. cbn [User.preferences].
      subst merged. now rewrite merge_preferences_twice.
    + world_simpl. rewrite hd_tl_nth1. exact H1.
  - world_simpl. rewrite hd_tl_nth1. exact H1.
Qed.

Lemma setUserPreferences_merges_witness :
  user session = Some alice /\ calm 2 session /\
  user (after (setUserPreferences (mkPartial None (Some true) None)) session)
  = Some (User.mk "alice" (Some "Alice") (mkPrefs true true system)
                  (Some "a@b.com")) /\
  Remote.user_profiles
    (remote (after (setUserPreferences (mkPartial None (Some true) None))
                   session))
  = [User.mk "alice" (Some "Alice") (mkPrefs true true system)
             (Some "a@b.com")].
Proof.
  assert (calm 2 session) as Hcalm by (intros [|[|k]] _; reflexivity).
  destruct (setUserPreferences_merges session alice
              (mkPartial None (Some true) None) eq_refl Hcalm)
    as (Hu & _ & _ & _ & _ & _ & _ & Hstored & _).
  repeat split; auto.
Defined.

(** A refused preference update leaves the identity and the store as
    they were and shows one destructive toast; and the feed page's
    [handlePreferenceChange] never throws: without an identity it does
    nothing at all. *)
Theorem refused_preferences_keep_identity (w : World) :
  (forall u message preferences,
      user w = Some u -> outcome 0 w = Some message ->
      let w' := after (setUserPreferences preferences) w in
      fst (setUserPreferences preferences w) = Returned tt /\
      untouched w w' /\
      toasts w'
      = toasts w ++ [mkToast destructive "Error updating preferences" message]) /\
  (forall preferences,
      fst (Feed.handlePreferenceChange preferences w) = Returned tt) /\
  (forall preferences,
      user w = None -> Feed.handlePreferenceChange preferences w = (Returned tt, w)).
Proof.
  split; [|split].
  - intros u message preferences Hu H0 w'. subst w'.
    unfold after, setUserPreferences. store_unfold. async_unfold. cbv beta.
    rewrite Hu. cbv beta iota. next_outcome H0 H0 H0. cbn [fst snd].
    repeat split.
  - intros preferences. unfold Feed.handlePreferenceChange, try_catch.
    destruct (setUserPreferences preferences w) as [[[]|e] w1] eqn:E;
      reflexivity.
  - intros preferences Hu. unfold Feed.handlePreferenceChange, try_catch.
    unfold setUserPreferences. async_unfold. cbv beta. rewrite Hu. reflexivity.
Qed.

Lemma refused_preferences_keep_identity_witness :
  let w := session_with [Some "offline"] in
  user w = Some alice /\ outcome 0 w = Some "offline" /\
  user (after (setUserPreferences (mkPartial None None (Some dark))) w)
  = Some alice /\
  user signed_out = None /\
  Feed.handlePreferenceChange (mkPartial None None (Some dark)) signed_out
  = (Returned tt, signed_out).
Proof.
  destruct (refused_preferences_keep_identity (session_with [Some "offline"]))
    as (Hrefused & _).
  destruct (refused_preferences_keep_identity signed_out) as (_ & _ & Hnone).
  destruct (Hrefused alice "offline" (mkPartial None None (Some dark))
              eq_refl eq_refl) as (_ & (_ & _ & _ & _ & Hu) & _).
  cbv zeta. repeat split; auto.
Defined.

(** ** The feed page *)

Lemma applyFilters_sorts_shared_cell_witness :
  HomePage.shares_posts_cell spaces_page = true /\
  posts unsorted_session
  = [post_of "p1" "alice" 1 0; post_of "p2" "bob" 2 7] /\
  posts (after (HomePage.applyFilters spaces_page) unsorted_session)
  = [post_of "p2" "bob" 2 7; post_of "p1" "alice" 1 0].
Proof.
  split; [reflexivity|]. split; [reflexivity|].
  rewrite (proj1 (applyFilters_sorts_shared_cell spaces_page unsorted_session
                    eq_refl)).
  reflexivity.
Defined.

Lemma searchPosts_returns (q : string) (w : World) :
  exists found w', searchPosts q w = (Returned found, w').
Proof.
  unfold searchPosts. destruct (is_empty (trim q)).
  - eexists. eexists. reflexivity.
  - async_unfold. rewrite request_run.
    destruct (hd None (outages w)); eexists; eexists; reflexivity.
Qed.

Lemma compare_sort_key (sortBy : SortBy) (a b : Post.t) :
  compare_posts sortBy a b = sort_key sortBy b - sort_key sortBy a.
Proof.
  destruct sortBy; [apply compare_by_time | apply compare_by_upvotes].
Qed.

(** The view of [applyFilters] is always the sorted, flag-filtered form
    of some base list. *)
Lemma applyFilters_shape (h : HomePage.state) (w : World) :
  exists base w',
    HomePage.applyFilters h w
    = (Returned
         (HomePage.set_view
            (sort (compare_posts (HomePage.sortBy h))
                  (match HomePage.selectedFlag h with
                   | Some f => filter (flag_is f) base
                   | None => base
                   end))
            false h),
       w').
Proof.
  unfold HomePage.applyFilters, try_catch. async_unfold. cbv beta.
  destruct (0 <? Z.of_nat (String.length (HomePage.searchQuery h))).
  - destruct (searchPosts_returns (HomePage.searchQuery h) w)
      as (found & w1 & Hs).
    rewrite Hs. exists found.
    destruct (HomePage.shares_posts_cell h); eexists; reflexivity.
  - exists (posts w).
    destruct (HomePage.shares_posts_cell h); eexists; reflexivity.
Qed.

(** Whatever the query, the flag, the sort mode and the outcome of the
    search request, [applyFilters] returns: it lowers the page's loading
    flag, keeps query, flag and sort mode, and shows a list that is in
    descending order of the column of the sort mode and, when a flag is
    selected, holds only posts with that flag. *)
Theorem applyFilters_view_invariants (h : HomePage.state) (w : World) :
  let h' := page_after HomePage.applyFilters h w in
  (exists w', HomePage.applyFilters h w = (Returned h', w')) /\
  HomePage.localLoading h' = false /\
  HomePage.searchQuery h' = HomePage.searchQuery h /\
  HomePage.selectedFlag h' = HomePage.selectedFlag h /\
  HomePage.sortBy h' = HomePage.sortBy h /\
  descending (sort_key (HomePage.sortBy h)) (HomePage.filteredPosts h') /\
  (forall f, HomePage.selectedFlag h = Some f ->
             Forall (fun p => Post.flag p = Some f) (HomePage.filteredPosts h')).
Proof.
  intros h'. subst h'. unfold page_after.
  destruct (applyFilters_shape h w) as (base & w' & Hrun). rewrite Hrun.
  cbn [fst]. split; [now exists w'|]. repeat split.
  - simpl. apply sort_descending. apply compare_sort_key.
  - intros f Hf. simpl. rewrite Hf. apply Forall_forall. intros p Hin.
    apply In_sort_posts, filter_In in Hin as [_ Hin].
    now apply flag_is_true.
Qed.

(** With nothing typed in the search box the page works on the mirror
    alone: it makes no request and changes nothing outside itself, and
    it shows exactly the mirrored posts (those with the selected flag,
    when one is selected), each as often as the mirror holds it. *)
Theorem applyFilters_without_query (h : HomePage.state) (w : World) :
  HomePage.searchQuery h = "" ->
  after (HomePage.applyFilters h) w = w /\
  Permutation (view_of h w)
              (match HomePage.selectedFlag h with
               | Some f => filter (flag_is f) (posts w)
               | None => posts w
               end) /\
  (forall p, In p (view_of h w) <->
             In p (posts w) /\
             (forall f, HomePage.selectedFlag h = Some f -> Post.flag p = Some f)).
Proof.
  intros Hq.
  assert (HomePage.applyFilters h w
          = (Returned
               (HomePage.set_view
                  (sort (compare_posts (HomePage.sortBy h))
                        (match HomePage.selectedFlag h with
                         | Some f => filter (flag_is f) (posts w)
                         | None => posts w
                         end))
                  false h), w)) as Hrun.
  { unfold HomePage.applyFilters, try_catch, HomePage.shares_posts_cell.
    rewrite Hq. async_unfold. reflexivity. }
  unfold after, view_of. rewrite Hrun. cbn [fst snd].
  split; [reflexivity|]. split; [apply sort_perm|].
  intros p. simpl. rewrite In_sort_posts.
  destruct (HomePage.selectedFlag h) as [f|].
  - rewrite filter_In, flag_is_true. split.
    + intros [Hin Hf]. split; [exact Hin|]. intros g Hg. congruence.
    + intros [Hin Hf]. split; [exact Hin|]. now apply Hf.
  - split; [intros Hin; split; [exact Hin | discriminate] | tauto].
Qed.

Lemma applyFilters_without_query_witness :
  HomePage.searchQuery tips_page = "" /\
  after (HomePage.applyFilters tips_page) session = session /\
  view_of tips_page session = [] /\
  view_of fresh_page session
  = [post_of "p2" "bob" 2 7; post_of "p1" "alice" 1 0].
Proof.
  destruct (applyFilters_without_query tips_page session eq_refl)
    as (Hsame & _).
  repeat split; auto.
Defined.

(** When the search request errors, the page shows nothing: for a query
    that is not blank, [applyFilters] ends with an empty view and one
    destructive toast, and leaves store and mirror alone. *)
Theorem applyFilters_search_error (h : HomePage.state) (w : World)
  (message : string) :
  is_empty (trim (HomePage.searchQuery h)) = false ->
  outcome 0 w = Some message ->
  view_of h w = [] /\
  untouched w (after (HomePage.applyFilters h) w) /\
  toasts (after (HomePage.applyFilters h) w)
  = toasts w ++ [mkToast destructive "Error searching posts" message].
Proof.
  intros Hq H0.
  assert (searchPosts (HomePage.searchQuery h) w
          = (Returned [],
             set_toasts
               (toasts w ++ [mkToast destructive "Error searching posts"
                                     message])
               (consume w))) as Hs.
  { unfold searchPosts. rewrite Hq. async_unfold. next_outcome H0 H0 H0.
    reflexivity. }
  unfold view_of, after, HomePage.applyFilters, try_catch,
    HomePage.shares_posts_cell.
  rewrite (not_blank_length _ Hq), Hq. async_unfold. cbv beta. rewrite Hs.
  cbn [andb]. destruct (HomePage.selectedFlag h); repeat split.
Qed.

Lemma applyFilters_search_error_witness :
  let w := session_with [Some "offline"] in
  is_empty (trim (HomePage.searchQuery hello_query)) = false /\
  outcome 0 w = Some "offline" /\
  view_of hello_query w = [] /\
  posts (after (HomePage.applyFilters hello_query) w) = posts session.
Proof.
  destruct (applyFilters_search_error hello_query
              (session_with [Some "offline"]) "offline" eq_refl eq_refl)
    as (Hview & (_ & _ & Hposts & _) & _).
  cbv zeta. repeat split; auto.
Defined.

Lemma order_by_perm {A} (key : A -> Z) (asc : bool) (rows : list A) :
  Permutation (order_by key asc rows) rows.
Proof. apply sort_perm. Qed.

Lemma order_by_descending {A} (key : A -> Z) (rows : list A) :
  descending key (order_by key false rows).
Proof. apply sort_descending. reflexivity. Qed.

Lemma order_by_ascending {A} (key : A -> Z) (rows : list A) :
  ascending key (order_by key true rows).
Proof.
  assert (descending (fun a => - key a) (order_by key true rows)) as H.
  { apply sort_descending. intros a b. simpl. lia. }
  unfold descending, ascending in *.
  induction H as [|a l Hs IH Hall]; constructor; auto.
  eapply Forall_impl; [|exact Hall]. simpl. intros; lia.
Qed.

(** [resetFilters] always returns with an empty query, no flag, the
    sort by recency and the loading flag lowered.  When its request is
    accepted it shows all stored posts, newest first, whatever the mirror
    holds; when the request errors it shows nothing and adds a
    destructive toast.  It never changes store or mirror. *)
Theorem resetFilters_restores (h : HomePage.state) (w : World) :
  let h' := page_after Feed.resetFilters h w in
  let w' := after (Feed.resetFilters h) w in
  fst (Feed.resetFilters h w) = Returned h' /\
  HomePage.searchQuery h' = "" /\ HomePage.selectedFlag h' = None /\
  HomePage.sortBy h' = by_time /\ HomePage.localLoading h' = false /\
  untouched w w' /\
  (outcome 0 w = None ->
   Permutation (HomePage.filteredPosts h') (Remote.posts (remote w)) /\
   descending Post.created_at (HomePage.filteredPosts h') /\
   toasts w' = toasts w) /\
  (forall message,
      outcome 0 w = Some message ->
      HomePage.filteredPosts h' = [] /\
      toasts w' = toasts w ++ [mkToast destructive "Error sorting posts" message]).
Proof.
  intros h' w'. subst h' w'.
  unfold page_after, after, Feed.resetFilters, try_catch, sortedPosts.
  async_unfold. cbv beta. rewrite request_run, hd_nth0. fold (outcome 0 w).
  destruct (outcome 0 w) as [message|]; cbn [fst snd].
  - do 5 (split; [reflexivity|]). split; [repeat split|].
    split; [discriminate|]. intros m Hm. inversion Hm. subst m.
    split; reflexivity.
  - do 5 (split; [reflexivity|]). split; [repeat split|].
    split; [|discriminate]. intros _. simpl.
    split; [apply order_by_perm|]. split; [apply order_by_descending|].
    reflexivity.
Qed.

Lemma resetFilters_restores_witness :
  let w := set_posts [] session in
  outcome 0 w = None /\
  HomePage.filteredPosts (page_after Feed.resetFilters hello_query w)
  = [post_of "p2" "bob" 2 7; post_of "p1" "alice" 1 0] /\
  HomePage.searchQuery (page_after Feed.resetFilters hello_query w) = "" /\
  HomePage.selectedFlag (page_after Feed.resetFilters hello_query w) = None.
Proof.
  destruct (resetFilters_restores hello_query (set_posts [] session))
    as (_ & Hq & Hf & _).
  cbv zeta. split; [reflexivity|]. split; [reflexivity|].
  split; [exact Hq | exact Hf].
Defined.

(** ** Loading the mirror *)

(** [fetchPosts] and [fetchComments], request accepted: the mirror holds
    the stored rows, each as often as the store holds it, posts newest
    first and comments oldest first.  When the request errors, the
    mirror keeps what it held and a destructive toast is added.  The
    store is never changed. *)
Theorem fetch_mirrors_the_store (w : World) :
  (outcome 0 w = None ->
   Permutation (posts (after fetchPosts w)) (Remote.posts (remote w)) /\
   descending Post.created_at (posts (after fetchPosts w)) /\
   comments (after fetchPosts w) = comments w /\
   Permutation (comments (after fetchComments w)) (Remote.comments (remote w)) /\
   ascending Comment.created_at (comments (after fetchComments w)) /\
   posts (after fetchComments w) = posts w) /\
  (forall message,
      outcome 0 w = Some message ->
      posts (after fetchPosts w) = posts w /\
      toasts (after fetchPosts w)
      = toasts w ++ [mkToast destructive "Error fetching posts" message] /\
      comments (after fetchComments w) = comments w /\
      toasts (after fetchComments w)
      = toasts w ++ [mkToast destructive "Error fetching comments" message]) /\
  remote (after fetchPosts w) = remote w /\
  remote (after fetchComments w) = remote w.
Proof.
  unfold after, fetchPosts, fetchComments. async_unfold. cbv beta.
  rewrite request_run, hd_nth0. fold (outcome 0 w).
  destruct (outcome 0 w) as [message|]; cbn [fst snd].
  - split; [discriminate|]. split; [|split; reflexivity].
    intros m Hm. inversion Hm. subst m. repeat split.
  - split; [|split; [discriminate | split; reflexivity]].
    intros _. simpl.
    split; [apply order_by_perm|]. split; [apply order_by_descending|].
    split; [reflexivity|]. split; [apply order_by_perm|].
    split; [apply order_by_ascending | reflexivity].
Qed.

Lemma fetch_mirrors_the_store_witness :
  let w := set_comments [] (set_posts [] session) in
  outcome 0 w = None /\
  posts (after fetchPosts w)
  = [post_of "p2" "bob" 2 7; post_of "p1" "alice" 1 0] /\
  comments (after fetchComments w)
  = [comment_of "c1" "p1" "alice"; comment_of "c2" "p1" "bob"].
Proof.
  destruct (fetch_mirrors_the_store (set_comments [] (set_posts [] session)))
    as (Hok & _).
  destruct (Hok eq_refl) as (Hperm & _).
  cbv zeta. repeat split.
Defined.

(** ** Forms *)

Lemma is_space_In (bytes : string) :
  is_space bytes = true <-> In bytes white_space.
Proof.
  unfold is_space. rewrite existsb_exists. split.
  - intros (x & Hin & Hx). apply String.eqb_eq in Hx. now subst.
  - intros Hin. exists bytes. split; [exact Hin | apply String.eqb_refl].
Qed.

(** One step of [trimStart]: a white-space code point at the start is
    skipped. *)
Lemma trimStart_space (space rest : string) :
  In space white_space -> trimStart (space ++ rest) = trimStart rest.
Proof.
  intros Hin. unfold white_space in Hin.
  repeat (destruct Hin as [<-|Hin]; [reflexivity|]). destruct Hin.
Qed.

Lemma trimStart_blank_upto (n : nat) (s : string) :
  (String.length s <= n)%nat -> trimStart s = "" -> blank s.
Proof.
  revert s. induction n as [|n IH]; intros s Hlen Hs.
  - destruct s; [constructor | simpl in Hlen; lia].
  - destruct s as [|a rest]; [constructor|]. cbn [trimStart] in Hs.
    destruct (is_space (String a "")) eqn:E1.
    { apply (blank_space (String a "") rest); [now apply is_space_In|].
      apply IH; [simpl in Hlen; lia | exact Hs]. }
    destruct rest as [|b rest2]; [discriminate|].
    destruct (is_space (String a (String b ""))) eqn:E2.
    { apply (blank_space (String a (String b "")) rest2);
        [now apply is_space_In|].
      apply IH; [simpl in Hlen; lia | exact Hs]. }
    destruct rest2 as [|c rest3]; [discriminate|].
    destruct (is_space (String a (String b (String c "")))) eqn:E3;
      [|discriminate].
    apply (blank_space (String a (String b (String c ""))) rest3);
      [now apply is_space_In|].
    apply IH; [simpl in Hlen; lia | exact Hs].
Qed.

Lemma trimStart_blank (s : string) : trimStart s = "" <-> blank s.
Proof.
  split.
  - apply (trimStart_blank_upto (String.length s)). lia.
  - intros H. induction H as [|space rest Hin _ IH]; [reflexivity|].
    now rewrite trimStart_space.
Qed.

(** What [trimStart] returns does not start with white space. *)
Lemma trimStart_twice_upto (n : nat) (s : string) :
  (String.length s <= n)%nat -> trimStart (trimStart s) = trimStart s.
Proof.
  revert s. induction n as [|n IH]; intros s Hlen.
  - destruct s; [reflexivity | simpl in Hlen; lia].
  - destruct s as [|a rest]; [reflexivity|].
    destruct (is_space (String a "")) eqn:E1.
    { cbn [trimStart]. rewrite E1. apply IH. simpl in Hlen. lia. }
    destruct rest as [|b rest2].
    { cbn [trimStart]. rewrite E1. cbn [trimStart]. now rewrite E1. }
    destruct (is_space (String a (String b ""))) eqn:E2.
    { cbn [trimStart]. rewrite E1, E2. apply IH. simpl in Hlen. lia. }
    destruct rest2 as [|c rest3].
    { cbn [trimStart]. rewrite E1, E2. cbn [trimStart]. now rewrite E1, E2. }
    destruct (is_space (String a (String b (String c "")))) eqn:E3.
    { cbn [trimStart]. rewrite E1, E2, E3. apply IH. simpl in Hlen. lia. }
    cbn [trimStart]. rewrite E1, E2, E3. cbn [trimStart].
    now rewrite E1, E2, E3.
Qed.

Lemma trimEnd_empty (s : string) : trimEnd s = "" <-> trimStart s = "".
Proof.
  destruct s as [|c rest]; [split; reflexivity|]. cbn [trimEnd].
  destruct (trimStart (String c rest)) eqn:E; simpl.
  - split; reflexivity.
  - split; discriminate.
Qed.

(** The test [!s.trim()] of the source holds exactly for the texts made
    of white space only. *)
Lemma trim_blank (s : string) : is_empty (trim s) = true <-> blank s.
Proof.
  rewrite <- trimStart_blank. unfold trim.
  assert (is_empty (trimEnd (trimStart s)) = true
          <-> trimEnd (trimStart s) = "") as ->.
  { destruct (trimEnd (trimStart s)); simpl; split; congruence. }
  rewrite trimEnd_empty.
  rewrite (trimStart_twice_upto (String.length s) s (Nat.le_refl _)).
  reflexivity.
Qed.

(** White space beyond one byte: a query or a title that is a
    no-break space (U+00A0) is blank, and an ideographic space (U+3000)
    is trimmed from a text like a space. *)
Lemma trim_beyond_one_byte :
  let no_break_space := String "194" (String "160" "") in
  let ideographic_space := String "227" (String "128" (String "128" "")) in
  blank no_break_space /\
  searchPosts no_break_space session = (Returned (posts session), session) /\
  trim (ideographic_space ++ " a b" ++ no_break_space) = "a b".
Proof.
  cbv zeta. split; [apply trim_blank; reflexivity|]. split; reflexivity.
Qed.

Lemma not_blank_trim (s : string) : ~ blank s -> is_empty (trim s) = false.
Proof.
  intros H. destruct (is_empty (trim s)) eqn:E; [|reflexivity].
  exfalso. apply H. now apply trim_blank.
Qed.

(** The post form calls [onSubmit] exactly for titles that are not made
    of white space only.  A blank title gives the error "Title is
    required" and nothing else happens.  Otherwise [onSubmit] gets the
    fields as typed (title not trimmed) and the form never throws:
    whatever [onSubmit] does, the form returns with the submitting flag
    lowered, navigates to the post it was given or back after [true],
    and records an error when [onSubmit] threw. *)
Theorem PostForm_calls_onSubmit_for_real_titles onSubmit
  (repostOf : option string) (f : PostForm.state) (w : World) :
  (blank (PostForm.title f) ->
   PostForm.handleSubmit onSubmit repostOf f w
   = (Returned
        (PostForm.mk (PostForm.title f) (PostForm.content f)
                     (PostForm.imageUrl f) (PostForm.flag f)
                     (PostForm.isSubmitting f) (Some "Title is required")
                     (PostForm.navigated f)),
      w)) /\
  (~ blank (PostForm.title f) ->
   let call := onSubmit (PostForm.title f) (PostForm.content f)
                        (Some (PostForm.imageUrl f)) (PostForm.flag f)
                        repostOf in
   exists f',
     PostForm.handleSubmit onSubmit repostOf f w = (Returned f', after call w) /\
     PostForm.isSubmitting f' = false /\
     PostForm.title f' = PostForm.title f /\
     match fst (call w) with
     | Returned (inl post) =>
         PostForm.validationError f' = None /\
         PostForm.navigated f'
         = PostForm.navigated f ++ [to_path ("/post/" ++ Post.id post)%string]
     | Returned (inr true) =>
         PostForm.validationError f' = None /\
         PostForm.navigated f' = PostForm.navigated f ++ [back]
     | Returned (inr false) =>
         PostForm.validationError f' = None /\
         PostForm.navigated f' = PostForm.navigated f ++ []
     | Thrown _ =>
         PostForm.validationError f'
         = Some "An error occurred while submitting your post" /\
         PostForm.navigated f' = PostForm.navigated f ++ []
     end).
Proof.
  split.
  - intros Hblank. apply trim_blank in Hblank.
    unfold PostForm.handleSubmit. now rewrite Hblank.
  - intros Hreal call. apply not_blank_trim in Hreal.
    unfold PostForm.handleSubmit, try_catch, after. rewrite Hreal.
    async_unfold. cbv beta. fold call.
    destruct (call w) as [[[post|[|]]|e] w1]; eexists; repeat split.
Qed.

Lemma PostForm_calls_onSubmit_for_real_titles_witness :
  blank "  " /\ ~ blank " a " /\
  fst (PostForm.handleSubmit (fun _ _ _ _ _ => throw (JsError "never"))
         None (form_titled "  ") session)
  = Returned (PostForm.mk "  " "World" "" (Some News) false
                          (Some "Title is required") []) /\
  exists f',
    fst (PostForm.handleSubmit (fun _ _ _ _ _ => throw (JsError "boom"))
           None (form_titled " a ") session) = Returned f' /\
    PostForm.isSubmitting f' = false.
Proof.
  assert (blank "  ") as Hb by (apply trim_blank; reflexivity).
  assert (~ blank " a ") as Hr
      by (intros H; apply trim_blank in H; discriminate).
  destruct (PostForm_calls_onSubmit_for_real_titles
              (fun _ _ _ _ _ => throw (JsError "never")) None
              (form_titled "  ") session) as [Hblank _].
  destruct (PostForm_calls_onSubmit_for_real_titles
              (fun _ _ _ _ _ => throw (JsError "boom")) None
              (form_titled " a ") session) as [_ Hreal].
  destruct (Hreal Hr) as (f' & Hrun & Hflag & _).
  split; [exact Hb|]. split; [exact Hr|].
  split; [now rewrite (Hblank Hb)|].
  exists f'. now rewrite Hrun.
Defined.

Lemma createComment_refused (w : World) (u : User.t) (message : string)
  (post_id content : string) :
  user w = Some u -> outcome 0 w = Some message ->
  fst (createComment post_id content w) = Thrown (PostgrestError message) /\
  Remote.comments (remote (after (createComment post_id content) w))
  = Remote.comments (remote w).
Proof.
  intros Hu H0. unfold after, createComment. store_unfold. async_unfold.
  cbv beta. world_simpl. rewrite Hu. cbv beta iota. next_outcome H0 H0 H0.
  split; reflexivity.
Qed.

(** The comment box: a text made of white space only is not sent and
    nothing changes.  Any other text is sent as typed; when the comment
    is stored the box is emptied, and when [createComment] throws (no
    identity, or the store refuses) the box keeps the text and the
    handler still returns, with the submitting flag lowered. *)
Theorem CommentSection_keeps_text_on_failure (postId : string)
  (s : CommentSection.state) (w : World) :
  (blank (CommentSection.content s) ->
   CommentSection.handleSubmit postId s w = (Returned s, w)) /\
  (~ blank (CommentSection.content s) ->
   exists s',
     CommentSection.handleSubmit postId s w
     = (Returned s',
        after (createComment postId (CommentSection.content s)) w) /\
     CommentSection.isSubmitting s' = false /\
     CommentSection.isDeleting s' = CommentSection.isDeleting s /\
     (forall u, user w = Some u -> outcome 0 w = None ->
                CommentSection.content s' = "" /\
                Remote.comments
                  (remote (after (createComment postId
                                    (CommentSection.content s)) w))
                = Remote.comments (remote w)
                  ++ [created_comment w u postId (CommentSection.content s)]) /\
     (user w = None \/ outcome 0 w <> None ->
      CommentSection.content s' = CommentSection.content s /\
      Remote.comments
        (remote (after (createComment postId (CommentSection.content s)) w))
      = Remote.comments (remote w))).
Proof.
  split.
  - intros Hblank. apply trim_blank in Hblank.
    unfold CommentSection.handleSubmit. now rewrite Hblank.
  - intros Hreal. apply not_blank_trim in Hreal.
    unfold CommentSection.handleSubmit, try_catch, after. rewrite Hreal.
    async_unfold. cbv beta.
    destruct (user w) as [u|] eqn:Hu.
    + destruct (outcome 0 w) as [message|] eqn:H0.
      * destruct (createComment_refused w u message postId
                    (CommentSection.content s) Hu H0) as [Hrun Hkeep].
        unfold after in Hkeep.
        destruct (createComment postId (CommentSection.content s) w)
          as [[c|e] w1]; [discriminate|].
        eexists. cbn [fst snd] in *.
        do 3 (split; [reflexivity|]). split.
        -- intros v _ Hnone. discriminate.
        -- intros _. split; [reflexivity | exact Hkeep].
      * assert (hd None (outages w) = None) as Hc
            by (rewrite hd_nth0; exact H0).
        destruct (createComment_run w u postId (CommentSection.content s)
                    Hu Hc) as (w1 & Hrun & Hstored & _).
        rewrite Hrun. eexists. cbn [fst snd].
        do 3 (split; [reflexivity|]). split.
        -- intros v Hv _. inversion Hv. subst v.
           split; [reflexivity | exact Hstored].
        -- intros [Hnone|Hne]; [discriminate | congruence].
    + assert (createComment postId (CommentSection.content s) w
              = (Thrown (JsError "User not authenticated"),
                 set_isLoading true w)) as Hrun.
      { unfold createComment. async_unfold. cbv beta. world_simpl.
        rewrite Hu. reflexivity. }
      rewrite Hrun. eexists. cbn [fst snd].
      do 3 (split; [reflexivity|]). split.
      * intros v Hv. discriminate.
      * intros _. split; reflexivity.
Qed.

Lemma CommentSection_keeps_text_on_failure_witness :
  blank "   " /\ ~ blank " hi" /\
  CommentSection.handleSubmit "p1" (box_with "   ") session
  = (Returned (box_with "   "), session) /\
  fst (CommentSection.handleSubmit "p1" (box_with " hi") session)
  = Returned (box_with "") /\
  fst (CommentSection.handleSubmit "p1" (box_with " hi") signed_out)
  = Returned (box_with " hi").
Proof.
  assert (blank "   ") as Hb by (apply trim_blank; reflexivity).
  assert (~ blank " hi") as Hr
      by (intros H; apply trim_blank in H; discriminate).
  destruct (CommentSection_keeps_text_on_failure "p1" (box_with "   ") session)
    as [Hblank _].
  destruct (CommentSection_keeps_text_on_failure "p1" (box_with " hi") session)
    as [_ Hsent].
  destruct (Hsent Hr) as (s1 & Hrun & _).
  split; [exact Hb|]. split; [exact Hr|]. split; [exact (Hblank Hb)|].
  split; reflexivity.
Defined.

(** ** The post page *)

(** The post page counts an upvote whenever [upvotePost] returns: with
    an identity the shown count goes up by one and the page keeps the
    rest of its state, also when the store holds no such post or refuses
    the update; the state outside the page is that left by [upvotePost].
    Without an identity the handler swallows the error and nothing
    changes. *)
Theorem PostPage_counts_every_returned_upvote (shown : Post.t)
  (s : PostPage.state) (w : World) :
  PostPage.post s = Some shown ->
  (forall u, user w = Some u ->
     PostPage.handleUpvote s w
     = (Returned
          (PostPage.mk (Some (raised 1 shown)) (PostPage.comments s)
                       (PostPage.originalPost s) (PostPage.localLoading s)
                       (PostPage.isDeleting s) (PostPage.navigated s)),
        after (upvotePost (Post.id shown)) w)) /\
  (user w = None -> PostPage.handleUpvote s w = (Returned s, w)).
Proof.
  intros Hshown. unfold PostPage.handleUpvote, try_catch, after.
  rewrite Hshown. split.
  - intros u Hu. async_unfold. cbv beta.
    assert (exists w1, upvotePost (Post.id shown) w = (Returned tt, w1))
      as (w1 & Hrun).
    { unfold upvotePost. async_unfold. cbv beta. rewrite Hu. cbv beta iota.
      rewrite posts_select_single_run.
      destruct (hd None (outages w)); [eexists; reflexivity|].
      destruct (single _); [|eexists; reflexivity].
      cbn [option_map]. cbv beta iota. unfold posts_update. async_unfold.
      rewrite request_run.
      destruct (hd None (outages (consume w))); eexists; reflexivity. }
    rewrite Hrun. reflexivity.
  - intros Hu. unfold upvotePost. async_unfold. cbv beta. rewrite Hu.
    reflexivity.
Qed.

Lemma PostPage_counts_every_returned_upvote_witness :
  let ghost := post_of "p9" "carol" 9 3 in
  PostPage.post (page_showing ghost) = Some ghost /\
  user session = Some alice /\
  entries "p9" (Remote.posts (remote session)) = [] /\
  fst (PostPage.handleUpvote (page_showing ghost) session)
  = Returned (page_showing (post_of "p9" "carol" 9 4)).
Proof.
  destruct (PostPage_counts_every_returned_upvote (post_of "p9" "carol" 9 3)
              (page_showing (post_of "p9" "carol" 9 3)) session eq_refl)
    as [Hup _].
  cbv zeta. rewrite (Hup alice eq_refl). repeat split.
Defined.

Lemma getPostById_run (postId : string) (w : World) :
  getPostById postId w
  = (Returned
       (match outcome 0 w with
        | Some _ => None
        | None => single (entries postId (Remote.posts (remote w)))
        end),
     consume w).
Proof.
  unfold getPostById. async_unfold. cbv beta.
  rewrite posts_select_single_run, hd_nth0. reflexivity.
Qed.

Lemma getCommentsForPost_run (postId : string) (w : World) :
  getCommentsForPost postId w
  = (Returned
       (match outcome 0 w with
        | Some _ => []
        | None => order_by Comment.created_at true
                    (comments_on postId (Remote.comments (remote w)))
        end),
     consume w).
Proof.
  unfold getCommentsForPost. async_unfold. cbv beta.
  rewrite request_run, hd_nth0. fold (outcome 0 w).
  destruct (outcome 0 w); reflexivity.
Qed.

Lemma outcome_consume (k : nat) (w : World) :
  outcome k (consume w) = outcome (S k) w.
Proof.
  unfold outcome. simpl. destruct (outages w) as [|o rest]; simpl.
  - destruct k; reflexivity.
  - reflexivity.
Qed.

(** [fetchData] of the post page.  When the lookup gives no post, the
    page goes to "/404" and keeps what it showed.  When it finds the
    post, the page shows it with its stored comments, oldest first.  A
    post without repost reference leaves the page's original post as it
    was (none on a fresh page); for a repost the page looks up the
    referenced post once and shows what that lookup gives, none when the
    reference dangles, without following the original's own
    reference.  The page never changes store, mirror or identity. *)
Theorem PostPage_fetchData_resolves_one_hop (postId : string)
  (s : PostPage.state) (w : World) :
  postId <> "" ->
  let s' := post_page_after (PostPage.fetchData (Some postId)) s w in
  let lookup := match outcome 0 w with
                | Some _ => None
                | None => single (entries postId (Remote.posts (remote w)))
                end in
  fst (PostPage.fetchData (Some postId) s w) = Returned s' /\
  untouched w (after (PostPage.fetchData (Some postId) s) w) /\
  PostPage.localLoading s' = false /\
  (lookup = None ->
   PostPage.navigated s' = PostPage.navigated s ++ [navigate (to_path "/404")] /\
   PostPage.post s' = PostPage.post s /\
   PostPage.originalPost s' = PostPage.originalPost s) /\
  (forall found,
      lookup = Some found ->
      PostPage.post s' = Some found /\
      PostPage.navigated s' = PostPage.navigated s /\
      (outcome 1 w = None ->
       Permutation (PostPage.comments s')
                   (comments_on postId (Remote.comments (remote w))) /\
       ascending Comment.created_at (PostPage.comments s')) /\
      (truthy (Post.repost_of found) = false ->
       PostPage.originalPost s' = PostPage.originalPost s) /\
      (forall original,
          Post.repost_of found = Some original -> original <> "" ->
          PostPage.originalPost s'
          = match outcome 2 w with
            | Some _ => None
            | None => single (entries original (Remote.posts (remote w)))
            end)).
Proof.
  intros Hid s' lookup. subst s' lookup.
  assert (is_empty postId = false) as Hne
      by (destruct postId; [now contradiction Hid | reflexivity]).
  unfold post_page_after, after, PostPage.fetchData, try_catch. rewrite Hne.
  async_unfold. cbv beta. rewrite getPostById_run.
  destruct (match outcome 0 w with
            | Some _ => None
            | None => single (entries postId (Remote.posts (remote w)))
            end) as [found|] eqn:Hlookup; cbv beta iota.
  - rewrite getCommentsForPost_run, outcome_consume. world_simpl.
    destruct (Post.repost_of found) as [original|] eqn:Hrep.
    + destruct (truthy (Some original)) eqn:Htruthy; cbv beta iota.
      * rewrite getPostById_run, !outcome_consume. world_simpl.
        cbn [fst snd]. split; [reflexivity|]. split; [repeat split|].
        split; [reflexivity|]. split; [discriminate|].
        intros f Hf. inversion Hf. subst f. cbn [PostPage.post
          PostPage.navigated PostPage.comments PostPage.originalPost].
        split; [reflexivity|]. split; [reflexivity|]. split.
        -- intros H1. rewrite H1.
           split; [apply order_by_perm | apply order_by_ascending].
        -- split; [rewrite Hrep, Htruthy; discriminate|].
           intros o Ho _. rewrite Hrep in Ho. inversion Ho. subst o.
           reflexivity.
      * cbn [fst snd]. split; [reflexivity|]. split; [repeat split|].
        split; [reflexivity|]. split; [discriminate|].
        intros f Hf. inversion Hf. subst f. cbn [PostPage.post
          PostPage.navigated PostPage.comments PostPage.originalPost].
        split; [reflexivity|]. split; [reflexivity|]. split.
        -- intros H1. rewrite H1.
           split; [apply order_by_perm | apply order_by_ascending].
        -- split; [reflexivity|].
           intros o Ho Hoe. rewrite Hrep in Ho. inversion Ho. subst o.
           simpl in Htruthy. apply negb_false_iff, str_eq_true in Htruthy.
           contradiction.
    + cbn [fst snd]. split; [reflexivity|]. split; [repeat split|].
      split; [reflexivity|]. split; [discriminate|].
      intros f Hf. inversion Hf. subst f. cbn [PostPage.post
        PostPage.navigated PostPage.comments PostPage.originalPost].
      split; [reflexivity|]. split; [reflexivity|]. split.
      * intros H1. rewrite H1.
        split; [apply order_by_perm | apply order_by_ascending].
      * split; [reflexivity|]. intros o Ho. rewrite Hrep in Ho. discriminate.
  - cbn [fst snd]. split; [reflexivity|]. split; [repeat split|].
    split; [reflexivity|]. split; [|discriminate].
    intros _. repeat split.
Qed.

Lemma PostPage_fetchData_resolves_one_hop_witness :
  "p3" <> "" /\
  post_page_after (PostPage.fetchData (Some "p3")) empty_post_page
                  repost_session
  = PostPage.mk (Some (repost_of_post "p3" "p2" 3)) []
                (Some (repost_of_post "p2" "p1" 2)) false false [] /\
  post_page_after (PostPage.fetchData (Some "p1")) empty_post_page
                  repost_session
  = PostPage.mk (Some (post_of "p1" "alice" 1 0))
                [comment_of "c2" "p1" "bob"; comment_of "c1" "p1" "alice"]
                None false false [] /\
  PostPage.navigated
    (post_page_after (PostPage.fetchData (Some "p9")) empty_post_page
                     repost_session) = [navigate (to_path "/404")].
Proof.
  assert ("p3" <> "") as Hne by discriminate.
  destruct (PostPage_fetchData_resolves_one_hop "p3" empty_post_page
              repost_session Hne) as (Hrun & _).
  split; [exact Hne|]. repeat split.
Defined.

(** ** The edit page and the create page *)

(** The edit page loads a post only for its owner.  When the lookup
    finds the post and the identity owns it, the page holds the post and
    goes nowhere.  When somebody else owns it, or nobody is signed in,
    the page keeps what it held, shows "Access denied" and replaces the
    location by the post's page.  When the lookup gives nothing it goes
    to "/404".  It always lowers its loading flag and changes neither
    store nor mirror. *)
Theorem EditPostPage_loads_only_for_the_owner (postId : string)
  (s : EditPostPage.state) (w : World) :
  postId <> "" ->
  let s' := edit_page_after (EditPostPage.fetchPost (Some postId)) s w in
  let w' := after (EditPostPage.fetchPost (Some postId) s) w in
  let lookup := match outcome 0 w with
                | Some _ => None
                | None => single (entries postId (Remote.posts (remote w)))
                end in
  fst (EditPostPage.fetchPost (Some postId) s w) = Returned s' /\
  untouched w w' /\ EditPostPage.localLoading s' = false /\
  (lookup = None ->
   EditPostPage.post s' = EditPostPage.post s /\
   EditPostPage.navigated s' = EditPostPage.navigated s ++ [navigate (to_path "/404")] /\
   toasts w' = toasts w) /\
  (forall found u,
      lookup = Some found -> user w = Some u ->
      Post.user_id found = User.id u ->
      EditPostPage.post s' = Some found /\
      EditPostPage.navigated s' = EditPostPage.navigated s /\
      toasts w' = toasts w) /\
  (forall found,
      lookup = Some found ->
      (forall u, user w = Some u -> Post.user_id found <> User.id u) ->
      EditPostPage.post s' = EditPostPage.post s /\
      EditPostPage.navigated s'
      = EditPostPage.navigated s ++ [navigate_replace ("/post/" ++ postId)%string] /\
      toasts w'
      = toasts w ++ [mkToast destructive "Access denied"
                             "You can only edit your own posts."]).
Proof.
  intros Hid s' w' lookup. subst s' w' lookup.
  assert (is_empty postId = false) as Hne
      by (destruct postId; [now contradiction Hid | reflexivity]).
  unfold edit_page_after, after, EditPostPage.fetchPost, try_catch.
  rewrite Hne. async_unfold. cbv beta. rewrite getPostById_run.
  world_simpl.
  destruct (match outcome 0 w with
            | Some _ => None
            | None => single (entries postId (Remote.posts (remote w)))
            end) as [found|] eqn:Hlookup; cbv beta iota.
  - destruct (user w) as [u|] eqn:Hu.
    + destruct (str_eq (Post.user_id found) (User.id u)) eqn:Hown;
        cbn [fst snd]; split; [reflexivity | | reflexivity | ];
        (split; [repeat split|]); (split; [reflexivity|]);
        (split; [discriminate|]).
      * split.
        -- intros f v Hf Hv Ho. inversion Hf. subst f. repeat split.
        -- intros f Hf Hother. exfalso. inversion Hf. subst f.
           apply (Hother u eq_refl). now apply str_eq_true.
      * split.
        -- intros f v Hf Hv Ho. exfalso. inversion Hf. inversion Hv.
           subst f v. apply str_eq_false in Hown. contradiction.
        -- intros f Hf Hother. repeat split.
    + cbn [fst snd]. split; [reflexivity|]. split; [repeat split|].
      split; [reflexivity|]. split; [discriminate|]. split.
      * intros f v Hf Hv. discriminate.
      * intros f Hf Hother. repeat split.
  - cbn [fst snd]. split; [reflexivity|]. split; [repeat split|].
    split; [reflexivity|]. split; [intros _; repeat split|].
    split; intros; discriminate.
Qed.

Lemma EditPostPage_loads_only_for_the_owner_witness :
  "p2" <> "" /\
  edit_page_after (EditPostPage.fetchPost (Some "p2")) empty_edit_page session
  = EditPostPage.mk None false [navigate_replace "/post/p2"] /\
  edit_page_after (EditPostPage.fetchPost (Some "p1")) empty_edit_page session
  = EditPostPage.mk (Some (post_of "p1" "alice" 1 0)) false [].
Proof.
  assert ("p2" <> "") as Hne by discriminate.
  destruct (EditPostPage_loads_only_for_the_owner "p2" empty_edit_page
              session Hne) as (Hrun & _).
  split; [exact Hne|]. repeat split.
Defined.

(** A repost parameter that no stored post answers to is kept by the
    create page: [fetchRepostInfo] redirects to "/create" and lowers the
    loading flag but leaves the id in [repostId], and a post then
    submitted through the page is stored with that id as its repost
    reference.  [handleSubmit] itself never throws: it returns [true]
    after going to the new post's page. *)
Theorem CreatePostPage_keeps_invalid_repost_id (repost : string)
  (s : CreatePostPage.state) (w : World) (u : User.t)
  (title content : string) (imageUrl : option string)
  (flag : option PostFlag) :
  repost <> "" -> user w = Some u -> calm 2 w ->
  single (entries repost (Remote.posts (remote w))) = None ->
  let s1 := create_page_after (CreatePostPage.fetchRepostInfo (Some repost)) s w in
  let w1 := after (CreatePostPage.fetchRepostInfo (Some repost) s) w in
  let created := created_post w u title content imageUrl flag (Some repost) in
  CreatePostPage.repostId s1 = Some repost /\
  CreatePostPage.originalPost s1 = CreatePostPage.originalPost s /\
  CreatePostPage.localLoading s1 = false /\
  CreatePostPage.navigated s1
  = CreatePostPage.navigated s ++ [navigate_replace "/create"] /\
  untouched w w1 /\
  fst (CreatePostPage.handleSubmit title content imageUrl flag s1 w1)
  = Returned
      (true,
       CreatePostPage.mk (Some repost) (CreatePostPage.originalPost s) false
         (CreatePostPage.navigated s
          ++ [navigate_replace "/create"]
          ++ [navigate (to_path ("/post/" ++ Post.id created)%string)])) /\
  Remote.posts
    (remote (after (CreatePostPage.handleSubmit title content imageUrl flag s1)
                   w1))
  = Remote.posts (remote w) ++ [created] /\
  Post.repost_of created = Some repost.
Proof.
  intros Hid Hu Hcalm Hnone s1 w1 created. subst s1 w1.
  assert (outcome 0 w = None) as H0 by (apply Hcalm; lia).
  assert (outcome 1 w = None) as H1 by (apply Hcalm; lia).
  assert (truthy (Some repost) = true) as Htruthy.
  { simpl. apply negb_true_iff, str_eq_false. exact Hid. }
  assert (CreatePostPage.fetchRepostInfo (Some repost) s w
          = (Returned
               (CreatePostPage.mk (Some repost) (CreatePostPage.originalPost s)
                  false (CreatePostPage.navigated s ++ [navigate_replace "/create"])),
             consume w)) as Hfetch.
  { unfold CreatePostPage.fetchRepostInfo, try_catch. rewrite Htruthy.
    async_unfold. cbv beta. rewrite getPostById_run, H0, Hnone. reflexivity. }
  unfold create_page_after, after. rewrite Hfetch. cbn [fst snd].
  do 4 (split; [reflexivity|]). split; [repeat split|].
  assert (hd None (outages (consume w)) = None) as Hc.
  { rewrite hd_nth0. fold (outcome 0 (consume w)).
    now rewrite outcome_consume. }
  destruct (createPost_run (consume w) u title content imageUrl flag
              (Some repost) Hu Hc) as (w2 & Hrun & Hstored & _).
  unfold CreatePostPage.handleSubmit, try_catch. async_unfold. cbv beta.
  cbn [CreatePostPage.repostId CreatePostPage.originalPost
       CreatePostPage.navigated].
  rewrite Hrun. cbn [fst snd]. split; [|split; [exact Hstored | reflexivity]].
  now rewrite <- app_assoc.
Qed.

Lemma CreatePostPage_keeps_invalid_repost_id_witness :
  "p404" <> "" /\ user session = Some alice /\ calm 2 session /\
  single (entries "p404" (Remote.posts (remote session))) = None /\
  CreatePostPage.repostId
    (create_page_after (CreatePostPage.fetchRepostInfo (Some "p404"))
                       empty_create_page session) = Some "p404" /\
  Remote.posts
    (remote
       (after (CreatePostPage.handleSubmit "Hi" "all" None None
                 (create_page_after
                    (CreatePostPage.fetchRepostInfo (Some "p404"))
                    empty_create_page session))
              (after (CreatePostPage.fetchRepostInfo (Some "p404")
                        empty_create_page) session)))
  = Remote.posts forum
    ++ [Post.mk "id-4" "Hi" "all" None 10 0 "alice" (Some "Alice") None
                (Some "p404")].
Proof.
  assert ("p404" <> "") as Hne by discriminate.
  assert (calm 2 session) as Hcalm by (intros [|[|k]] _; reflexivity).
  destruct (CreatePostPage_keeps_invalid_repost_id "p404" empty_create_page
              session alice "Hi" "all" None None Hne eq_refl Hcalm eq_refl)
    as (Hkept & _ & _ & _ & _ & _ & Hstored & _).
  split; [exact Hne|]. split; [reflexivity|]. split; [exact Hcalm|].
  split; [reflexivity|]. split; [exact Hkept | exact Hstored].
Defined.

(** ** Identities *)

Lemma nearest_even_bounds (q : Q) :
  (q - (1 # 2) <= inject_Z (nearest_even q) <= q + (1 # 2))%Q.
Proof.
  unfold nearest_even.
  pose proof (Qfloor_le q) as Hlo. pose proof (Qlt_floor q) as Hhi.
  rewrite inject_Z_plus in Hhi. change (inject_Z 1) with 1%Q in Hhi.
  destruct (Qcompare_spec (q - inject_Z (Qfloor q)) (1 # 2)) as [He|Hl|Hg];
    [destruct (Z.even (Qfloor q))| |];
    rewrite ?inject_Z_plus; change (inject_Z 1) with 1%Q; lra.
Qed.

Lemma binade_below_16 (q : Q) : (q < 16)%Q -> binade q <= 3.
Proof.
  intros Hq. unfold binade. destruct (Qle_bool 1 q).
  - change 3 with (Z.log2 15). apply Z.log2_le_mono.
    assert (Qfloor q < 16) as Hf; [|lia].
    rewrite Zlt_Qlt. eapply Qle_lt_trans; [apply Qfloor_le | exact Hq].
  - pose proof (Z.log2_up_nonneg (Qceiling (/ q))). lia.
Qed.

Lemma to_double_near (q : Q) :
  (0 <= q)%Q -> (q < 16)%Q ->
  (0 <= to_double q <= q + (1 # 1125899906842624))%Q.
Proof.
  intros H0 H16. unfold to_double.
  destruct (Qeq_bool q 0) eqn:Ez.
  { split; [apply Qle_refl|]. lra. }
  set (e := Z.max (binade (Qabs q) - 52) (-1074)).
  assert (e <= -49) as He.
  { assert (binade (Qabs q) <= 3); [|lia].
    apply binade_below_16. now rewrite Qabs_pos. }
  assert (0 < 2 ^ e)%Q as Hpos by (apply Qpower_0_lt; reflexivity).
  assert (2 ^ e <= 2 ^ (-49))%Q as Hle
      by (apply Qpower_le_compat_l; [exact He | discriminate]).
  change (2 ^ (-49))%Q with (1 # 562949953421312)%Q in Hle.
  destruct (nearest_even_bounds (q / 2 ^ e)) as [Hlo Hhi].
  set (m := inject_Z (nearest_even (q / 2 ^ e))) in *.
  assert (q / 2 ^ e * 2 ^ e == q)%Q as Hq.
  { field. intros Hz. rewrite Hz in Hpos. discriminate. }
  assert (0 <= q / 2 ^ e)%Q as Hnn.
  { apply Qle_shift_div_l; [exact Hpos|]. lra. }
  assert (0 <= m)%Q as Hm0.
  { subst m. change 0%Q with (inject_Z 0). rewrite <- Zle_Qle.
    assert (-1 < nearest_even (q / 2 ^ e)) as Hz; [|lia].
    rewrite Zlt_Qlt. change (inject_Z (-1)) with (-1)%Q. lra. }
  split.
  - apply Qmult_le_0_compat; lra.
  - assert (m * 2 ^ e <= (q / 2 ^ e + (1 # 2)) * 2 ^ e)%Q as Hm
        by (apply Qmult_le_compat_r; lra).
    assert ((q / 2 ^ e + (1 # 2)) * 2 ^ e == q + (1 # 2) * 2 ^ e)%Q as Hd.
    { rewrite Qmult_plus_distr_l, Hq. reflexivity. }
    rewrite Hd in Hm. 
    assert ((1 # 2) * 2 ^ e <= 1 # 1125899906842624)%Q.
    { assert ((1 # 562949953421312) * (1 # 2) == 1 # 1125899906842624)%Q as <- by reflexivity.
      lra. }
    lra.
Qed.

Lemma pick_in_range (words : list string) (r : Q) :
  List.length words = 10%nat -> (0 <= r)%Q -> (r <= max_random)%Q ->
  In (pick words r) words.
Proof.
  intros Hlen H0 H1. unfold pick, max_random in *. rewrite Hlen.
  change (inject_Z (Z.of_nat 10)) with 10%Q.
  destruct (to_double_near (r * 10)) as [Hlo Hhi]; [lra | lra |].
  set (d := to_double (r * 10)) in *.
  assert (0 <= Qfloor d < 10) as [Hf0 Hf10].
  { split.
    - rewrite <- (Qfloor_Z 0). now apply Qfloor_resp_le.
    - rewrite Zlt_Qlt. eapply Qle_lt_trans; [apply Qfloor_le|].
      change (inject_Z 10) with 10%Q. lra. }
  assert (In (nth (Z.to_nat (Qfloor d)) words "undefined") words) as Hin.
  { apply nth_In. rewrite Hlen. lia. }
  destruct (Qfloor d) eqn:E; [exact Hin | exact Hin | lia].
Qed.

(** [Math.random()] returns a double that is at least 0 and below 1,
    hence at most [max_random].  For such draws the index
    [Math.floor(r * 10)], its product computed in double precision, is
    within the word lists: the generated name is an adjective of the
    list followed by a noun of the list, never "undefined", and two
    draws are used up. *)
Theorem generateRandomUsername_in_range (w : World) (r1 r2 : Q)
  (rest : list Q) :
  entropy w = r1 :: r2 :: rest ->
  (0 <= r1)%Q -> (r1 <= max_random)%Q ->
  (0 <= r2)%Q -> (r2 <= max_random)%Q ->
  exists adjective noun,
    In adjective adjectives /\ In noun nouns /\
    generateRandomUsername w
    = (Returned (adjective ++ noun)%string, set_entropy rest w).
Proof.
  intros He Ha0 Ha1 Hn0 Hn1.
  exists (pick adjectives r1), (pick nouns r2).
  split; [apply pick_in_range; auto|].
  split; [apply pick_in_range; auto|].
  unfold generateRandomUsername, Math_random. async_unfold. cbv beta.
  rewrite He. world_simpl. reflexivity.
Qed.

Lemma generateRandomUsername_in_range_witness :
  entropy edge_draws = [double_0_7; max_random] /\
  (0 <= double_0_7)%Q /\ (double_0_7 <= max_random)%Q /\
  (0 <= max_random)%Q /\ (max_random <= max_random)%Q /\
  fst (generateRandomUsername edge_draws) = Returned "EcoVoice" /\
  (exists adjective noun,
      In adjective adjectives /\ In noun nouns /\
      generateRandomUsername edge_draws
      = (Returned (adjective ++ noun)%string, set_entropy [] edge_draws)) /\
  pick nouns (1 - (1 # 1152921504606846976)) = "undefined".
Proof.
  assert (0 <= double_0_7)%Q as A0 by (unfold Qle, Z.le; simpl; discriminate).
  assert (double_0_7 <= max_random)%Q as A1
      by (unfold Qle, Z.le; simpl; discriminate).
  assert (0 <= max_random)%Q as N0 by (unfold Qle, Z.le; simpl; discriminate).
  assert (max_random <= max_random)%Q as N1
      by (unfold Qle, Z.le; simpl; discriminate).
  split; [reflexivity|]. split; [exact A0|]. split; [exact A1|].
  split; [exact N0|]. split; [exact N1|].
  split; [vm_compute; reflexivity|].
  split; [|vm_compute; reflexivity].
  apply (generateRandomUsername_in_range edge_draws double_0_7 max_random []
           eq_refl A0 A1 N0 N1).
Defined.

Lemma user_profiles_select_single_run (x : string) (w : World) :
  user_profiles_select_single x w
  = (Returned
       (match outcome 0 w with
        | Some _ => None
        | None => single (filter (fun row => str_eq (User.id row) x)
                                 (Remote.user_profiles (remote w)))
        end),
     consume w).
Proof.
  unfold user_profiles_select_single. async_unfold. cbv beta.
  rewrite request_run, hd_nth0. fold (outcome 0 w).
  destruct (outcome 0 w); reflexivity.
Qed.

Lemma user_profiles_insert_run (row : User.t) (w : World) :
  user_profiles_insert row w
  = (Returned (outcome 0 w),
     match outcome 0 w with
     | Some _ => consume w
     | None =>
         set_feed (feed w ++ [])
           (set_remote
              (set_remote_profiles (Remote.user_profiles (remote w) ++ [row])
                                   (remote w))
              (consume w))
     end).
Proof.
  unfold user_profiles_insert. async_unfold. cbv beta.
  rewrite request_run, hd_nth0. fold (outcome 0 w).
  destruct (outcome 0 w); reflexivity.
Qed.

(** What the two fetches of the start-up leave alone. *)
Lemma fetches_frame (w : World) :
  let w' := after fetchComments (after fetchPosts w) in
  fst (fetchPosts w) = Returned tt /\
  fst (fetchComments (after fetchPosts w)) = Returned tt /\
  user w' = user w /\ remote w' = remote w /\ entropy w' = entropy w /\
  isLoading w' = isLoading w /\ outages w' = tl (tl (outages w)).
Proof.
  unfold after, fetchPosts, fetchComments. async_unfold. cbv beta.
  rewrite request_run.
  destruct (hd None (outages w)); cbn [fst snd]; rewrite request_run;
    world_simpl; destruct (hd None (tl (outages w))); repeat split.
Qed.

Lemma generateRandomUsername_frame (w : World) :
  let w' := after generateRandomUsername w in
  fst (generateRandomUsername w) = Returned (drawn_name w) /\
  user w' = user w /\ remote w' = remote w /\ outages w' = outages w /\
  feed w' = feed w /\ posts w' = posts w /\ comments w' = comments w /\
  isLoading w' = isLoading w /\ toasts w' = toasts w.
Proof.
  unfold drawn_name, after, generateRandomUsername, Math_random.
  async_unfold. cbv beta.
  destruct (entropy w) as [|r1 more] eqn:He; world_simpl; rewrite ?He;
    [|destruct more as [|r2 rest]]; cbn [fst snd]; world_simpl;
    repeat split.
Qed.

Lemma drawn_name_spec (w : World) :
  drawn_name w
  = (pick adjectives (nth 0 (entropy w) 0%Q)
     ++ pick nouns (nth 1 (entropy w) 0%Q))%string.
Proof.
  unfold drawn_name, generateRandomUsername, Math_random.
  async_unfold. cbv beta.
  destruct (entropy w) as [|r1 more] eqn:He; cbv beta iota; world_simpl.
  - rewrite He. reflexivity.
  - destruct more as [|r2 rest]; reflexivity.
Qed.

Lemma drawn_name_entropy (w1 w2 : World) :
  entropy w1 = entropy w2 -> drawn_name w1 = drawn_name w2.
Proof. intros He. now rewrite !drawn_name_spec, He. Qed.

Lemma kept_or_new_local (storage : option string) (uuid : string) :
  match storage with
  | Some stored => if truthy storage then stored else uuid
  | None => uuid
  end = kept_or_new storage uuid.
Proof.
  destruct storage as [stored|]; [|reflexivity]. simpl.
  destruct (str_eq stored ""); reflexivity.
Qed.

(** The remainder of [initializeApp] after the identity is resolved. *)
Lemma initializeApp_tail (storage' : option string) (w : World) :
  exists w',
    (fetchPosts ;; fetchComments ;; setIsLoading false ;; ret storage') w
    = (Returned storage', w') /\
    user w' = user w /\ remote w' = remote w /\ entropy w' = entropy w /\
    isLoading w' = false /\ outages w' = tl (tl (outages w)).
Proof.
  destruct (fetches_frame w) as (R1 & R2 & Hu & Hr & He & _ & Ho).
  unfold after in *. unfold bind at 1.
  destruct (fetchPosts w) as [[[]|e] w1]; [|discriminate]. cbn [fst snd] in *.
  unfold bind at 1.
  destruct (fetchComments w1) as [[[]|e] w2]; [|discriminate].
  cbn [fst snd] in *. async_unfold. eexists. split; [reflexivity|].
  world_simpl. repeat split; assumption.
Qed.

(** Closes a run of [initializeApp] whose identity branch has been
    computed: the two fetches and the lowering of the loading flag. *)
Ltac startup_tail W :=
  let R1 := fresh "R1" in let R2 := fresh "R2" in
  let Hu := fresh "Hu" in let Hr := fresh "Hr" in
  let He := fresh "He" in let Ho := fresh "Ho" in
  destruct (fetches_frame W) as (R1 & R2 & Hu & Hr & He & _ & Ho);
  unfold after in R1, R2, Hu, Hr, He, Ho;
  destruct (fetchPosts W) as [[[]|?] ?]; [|discriminate];
  cbn [fst snd] in R2, Hu, Hr, He, Ho;
  match type of R2 with
  | fst (fetchComments ?w1) = _ =>
      destruct (fetchComments w1) as [[[]|?] ?]; [|discriminate]
  end;
  cbn [fst snd] in Hu, Hr, He, Ho.

Lemma initializeApp_anonymous_new (storage : option string) (uuid : string)
  (w : World) :
  outcome 0 w = None -> outcome 1 w = None ->
  no_profile (kept_or_new storage uuid) (remote w) ->
  let newUser := User.mk (kept_or_new storage uuid) (Some (drawn_name w))
                         (mkPrefs true false system) None in
  exists w',
    initializeApp None storage uuid w
    = (Returned (Some (kept_or_new storage uuid)), w') /\
    user w' = Some newUser /\
    Remote.user_profiles (remote w')
    = Remote.user_profiles (remote w) ++ [newUser] /\
    Remote.posts (remote w') = Remote.posts (remote w) /\
    Remote.comments (remote w') = Remote.comments (remote w) /\
    isLoading w' = false /\
    outages w' = tl (tl (tl (tl (outages w)))).
Proof.
  intros H0 H1 Hnone newUser.
  assert (filter (fun row => str_eq (User.id row) (kept_or_new storage uuid))
                 (Remote.user_profiles (remote w)) = []) as Hfilter.
  { apply filter_none. intros row Hin. apply str_eq_false. now apply Hnone. }
  destruct (generateRandomUsername_frame (consume (set_isLoading true w)))
    as (Rn & Gu & Gr & Go & _).
  unfold after in Gu, Gr, Go.
  unfold initializeApp. rewrite kept_or_new_local. async_unfold. cbv beta.
  rewrite user_profiles_select_single_run.
  change (outcome 0 (set_isLoading true w)) with (outcome 0 w).
  rewrite H0. world_simpl. rewrite Hfilter. cbn [single]. cbv beta iota.
  rewrite (drawn_name_entropy (consume (set_isLoading true w)) w eq_refl)
    in Rn.
  destruct (generateRandomUsername (consume (set_isLoading true w)))
    as [[name|e] wn]; [|discriminate].
  cbn [fst snd] in Rn, Gu, Gr, Go. inversion Rn. subst name.
  rewrite user_profiles_insert_run.
  assert (outcome 0 wn = None) as Hn.
  { unfold outcome. rewrite Go. simpl. rewrite <- hd_nth0, hd_tl_nth1.
    exact H1. }
  rewrite Hn. cbv beta iota.
  match goal with
  | |- context [fetchPosts ?W] => startup_tail W
  end.
  eexists. split; [reflexivity|]. world_simpl.
  rewrite Hu, Hr, Ho. world_simpl. rewrite Gr, Go. simpl.
  repeat split.
Qed.

Lemma initializeApp_anonymous_known (id uuid : string) (w : World)
  (found : User.t) :
  id <> "" -> outcome 0 w = None ->
  single (filter (fun row => str_eq (User.id row) id)
                 (Remote.user_profiles (remote w))) = Some found ->
  exists w',
    initializeApp None (Some id) uuid w = (Returned (Some id), w') /\
    user w' = Some found /\ remote w' = remote w /\
    entropy w' = entropy w /\ isLoading w' = false.
Proof.
  intros Hid H0 Hfound.
  assert (truthy (Some id) = true) as Hk.
  { simpl. apply str_eq_false in Hid. now rewrite Hid. }
  unfold initializeApp. rewrite Hk. async_unfold.
  cbv beta. rewrite user_profiles_select_single_run.
  change (outcome 0 (set_isLoading true w)) with (outcome 0 w).
  rewrite H0. world_simpl. rewrite Hfound. cbv beta iota.
  match goal with
  | |- context [fetchPosts ?W] => startup_tail W
  end.
  eexists. split; [reflexivity|]. world_simpl.
  rewrite Hu, Hr, He. repeat split.
Qed.

(** The anonymous identity persists.  Without an auth session, with the
    first two requests accepted and no stored profile under the resolved
    id, [initializeApp] keeps the id that local storage holds (a new
    uuid when it holds none or an empty one), writes it to local storage,
    and stores and adopts a profile with that id, a generated name, the
    default preferences and no email.  A later start-up that finds local
    storage as the first one left it resolves the same identity from the
    stored profile: no new id, no new name, no second profile. *)
Theorem initializeApp_anonymous_identity_persists (storage : option string)
  (uuid : string) (w : World) :
  uuid <> "" -> calm 5 w ->
  let id := kept_or_new storage uuid in
  no_profile id (remote w) ->
  let newUser := User.mk id (Some (drawn_name w)) (mkPrefs true false system)
                         None in
  let w1 := after (initializeApp None storage uuid) w in
  fst (initializeApp None storage uuid w) = Returned (Some id) /\
  (forall stored, storage = Some stored -> stored <> "" -> id = stored) /\
  (storage = None \/ storage = Some "" -> id = uuid) /\
  user w1 = Some newUser /\
  Remote.user_profiles (remote w1)
  = Remote.user_profiles (remote w) ++ [newUser] /\
  isLoading w1 = false /\
  (forall uuid',
      let w2 := after (initializeApp None (Some id) uuid') w1 in
      fst (initializeApp None (Some id) uuid' w1) = Returned (Some id) /\
      user w2 = user w1 /\ remote w2 = remote w1 /\ entropy w2 = entropy w1).
Proof.
  intros Huuid Hcalm id Hnone newUser w1. subst w1.
  assert (outcome 0 w = None) as H0 by (apply Hcalm; lia).
  assert (outcome 1 w = None) as H1 by (apply Hcalm; lia).
  assert (outcome 4 w = None) as H4 by (apply Hcalm; lia).
  assert (id <> "") as Hid.
  { subst id. unfold kept_or_new. destruct storage as [stored|]; [|exact Huuid].
    destruct (str_eq stored "") eqn:E; [exact Huuid|].
    now apply str_eq_false. }
  destruct (initializeApp_anonymous_new storage uuid w H0 H1 Hnone)
    as (w1 & Hrun & Hu1 & Hp1 & _ & _ & Hl1 & Ho1).
  fold id in Hrun, Hu1, Hp1. fold newUser in Hu1, Hp1.
  unfold after. rewrite Hrun. cbn [fst snd].
  split; [reflexivity|]. split.
  { intros stored -> Hne. subst id. simpl. apply str_eq_false in Hne.
    now rewrite Hne. }
  split; [intros [->| ->]; reflexivity|].
  split; [exact Hu1|]. split; [exact Hp1|]. split; [exact Hl1|].
  intros uuid'.
  assert (outcome 0 w1 = None) as H01.
  { unfold outcome in *. rewrite Ho1.
    destruct (outages w) as [|a [|b [|c [|d [|e l]]]]]; auto. }
  assert (single (filter (fun row => str_eq (User.id row) id)
                         (Remote.user_profiles (remote w1))) = Some newUser)
    as Hfound.
  { rewrite Hp1, filter_app, filter_none.
    - simpl. now rewrite str_eq_refl.
    - intros row Hin. apply str_eq_false. now apply Hnone. }
  destruct (initializeApp_anonymous_known id uuid' w1 newUser Hid H01 Hfound)
    as (w2 & Hrun2 & Hu2 & Hr2 & He2 & _).
  rewrite Hrun2. cbn [fst snd]. rewrite Hu2, Hu1. repeat split; assumption.
Qed.

Lemma initializeApp_anonymous_identity_persists_witness :
  "4f1c" <> "" /\ calm 5 first_visit /\
  no_profile (kept_or_new None "4f1c") (remote first_visit) /\
  initializeApp None None "4f1c" first_visit
  = (Returned (Some "4f1c"),
     mkWorld (Remote.mk [post_of "p1" "alice" 1 0] []
                [User.mk "4f1c" (Some "RiverVoice") (mkPrefs true false system)
                         None] 1)
             [] [] 10 [] [post_of "p1" "alice" 1 0] []
             (Some (User.mk "4f1c" (Some "RiverVoice")
                            (mkPrefs true false system) None))
             false []) /\
  user (after (initializeApp None (Some "4f1c") "0000")
              (after (initializeApp None None "4f1c") first_visit))
  = Some (User.mk "4f1c" (Some "RiverVoice") (mkPrefs true false system) None).
Proof.
  assert ("4f1c" <> "") as Hne by discriminate.
  assert (calm 5 first_visit) as Hcalm by (intros k _; destruct k; reflexivity).
  assert (no_profile (kept_or_new None "4f1c") (remote first_visit)) as Hnone
      by (intros row []).
  destruct (initializeApp_anonymous_identity_persists None "4f1c" first_visit
              Hne Hcalm Hnone) as (_ & _ & _ & Hu & _ & _ & Hagain).
  destruct (Hagain "0000") as (_ & Hsame & _).
  split; [exact Hne|]. split; [exact Hcalm|]. split; [exact Hnone|].
  split; [reflexivity|]. exact (eq_trans Hsame Hu).
Defined.



(** ** Change events *)

Lemma filter_all {A} (keep : A -> bool) (rows : list A) :
  (forall a, In a rows -> keep a = true) -> filter keep rows = rows.
Proof.
  induction rows as [|a l IH]; simpl; intros H; [reflexivity|].
  rewrite (H a) by auto. rewrite IH; auto.
Qed.

Lemma map_unless {A} (hit : A -> bool) (new : A) (rows : list A) :
  (forall a, In a rows -> hit a = false) ->
  map (fun a => if hit a then new else a) rows = rows.
Proof.
  induction rows as [|a l IH]; simpl; intros H; [reflexivity|].
  rewrite (H a) by auto. rewrite IH; auto.
Qed.

Lemma handlers_keep_ids_unique_witness :
  NoDup (map Post.id (Remote.posts forum)) /\
  NoDup (map Post.id (onPostsChange (UPDATE (post_of "p2" "bob" 2 8))
                                    (Remote.posts forum))) /\
  NoDup (map Post.id (onPostsChange (DELETE "p1") (Remote.posts forum))) /\
  NoDup (map Post.id (onPostsChange (INSERT (post_of "p3" "bob" 3 0))
                                    (Remote.posts forum))).
Proof.
  assert (NoDup (map Post.id (Remote.posts forum))) as ND.
  { simpl. constructor; [|constructor; [|constructor]]; simpl.
    - intros [H|[]]. discriminate.
    - intros []. }
  destruct (handlers_keep_ids_unique (Remote.posts forum) ND)
    as (Hupdate & Hdelete & Hinsert).
  split; [exact ND|]. split; [apply Hupdate|]. split; [apply Hdelete|].
  apply Hinsert. simpl. intros [H|[H|[]]]; discriminate.
Defined.

(** Change events for ids the mirror does not hold.  An update or a
    deletion of such an id leaves the posts and the comments as they
    were, and the deletion of a row right after its insertion gives the
    collection back.  (When the id is already present the deletion takes
    the older rows with it, so the hypothesis is needed.) *)
Theorem changes_of_unknown_ids (posts : list Post.t)
  (comments : list Comment.t) (post : Post.t) (comment : Comment.t) :
  ~ In (Post.id post) (map Post.id posts) ->
  ~ In (Comment.id comment) (map Comment.id comments) ->
  onPostsChange (UPDATE post) posts = posts /\
  onPostsChange (DELETE (Post.id post)) posts = posts /\
  onPostsChange (DELETE (Post.id post)) (onPostsChange (INSERT post) posts)
  = posts /\
  onCommentsChange (UPDATE comment) comments = comments /\
  onCommentsChange (DELETE (Comment.id comment)) comments = comments /\
  onCommentsChange (DELETE (Comment.id comment))
                   (onCommentsChange (INSERT comment) comments)
  = comments.
Proof.
  intros Hpost Hcomment.
  assert (forall p, In p posts -> str_eq (Post.id p) (Post.id post) = false)
    as Hp.
  { intros p Hin. apply str_eq_false. intros E. apply Hpost.
    rewrite <- E. now apply in_map. }
  assert (forall c, In c comments ->
                    str_eq (Comment.id c) (Comment.id comment) = false) as Hc.
  { intros c Hin. apply str_eq_false. intros E. apply Hcomment.
    rewrite <- E. now apply in_map. }
  assert (filter (fun p => negb (str_eq (Post.id p) (Post.id post))) posts
          = posts) as Fp.
  { apply filter_all. intros p Hin. now rewrite (Hp p Hin). }
  assert (filter (fun c => negb (str_eq (Comment.id c) (Comment.id comment)))
                 comments = comments) as Fc.
  { apply filter_all. intros c Hin. now rewrite (Hc c Hin). }
  split; [now apply (map_unless (fun p => str_eq (Post.id p) (Post.id post)))|].
  split; [exact Fp|].
  split; [simpl; now rewrite str_eq_refl|].
  split; [now apply (map_unless
                       (fun c => str_eq (Comment.id c) (Comment.id comment)))|].
  split; [exact Fc|].
  simpl. rewrite filter_app, Fc. simpl. rewrite str_eq_refl. simpl.
  apply app_nil_r.
Qed.

Lemma changes_of_unknown_ids_witness :
  ~ In "p3" (map Post.id (Remote.posts forum)) /\
  ~ In "c3" (map Comment.id (Remote.comments forum)) /\
  onPostsChange (DELETE "p3")
    (onPostsChange (INSERT (post_of "p3" "bob" 3 0)) (Remote.posts forum))
  = Remote.posts forum /\
  onCommentsChange (DELETE "c3")
    (onCommentsChange (INSERT (comment_of "c3" "p1" "bob"))
                      (Remote.comments forum))
  = Remote.comments forum /\
  onPostsChange (DELETE "p1")
    (onPostsChange (INSERT (post_of "p1" "bob" 3 0)) (Remote.posts forum))
  <> Remote.posts forum.
Proof.
  assert (~ In "p3" (map Post.id (Remote.posts forum))) as Hp
      by (simpl; intros [H|[H|[]]]; discriminate).
  assert (~ In "c3" (map Comment.id (Remote.comments forum))) as Hc
      by (simpl; intros [H|[H|[]]]; discriminate).
  destruct (changes_of_unknown_ids (Remote.posts forum) (Remote.comments forum)
              (post_of "p3" "bob" 3 0) (comment_of "c3" "p1" "bob") Hp Hc)
    as (_ & _ & Hposts & _ & _ & Hcomments).
  split; [exact Hp|]. split; [exact Hc|]. split; [exact Hposts|].
  split; [exact Hcomments | discriminate].
Defined.

(** ** Ties in the feed *)

(** With nothing typed in the search box, posts that agree on the
    column of the sort mode are shown in the order in which the mirror
    holds them: the page's sort only moves posts past posts with a
    smaller value. *)
Theorem applyFilters_ties_keep_mirror_order (h : HomePage.state) (w : World) :
  HomePage.searchQuery h = "" ->
  forall n,
    with_key (sort_key (HomePage.sortBy h)) n (view_of h w)
    = with_key (sort_key (HomePage.sortBy h)) n
               (match HomePage.selectedFlag h with
                | Some f => filter (flag_is f) (posts w)
                | None => posts w
                end).
Proof.
  intros Hq n.
  assert (HomePage.applyFilters h w
          = (Returned
               (HomePage.set_view
                  (sort (compare_posts (HomePage.sortBy h))
                        (match HomePage.selectedFlag h with
                         | Some f => filter (flag_is f) (posts w)
                         | None => posts w
                         end))
                  false h), w)) as Hrun.
  { unfold HomePage.applyFilters, try_catch, HomePage.shares_posts_cell.
    rewrite Hq. async_unfold. reflexivity. }
  unfold view_of. rewrite Hrun. cbn [fst HomePage.filteredPosts HomePage.set_view].
  apply sort_stable. apply compare_sort_key.
Qed.

Lemma applyFilters_ties_keep_mirror_order_witness :
  HomePage.searchQuery fresh_page = "" /\
  view_of fresh_page
          (set_posts [post_of "p1" "alice" 4 0; post_of "p2" "bob" 9 1;
                      post_of "p3" "bob" 4 2] session)
  = [post_of "p2" "bob" 9 1; post_of "p1" "alice" 4 0; post_of "p3" "bob" 4 2] /\
  with_key Post.created_at 4
    (view_of fresh_page
             (set_posts [post_of "p1" "alice" 4 0; post_of "p2" "bob" 9 1;
                         post_of "p3" "bob" 4 2] session))
  = [post_of "p1" "alice" 4 0; post_of "p3" "bob" 4 2].
Proof.
  split; [reflexivity|]. split; [reflexivity|].
  exact (applyFilters_ties_keep_mirror_order fresh_page
           (set_posts [post_of "p1" "alice" 4 0; post_of "p2" "bob" 9 1;
                       post_of "p3" "bob" 4 2] session) eq_refl 4).
Defined.
